(** * RefChecker: reference verification engine

  A shallow embedding of the reference checker's resolution pipeline
  ([checkers/semantic_scholar.py]), of the candidate scoring of the local
  database checker ([checkers/local_semantic_scholar.py]), of the URL
  helpers ([utils/url_utils.py]) and of the ordered parallel processor
  ([core/parallel_processor.py]), with the properties the specification
  states about them and further properties of the code.

  Conventions of the embedding.
  - A Python [str] is a [string]; its characters are code points below
    256.  Text outside that range is not modelled.
  - The scores of the local database checker are Python [float]s that
    are added and divided: they are binary64 numbers ([float]), with the
    operations and the comparisons of IEEE 754, and a size of a word set
    is converted as Python converts an [int] in a division.  A float that
    is only compared or passed on (a similarity, a threshold, a clock
    reading) is a rational ([Q]).
  - A dictionary read with fixed keys is a record; a field read with
    [.get(key)] is an [option], a field read with [.get(key, default)]
    holds the default when the key is missing.  The [externalIds] and
    [journal] dictionaries are finite maps.
  - Functions of [utils.text_utils], [utils.doi_utils] and
    [config.settings] are not part of the sources at hand: they are
    section variables, and every result holds for all of them. *)

From Stdlib Require Import ZArith Floats.
From Stdlib Require Import QArith Qminmax Lqa Ascii String.
From stdpp Require Import base gmap sets list strings relations pretty.

(** Decimal literals are read as Python reads them: as the nearest
    binary64 value. *)
Set Warnings "-inexact-float".

Open Scope string_scope.

(** ** Python string primitives *)

Module Text.

(** [str.isspace] on one character: TAB..CR, FS..US, SPACE, NEL, NBSP. *)
Definition isspace (c : ascii) : bool :=
  let n := nat_of_ascii c in
  (((9 <=? n) && (n <=? 13)) || ((28 <=? n) && (n <=? 32))
   || (n =? 133) || (n =? 160))%nat.

(** [str.lower] on one character: A..Z, and the Latin-1 capitals
    U+00C0..U+00DE without the multiplication sign U+00D7. *)
Definition lower_char (c : ascii) : ascii :=
  let n := nat_of_ascii c in
  if (((65 <=? n) && (n <=? 90))
      || ((192 <=? n) && (n <=? 222) && negb (n =? 215)))%nat
  then ascii_of_nat (n + 32) else c.

Fixpoint lower (s : string) : string :=
  match s with
  | "" => ""
  | String c s' => String (lower_char c) (lower s')
  end.

(** [needle in hay]. *)
Fixpoint contains (needle hay : string) : bool :=
  String.prefix needle hay ||
  match hay with
  | "" => false
  | String _ hay' => contains needle hay'
  end.

(** [s.split()]: maximal runs of non-space characters. *)
Fixpoint split_go (cur : option string) (s : string) : list string :=
  match s with
  | "" => match cur with Some w => [String.rev w] | None => [] end
  | String c s' =>
      if isspace c
      then match cur with
           | Some w => String.rev w :: split_go None s'
           | None => split_go None s'
           end
      else split_go (Some (String c (default "" cur))) s'
  end.

Definition split (s : string) : list string := split_go None s.

(** [s.split(sep)] for a one-character separator: never empty. *)
Fixpoint split_on_go (sep : ascii) (cur : string) (s : string) : list string :=
  match s with
  | "" => [String.rev cur]
  | String c s' =>
      if Ascii.eqb c sep
      then String.rev cur :: split_on_go sep "" s'
      else split_on_go sep (String c cur) s'
  end.

Definition split_on (sep : ascii) (s : string) : list string :=
  split_on_go sep "" s.

Fixpoint lstrip (s : string) : string :=
  match s with
  | "" => ""
  | String c s' => if isspace c then lstrip s' else s
  end.

(** [s.strip()]. *)
Definition strip (s : string) : string :=
  String.rev (lstrip (String.rev (lstrip s))).

(** [s.replace(a, b)] for one-character [a] and [b]. *)
Fixpoint replace_char (a b : ascii) (s : string) : string :=
  match s with
  | "" => ""
  | String c s' => String (if Ascii.eqb c a then b else c) (replace_char a b s')
  end.

(** [s.replace(old, new)] for a non-empty [old]: the occurrences of [old],
    found from the left and not overlapping, become [new].  [skip] counts
    the characters of a replaced occurrence still to be passed over. *)
Fixpoint replace_go (old new : string) (skip : nat) (s : string) : string :=
  match s with
  | "" => ""
  | String c s' =>
      match skip with
      | S k => replace_go old new k s'
      | O =>
          if String.prefix old s
          then new ++ replace_go old new (String.length old - 1) s'
          else String c (replace_go old new 0 s')
      end
  end.

Definition replace (old new s : string) : string :=
  match old with
  | "" => s
  | _ => replace_go old new 0 s
  end.

(** [sep.join(l)]. *)
Fixpoint join (sep : string) (l : list string) : string :=
  match l with
  | [] => ""
  | [x] => x
  | x :: l' => x ++ sep ++ join sep l'
  end.

(** Truth value of a string. *)
Definition nonempty (s : string) : bool :=
  match s with "" => false | _ => true end.

(** The first match of the regular expression [lit([^stop]+)] in [s],
    as [re.search] finds it: the leftmost position at which [lit] is
    followed by at least one character outside [stop]; the group is the
    longest run of such characters. *)
Fixpoint take_until (stop : ascii -> bool) (s : string) : string :=
  match s with
  | "" => ""
  | String c s' => if stop c then "" else String c (take_until stop s')
  end.

Fixpoint drop_prefix (p s : string) : option string :=
  match p, s with
  | "", _ => Some s
  | String a p', String b s' =>
      if Ascii.eqb a b then drop_prefix p' s' else None
  | _, "" => None
  end.

Definition group_at (lit : string) (stop : ascii -> bool) (s : string)
  : option string :=
  match drop_prefix lit s with
  | Some rest =>
      match take_until stop rest with
      | "" => None
      | g => Some g
      end
  | None => None
  end.

Fixpoint search_group (lit : string) (stop : ascii -> bool) (s : string)
  : option string :=
  match group_at lit stop s with
  | Some g => Some g
  | None =>
      match s with
      | "" => None
      | String _ s' => search_group lit stop s'
      end
  end.

(** Some character of [s] satisfies [p]. *)
Fixpoint any (p : ascii -> bool) (s : string) : bool :=
  match s with
  | "" => false
  | String c s' => p c || any p s'
  end.

(** [s.split(sep, 1)] for a one-character separator: the text before the
    first [sep] and the text after it, or [s] alone. *)
Fixpoint split_once (sep : ascii) (s : string) : list string :=
  match s with
  | "" => [""]
  | String c s' =>
      if Ascii.eqb c sep then [""; s']
      else match split_once sep s' with
           | x :: rest => String c x :: rest
           | [] => [String c ""]
           end
  end.

(** [\d] on one character. *)
Definition isdigit (c : ascii) : bool :=
  let n := nat_of_ascii c in ((48 <=? n) && (n <=? 57))%nat.

(** The match of the regular expression [\[(\d+)\]] at the start of [s],
    as [re.match] finds it: the group, and the text after the match. *)
Definition bracketed_number (s : string) : option (string * string) :=
  match s with
  | String "[" rest =>
      let digits := take_until (fun c => negb (isdigit c)) rest in
      match digits, drop_prefix digits rest with
      | String _ _, Some (String "]" after) => Some (digits, after)
      | _, _ => None
      end
  | _ => None
  end.

End Text.

(** ** Paper records, as the Semantic Scholar schema has them *)

Record Author := { author_name : option string }.

(** [author.get('name', '')]. *)
Definition name_of (a : Author) : string := default "" (author_name a).

(** The value under [venue] or [journal]: a string, a dictionary (the
  journal object, whose [name] is its title), or any other value, of
  which only the truth value and [str()] are observed. *)
Inductive VenueValue :=
| VStr (s : string)
| VDict (fields : gmap string string)
| VOther (truthy : bool) (repr : string).

Record OpenAccessPdf := { pdf_url : option string }.

Record Paper := {
paper_title : string;
paper_authors : list Author;
paper_year : option nat;
paper_externalIds : gmap string string;
paper_url : option string;
paper_openAccessPdf : option OpenAccessPdf;
paper_venue : option VenueValue;
paper_journal : option VenueValue
}.

(** Comparisons of scores that are only compared: a float that enters no
    arithmetic is the rational it denotes. *)
Definition Qgeb (a b : Q) : bool := Qle_bool b a.
Definition Qltb (a b : Q) : bool := negb (Qle_bool b a).

(** ** Candidate scoring of the local database checker *)

Module LocalSemanticScholar.
Section Scoring.

(** [utils.text_utils]. *)
Variable normalize_author_name : string -> string.
Variable is_name_match : string -> string -> bool.
(** The database: [search_papers_by_title(title, year)]. *)
Variable search_papers_by_title : string -> nat -> list Paper.

(** The word set of a title: [set(s.split())]. *)
Definition word_set (s : string) : gset string := list_to_set (Text.split s).

(** A count as a float.  [len(a) / len(b)] divides two integers and
    rounds the exact quotient once; for counts below [2 ^ 53] that is the
    binary64 quotient of the two counts, each a float without rounding. *)
Definition of_count (n : nat) : float :=
  PrimFloat.of_uint63 (Uint63.of_Z (Z.of_nat n)).

(** A float is a number when it is not a NaN. *)
Definition number (x : float) : Prop := Prim2SF x <> S754_nan.

(** Lines 272-288: the title part of the score.  The integer [0] of line
    286 is the float zero in every sum and comparison it enters. *)
Definition title_score (title : string) (result : Paper) : float :=
  let result_title := Text.lower (paper_title result) in
  let title_lower := Text.lower title in
  if Text.contains title_lower result_title
     || Text.contains result_title title_lower
  then 0.8%float
  else
    let title_words := word_set title_lower in
    let result_words := word_set result_title in
    let common_words := title_words ∩ result_words in
    if bool_decide (title_words = ∅) || bool_decide (result_words = ∅)
    then 0%float
    else (of_count (size common_words)
          / of_count (Nat.max (size title_words) (size result_words)))%float.

(** Lines 291-297: is the first-author bonus due? *)
Definition first_author_matches (authors : list string) (result : Paper) : bool :=
  match authors, paper_authors result with
  | a :: _, ra :: _ =>
      is_name_match (normalize_author_name a)
                    (normalize_author_name (name_of ra))
  | _, _ => false
  end.

(** Lines 300-301: [year and result.get('year') == year]. *)
Definition year_matches (year : nat) (result : Paper) : bool :=
  negb (year =? 0)%nat && bool_decide (paper_year result = Some year).

(** The score of one candidate, with the updates of the loop body in
    the order of the source: binary64 additions. *)
Definition candidate_score (title : string) (authors : list string)
    (year : nat) (result : Paper) : float :=
  let score := title_score title result in
  let score := if first_author_matches authors result
               then (score + 0.2)%float else score in
  let score := if year_matches year result
               then (score + 0.1)%float else score in
  score.

(** One iteration of the loop of lines 271-307 on the pair
    [(best_match, best_score)]: [score > best_score]. *)
Definition best_step (title : string) (authors : list string) (year : nat)
    (best : option Paper * float) (result : Paper) : option Paper * float :=
  let score := candidate_score title authors year result in
  if (snd best <? score)%float then (Some result, score) else best.

Definition best_of (title : string) (authors : list string) (year : nat)
    (results : list Paper) : option Paper * float :=
  fold_left (best_step title authors year) results (None, 0%float).

(** [find_best_match(title, authors, year)], lines 247-317:
    [best_score >= 0.7]. *)
Definition find_best_match (title : string) (authors : list string)
    (year : nat) : option Paper :=
  let title_results := search_papers_by_title title year in
  match title_results with
  | [] => None
  | _ =>
      let '(best_match, best_score) := best_of title authors year title_results in
      if (0.7 <=? best_score)%float then best_match else None
  end.

End Scoring.
End LocalSemanticScholar.

(** ** URL helpers ([utils/url_utils.py]) *)

(** [d.get(key)] read as a truth value: the value when it is a non-empty
    string. *)
Definition get_truthy (d : gmap string string) (key : string) : option string :=
  match d !! key with
  | Some v => if Text.nonempty v then Some v else None
  | None => None
  end.

Module UrlUtils.
Section UrlUtils.

(** [utils.doi_utils.normalize_doi]. *)
Variable normalize_doi : string -> string.

Definition construct_doi_url (doi : string) : string :=
  if Text.nonempty doi then "https://doi.org/" ++ normalize_doi doi else "".

Definition construct_arxiv_url (arxiv_id : string) (url_type : string) : string :=
  if Text.nonempty arxiv_id then
    let clean_id :=
      Text.replace "v3" "" (Text.replace "v2" "" (Text.replace "v1" "" arxiv_id)) in
    if String.eqb url_type "pdf"
    then "https://arxiv.org/pdf/" ++ clean_id ++ ".pdf"
    else "https://arxiv.org/abs/" ++ clean_id
  else "".

Definition construct_semantic_scholar_url (paper_id : string) : string :=
  if Text.nonempty paper_id
  then "https://www.semanticscholar.org/paper/" ++ paper_id else "".

Definition construct_openalex_url (work_id : string) : string :=
  if Text.nonempty work_id
  then "https://openalex.org/" ++ Text.replace "https://openalex.org/" "" work_id
  else "".

Definition construct_pubmed_url (pmid : string) : string :=
  if Text.nonempty pmid
  then "https://pubmed.ncbi.nlm.nih.gov/"
       ++ Text.strip (Text.replace "PMID:" "" pmid) ++ "/"
  else "".

(** [get_best_available_url(external_ids, open_access_pdf)], the URL choice
    of the local database checker.  Its documented priority is
    open-access PDF, DOI, arXiv, Semantic Scholar, OpenAlex, PubMed. *)
Definition get_best_available_url (external_ids : gmap string string)
    (open_access_pdf : option string) : option string :=
  match open_access_pdf with
  | Some (String _ _ as pdf) => Some pdf
  | _ =>
  match get_truthy external_ids "DOI" with
  | Some doi => Some (construct_doi_url doi)
  | None =>
  match get_truthy external_ids "ArXiv" with
  | Some arxiv_id => Some (construct_arxiv_url arxiv_id "abs")
  | None =>
  match get_truthy external_ids "CorpusId" with
  | Some paper_id => Some (construct_semantic_scholar_url paper_id)
  | None =>
  match get_truthy external_ids "OpenAlex" with
  | Some work_id => Some (construct_openalex_url work_id)
  | None =>
  match get_truthy external_ids "PubMed" with
  | Some pmid => Some (construct_pubmed_url pmid)
  | None => None
  end end end end end end.

(** [validate_url_format(url)], lines 149-163. *)
Definition validate_url_format (url : string) : bool :=
  if Text.nonempty url
  then (String.prefix "http://" url || String.prefix "https://" url)
       && Text.contains "." url
  else false.

(** [clean_url(url)], lines 166-191.  Line 184 unpacks the split into two
    names; [None] stands for the [ValueError] of an unpacking that does
    not find two parts. *)
Definition clean_url (url : string) : option string :=
  if Text.nonempty url then
    let url := Text.strip url in
    if Text.contains "?" url then
      match Text.split_once "?" url with
      | [base_url; params] =>
          if Text.contains "doi.org" base_url then Some base_url
          else let url := base_url in Some url
      | _ => None
      end
    else Some url
  else Some "".

End UrlUtils.
End UrlUtils.

(** ** Citations and findings *)

(** The citation dictionary; every field is read with [.get(key, default)],
    so a missing key is the default ([''], [[]] or [0]). *)
Record Reference := {
  ref_title : string;
  ref_authors : list string;
  ref_year : nat;
  ref_url : string;
  ref_raw_text : string;
  ref_doi : string;
  ref_journal : string;
  ref_venue : string
}.

(** A finding is a dictionary: an error has the keys [error_type] and
    [error_details], a warning [warning_type] and [warning_details]; the
    corrected value is under a [ref_..._correct] key. *)
Inductive Value :=
| Str (s : string)
| Int (n : nat).

Abbreviation Finding := (gmap string Value).

#[global] Instance Value_eq_dec : EqDecision Value.
Proof. solve_decision. Defined.

(** The finding has [field] under [key]: with the key [error_type] it is
    an error about [field], with [warning_type] a warning about it. *)
Definition has_type (key field : string) (f : Finding) : bool :=
  bool_decide (f !! key = Some (Str field)).

Definition is_error (f : Finding) : bool := bool_decide (is_Some (f !! "error_type")).
Definition is_warning (f : Finding) : bool := bool_decide (is_Some (f !! "warning_type")).

(** The field a finding is about: what it has under [error_type], or else
    under [warning_type]. *)
Definition kind_of (f : Finding) : option Value :=
  match f !! "error_type" with
  | Some v => Some v
  | None => f !! "warning_type"
  end.

(** Whether a finding is an error ([true]) or a warning ([false]): it has
    one of the two type keys and not the other. *)
Definition severity (f : Finding) : option bool :=
  match f !! "error_type", f !! "warning_type" with
  | Some _, None => Some true
  | None, Some _ => Some false
  | _, _ => None
  end.

(** ** The Semantic Scholar checker ([checkers/semantic_scholar.py]) *)

Module SemanticScholar.

(** *** The network, and the trace of a verification *)

(** What one [requests.get] comes to: status 429, status 404, another
    status on which [raise_for_status] raises, a [RequestException] raised
    by the request or by decoding its body, or a decoded body. *)
Inductive Response (A : Type) : Type :=
| RateLimited
| NotFound
| HttpError
| RequestError
| Ok (body : A).

Arguments RateLimited {A}.
Arguments NotFound {A}.
Arguments HttpError {A}.
Arguments RequestError {A}.
Arguments Ok {A} body.

(** An entry of the arXiv Atom feed, as [_get_paper_from_arxiv_api] reads
    it: the stripped title, the stripped author names, and the year of the
    publication date when its first four characters are a number. *)
Record ArxivEntry := {
  entry_title : string;
  entry_authors : list string;
  entry_year : option nat
}.

(** The outside world: the answer to the [t]-th request of a verification.
    The arXiv endpoint answers with the first entry of the feed, or with
    nothing when the request fails, the feed cannot be read or is empty. *)
Record Network := {
  get_doi : nat -> string -> Response Paper;
  get_search : nat -> string -> Response (list Paper);
  get_arxiv : nat -> string -> option ArxivEntry
}.

Inductive Status := S429 | S404 | SOther | SException | S200.

Definition status_of {A} (r : Response A) : Status :=
  match r with
  | RateLimited => S429
  | NotFound => S404
  | HttpError => SOther
  | RequestError => SException
  | Ok _ => S200
  end.

(** One pass of a retry loop: the status seen and the seconds slept
    before the next pass. *)
Record Attempt := { status : Status; slept : option nat }.

Inductive Call :=
| DoiLookup (doi : string)
| Search (query : string)
| ArxivApi (arxiv_id : string).

(** One call of [get_paper_by_doi], [search_paper] or
    [_get_paper_from_arxiv_api]: the number of requests sent before it,
    and the passes of its loop. *)
Record CallRecord := { call : Call; call_clock : nat; attempts : list Attempt }.

(** The checker object during a verification: its two failure fields, the
    number of requests sent, and the calls made so far (a ghost trace). *)
Record State := {
  _api_failed : bool;
  _failure_reason : option string;
  clock : nat;
  calls : list CallRecord
}.

Inductive Exception :=
| UnboundLocalError (name : string).

Inductive Result (A : Type) : Type :=
| Returned (a : A)
| Raised (e : Exception).

Arguments Returned {A} a.
Arguments Raised {A} e.

(** Computations on the checker that may raise. *)
Definition M (A : Type) : Type := State -> Result A * State.

#[global] Instance M_ret : MRet M := fun A a s => (Returned a, s).

#[global] Instance M_bind : MBind M := fun A B f m s =>
  match m s with
  | (Returned a, s') => f a s'
  | (Raised e, s') => (Raised e, s')
  end.

Definition raise {A} (e : Exception) : M A := fun s => (Raised e, s).

Definition get_state : M State := fun s => (Returned s, s).

(** [__init__]: the retry parameters. *)
Definition request_delay : nat := 1.
Definition max_retries : nat := 5.
Definition backoff_factor : nat := 2.

Definition wait_time (attempt : nat) : nat :=
  request_delay * backoff_factor ^ attempt.

Definition record_call (c : Call) (atts : list Attempt) (failed : bool)
    (s : State) : State :=
  {| _api_failed := if failed then true else _api_failed s;
     _failure_reason := if failed then Some "rate_limited_or_timeout"
                        else _failure_reason s;
     clock := clock s + length atts;
     calls := calls s ++ [ {| call := c; call_clock := clock s;
                              attempts := atts |} ] |}.

Section Checker.

Variable net : Network.

(** [utils.text_utils], [utils.doi_utils] and [config.settings]. *)
Variable normalize_text : string -> string.
Variable clean_title_for_search : string -> string.
Variable find_best_match :
  list Paper -> string -> nat -> list string -> option Paper * Q.
Variable calculate_title_similarity : string -> string -> Q.
Variable compare_authors : list string -> list Author -> bool * string.
Variable are_venues_substantially_different : string -> string -> bool.
Variable construct_doi_url : string -> string.
Variable SIMILARITY_THRESHOLD : Q.

(** *** The client, lines 70-169 *)

(** The loop of [search_paper]: [remaining] passes are left, this is pass
    number [attempt], and [t] requests were sent before.  A 429 sleeps and
    goes on; any other failure is a [RequestException], caught, and the
    loop sleeps and goes on; a body ends the loop.  The result is [None]
    when the loop runs out. *)
Fixpoint search_attempts (remaining attempt : nat) (query : string) (t : nat)
  : option (list Paper) * list Attempt :=
  match remaining with
  | O => (None, [])
  | S n =>
      match get_search net t query with
      | Ok data => (Some data, [ {| status := S200; slept := None |} ])
      | r =>
          let '(res, atts) := search_attempts n (S attempt) query (S t) in
          (res, {| status := status_of r; slept := Some (wait_time attempt) |} :: atts)
      end
  end.

Definition search_paper (query : string) : M (list Paper) := fun s =>
  let '(res, atts) := search_attempts max_retries 0 query (clock s) in
  match res with
  | Some data => (Returned data, record_call (Search query) atts false s)
  | None => (Returned [], record_call (Search query) atts true s)
  end.

(** The loop of [get_paper_by_doi]; here a 404 ends the loop with "not
    found" ([Some None]). *)
Fixpoint doi_attempts (remaining attempt : nat) (doi : string) (t : nat)
  : option (option Paper) * list Attempt :=
  match remaining with
  | O => (None, [])
  | S n =>
      match get_doi net t doi with
      | Ok paper => (Some (Some paper), [ {| status := S200; slept := None |} ])
      | NotFound => (Some None, [ {| status := S404; slept := None |} ])
      | r =>
          let '(res, atts) := doi_attempts n (S attempt) doi (S t) in
          (res, {| status := status_of r; slept := Some (wait_time attempt) |} :: atts)
      end
  end.

Definition get_paper_by_doi (doi : string) : M (option Paper) := fun s =>
  let '(res, atts) := doi_attempts max_retries 0 doi (clock s) in
  match res with
  | Some paper => (Returned paper, record_call (DoiLookup doi) atts false s)
  | None => (Returned None, record_call (DoiLookup doi) atts true s)
  end.

(** [_get_paper_from_arxiv_api], lines 518-586: one request, every failure
    caught; the record is put together from the entry. *)
Definition arxiv_paper_data (arxiv_id : string) (e : ArxivEntry) : Paper :=
  {| paper_title := entry_title e;
     paper_authors := map (fun n => {| author_name := Some n |}) (entry_authors e);
     paper_year := entry_year e;
     paper_externalIds := {[ "ArXiv" := arxiv_id ]};
     paper_url := Some ("https://arxiv.org/abs/" ++ arxiv_id);
     paper_openAccessPdf :=
       Some {| pdf_url := Some ("https://arxiv.org/pdf/" ++ arxiv_id ++ ".pdf") |};
     paper_venue := Some (VStr "arXiv");
     paper_journal := None |}.

Definition _get_paper_from_arxiv_api (arxiv_id : string) : M (option Paper) :=
  fun s =>
  match get_arxiv net (clock s) arxiv_id with
  | Some e =>
      (Returned (Some (arxiv_paper_data arxiv_id e)),
       record_call (ArxivApi arxiv_id) [ {| status := S200; slept := None |} ] false s)
  | None =>
      (Returned None,
       record_call (ArxivApi arxiv_id) [ {| status := SException; slept := None |} ] false s)
  end.

(** *** Identifiers in URLs *)

(** [extract_doi_from_url], lines 171-191: the pattern [doi\.org/([^/\s]+)]. *)
Definition extract_doi_from_url (url : string) : option string :=
  if Text.nonempty url && Text.contains "doi.org" url
  then Text.search_group "doi.org/"
         (fun c => Ascii.eqb c "/" || Text.isspace c) url
  else None.

(** Lines 291-295, 372-375 and 400-403: the pattern
    [arxiv\.org/abs/([^\s/?#]+)] on a URL that contains [arxiv.org/abs/]. *)
Definition arxiv_id_in_url (url : string) : option string :=
  if Text.nonempty url && Text.contains "arxiv.org/abs/" url
  then Text.search_group "arxiv.org/abs/"
         (fun c => Text.isspace c || Ascii.eqb c "/" || Ascii.eqb c "?"
                   || Ascii.eqb c "#") url
  else None.

(** [normalize_author_name], lines 193-207: a reference number at the
    start of the name, the pattern [^\[\d+\]], is removed, and the rest is
    normalized. *)
Definition normalize_author_name (name : string) : string :=
  let name :=
    match Text.bracketed_number name with
    | Some (_, after) => after
    | None => name
    end in
  normalize_text name.

(** Lines 250-255: the DOI of the citation, from its [doi] field or else
    from its URL. *)
Definition cited_doi (reference : Reference) : option string :=
  if Text.nonempty (ref_doi reference) then Some (ref_doi reference)
  else if Text.nonempty (ref_url reference)
       then extract_doi_from_url (ref_url reference)
       else None.

(** *** The fallback chain, lines 257-341 *)

(** The local variables the strategies share.  [cleaned_title] is bound
    only once the title search has run. *)
Record Locals := {
  paper_data : option Paper;
  found_title : string;
  cleaned_title : option string
}.

Definition accept (m : Paper) (l : Locals) : Locals :=
  {| paper_data := Some m; found_title := paper_title m;
     cleaned_title := cleaned_title l |}.

(** Lines 278-286 and 331-339: the best match, when its score reaches the
    threshold. *)
Definition choose (search_results : list Paper) (title : string)
    (reference : Reference) (l : Locals) : Locals :=
  let '(best_match, best_score) :=
    find_best_match search_results title (ref_year reference)
                    (ref_authors reference) in
  match best_match with
  | Some m => if Qgeb best_score SIMILARITY_THRESHOLD then accept m l else l
  | None => l
  end.

(** Lines 259-266. *)
Definition doi_strategy (doi : option string) : M Locals :=
  match doi with
  | Some d =>
      paper ← get_paper_by_doi d;
      mret {| paper_data := paper; found_title := ""; cleaned_title := None |}
  | None =>
      mret {| paper_data := None; found_title := ""; cleaned_title := None |}
  end.

(** Lines 268-288. *)
Definition title_strategy (reference : Reference) (l : Locals) : M Locals :=
  match paper_data l with
  | None =>
      if Text.nonempty (ref_title reference) then
        let cleaned := clean_title_for_search (ref_title reference) in
        let l := {| paper_data := None; found_title := found_title l;
                    cleaned_title := Some cleaned |} in
        search_results ← search_paper cleaned;
        match search_results with
        | [] => mret l
        | _ => mret (choose search_results cleaned reference l)
        end
      else mret l
  | Some _ => mret l
  end.

(** Lines 290-318. *)
Definition arxiv_strategy (reference : Reference) (l : Locals) : M Locals :=
  match paper_data l with
  | None =>
      match arxiv_id_in_url (ref_url reference) with
      | Some arxiv_id =>
          search_results ← search_paper ("arXiv:" ++ arxiv_id);
          match
            List.find
              (fun result =>
                 bool_decide (paper_externalIds result !! "ArXiv" = Some arxiv_id))
              search_results
          with
          | Some result => mret (accept result l)
          | None =>
              arxiv_paper ← _get_paper_from_arxiv_api arxiv_id;
              match arxiv_paper with
              | Some p => mret (accept p l)
              | None => mret l
              end
          end
      | None => mret l
      end
  | Some _ => mret l
  end.

(** Lines 320-341.  The scoring reads [cleaned_title], which is unbound
    when the title search was skipped. *)
Definition raw_text_strategy (reference : Reference) (l : Locals) : M Locals :=
  match paper_data l with
  | None =>
      if Text.nonempty (ref_raw_text reference) then
        let search_query :=
          Text.strip (Text.replace_char "010" " " (ref_raw_text reference)) in
        let normalized_raw_query :=
          Text.strip (Text.lower (normalize_text search_query)) in
        search_results ← search_paper normalized_raw_query;
        match search_results with
        | [] => mret l
        | _ =>
            match cleaned_title l with
            | Some cleaned => mret (choose search_results cleaned reference l)
            | None => raise (UnboundLocalError "cleaned_title")
            end
        end
      else mret l
  | Some _ => mret l
  end.

(** Lines 237-239: the failure fields are reset. *)
Definition reset_failure : M unit := fun s =>
  (Returned tt,
   {| _api_failed := false; _failure_reason := None;
      clock := clock s; calls := calls s |}).

Definition resolve (reference : Reference) : M Locals :=
  _ ← reset_failure;
  l ← doi_strategy (cited_doi reference);
  l ← title_strategy reference l;
  l ← arxiv_strategy reference l;
  raw_text_strategy reference l.

(** *** Cross-validation, lines 355-478 *)

(** Lines 372-378 and 400-406: the arXiv identifier in the cited URL is
    the candidate's. *)
Definition arxiv_id_match (reference : Reference) (paper : Paper) : bool :=
  match arxiv_id_in_url (ref_url reference) with
  | Some cited_arxiv_id =>
      bool_decide (paper_externalIds paper !! "ArXiv" = Some cited_arxiv_id)
  | None => false
  end.

(** Lines 355-362. *)
Definition title_findings (reference : Reference) (found_title : string)
    (paper : Paper) : list Finding :=
  let title := ref_title reference in
  let title_similarity :=
    if Text.nonempty found_title
    then calculate_title_similarity title found_title else 0%Q in
  if Text.nonempty found_title && Qltb title_similarity SIMILARITY_THRESHOLD
  then [ {[ "error_type" := Str "title";
            "error_details" :=
              Str ("Title mismatch: cited as '" ++ title
                   ++ "' but actually '" ++ found_title ++ "'");
            "ref_title_correct" := Str (paper_title paper) ]} ]
  else [].

Definition correct_authors (paper : Paper) : string :=
  Text.join ", " (map name_of (paper_authors paper)).

(** Lines 364-393. *)
Definition author_findings (reference : Reference) (paper : Paper)
  : list Finding :=
  match ref_authors reference with
  | [] => []
  | authors =>
      let '(authors_match, author_error) :=
        compare_authors authors (paper_authors paper) in
      if authors_match then []
      else if arxiv_id_match reference paper
      then [ {[ "warning_type" := Str "author";
                "warning_details" :=
                  Str (author_error ++ " (Note: ArXiv ID matches exactly - this may be due to incomplete author data in Semantic Scholar)");
                "ref_authors_correct" := Str (correct_authors paper) ]} ]
      else [ {[ "error_type" := Str "author";
                "error_details" := Str author_error;
                "ref_authors_correct" := Str (correct_authors paper) ]} ]
  end.

(** Lines 395-416. *)
Definition year_findings (reference : Reference) (paper : Paper)
  : list Finding :=
  let year := ref_year reference in
  match paper_year paper with
  | Some py =>
      if negb (year =? 0)%nat && negb (py =? 0)%nat && negb (year =? py)%nat
      then
        let warning_details :=
          "Year mismatch: cited as " ++ pretty year
          ++ " but actually " ++ pretty py in
        let warning_details :=
          if arxiv_id_match reference paper
          then warning_details ++ " (Note: ArXiv ID matches exactly - this may be due to conference vs. preprint year difference)"
          else warning_details in
        [ {[ "warning_type" := Str "year";
             "warning_details" := Str warning_details;
             "ref_year_correct" := Int py ]} ]
      else []
  | None => []
  end.

(** Truth value of a venue value, and [a or b]. *)
Definition venue_truthy (v : option VenueValue) : bool :=
  match v with
  | Some (VStr s) => Text.nonempty s
  | Some (VDict fields) => negb (bool_decide (fields = ∅))
  | Some (VOther truthy _) => truthy
  | None => false
  end.

(** Lines 420-426: the candidate's venue as a string; [""] stands for
    every value that is not true. *)
Definition paper_venue_text (paper : Paper) : string :=
  let paper_venue :=
    if venue_truthy (paper_venue paper)
    then paper_venue paper else paper_journal paper in
  match paper_venue with
  | Some (VStr s) => s
  | Some (VDict fields) =>
      if bool_decide (fields = ∅) then ""
      else match fields !! "name" with Some n => n | None => "" end
  | Some (VOther truthy repr) => if truthy then repr else ""
  | None => ""
  end.

(** Lines 418-461. *)
Definition venue_findings (reference : Reference) (paper : Paper)
  : list Finding :=
  let cited_venue :=
    if Text.nonempty (ref_journal reference)
    then ref_journal reference else ref_venue reference in
  let paper_venue := paper_venue_text paper in
  if Text.nonempty cited_venue && Text.nonempty paper_venue then
    if are_venues_substantially_different cited_venue paper_venue
    then [ {[ "warning_type" := Str "venue";
              "warning_details" :=
                Str ("Venue mismatch: cited as '" ++ cited_venue
                     ++ "' but actually '" ++ paper_venue ++ "'");
              "ref_venue_correct" := Str paper_venue ]} ]
    else []
  else if negb (Text.nonempty cited_venue) && Text.nonempty paper_venue then
    match get_truthy (paper_externalIds paper) "ArXiv" with
    | Some arxiv_id =>
        let arxiv_url := "https://arxiv.org/abs/" ++ arxiv_id in
        [ {[ "warning_type" := Str "venue";
             "warning_details" :=
               Str ("Reference should include arXiv URL: " ++ arxiv_url);
             "ref_url_correct" := Str arxiv_url ]} ]
    | None =>
        let raw_text := ref_raw_text reference in
        if Text.nonempty raw_text && Text.contains "#" raw_text then
          match Text.split_on "#" raw_text with
          | _ :: _ :: part :: _ =>
              if Text.nonempty (Text.strip part)
              then [ {[ "warning_type" := Str "venue";
                        "warning_details" :=
                          Str ("Venue missing: should include '" ++ paper_venue ++ "'");
                        "ref_venue_correct" := Str paper_venue ]} ]
              else []
          | _ => []
          end
        else []
    end
  else [].

(** [s.split('#')[0]]. *)
Definition before_hash (s : string) : string :=
  match Text.split_on "#" s with
  | x :: _ => x
  | [] => ""
  end.

(** Lines 463-478. *)
Definition doi_findings (doi : option string) (paper : Paper) : list Finding :=
  match paper_externalIds paper !! "DOI" with
  | Some paper_doi =>
      let cited_doi_clean :=
        match doi with Some d => before_hash d | None => "" end in
      let paper_doi_clean :=
        if Text.nonempty paper_doi then before_hash paper_doi else "" in
      if Text.nonempty cited_doi_clean && Text.nonempty paper_doi_clean
         && negb (String.eqb (Text.lower cited_doi_clean)
                             (Text.lower paper_doi_clean))
      then [ {[ "error_type" := Str "doi";
                "error_details" :=
                  Str ("DOI mismatch: cited as " ++ default "" doi
                       ++ " but actually " ++ paper_doi);
                "ref_doi_correct" := Str paper_doi ]} ]
      else []
  | None => []
  end.

(** The list [errors] at the end of [verify_reference], in the order of
    the appends. *)
Definition findings (reference : Reference) (doi : option string)
    (found_title : string) (paper : Paper) : list Finding :=
  title_findings reference found_title paper
  ++ author_findings reference paper
  ++ year_findings reference paper
  ++ venue_findings reference paper
  ++ doi_findings doi paper.

(** *** The URL of the verdict, lines 480-516 *)

(** Truth value of an optional string. *)
Definition some_truthy (o : option string) : option string :=
  match o with
  | Some (String _ _ as s) => Some s
  | _ => None
  end.

Definition select_url (paper : Paper) : option string :=
  let external_ids := paper_externalIds paper in
  (* First priority: the arXiv URL. *)
  match get_truthy external_ids "ArXiv" with
  | Some arxiv_id => Some ("https://arxiv.org/abs/" ++ arxiv_id)
  | None =>
  (* Second priority: the open access PDF. *)
  match some_truthy (paper_openAccessPdf paper ≫= pdf_url) with
  | Some url => Some url
  | None =>
  (* Third priority: the general URL field. *)
  match some_truthy (paper_url paper) with
  | Some url => Some url
  | None =>
  (* Fourth priority: the DOI URL. *)
  match get_truthy external_ids "DOI" with
  | Some doi => Some (construct_doi_url doi)
  | None => paper_url paper
  end end end end.

(** *** [verify_reference], lines 224-516 *)

Definition api_failure_finding (reason : option string) : Finding :=
  {[ "error_type" := Str "api_failure";
     "error_details" :=
       Str ("Semantic Scholar API failed: " ++ default "None" reason) ]}.

Definition verify_reference (reference : Reference)
  : M (option Paper * list Finding * option string) :=
  l ← resolve reference;
  match paper_data l with
  | None =>
      s ← get_state;
      if _api_failed s
      then mret (None, [api_failure_finding (_failure_reason s)], None)
      else mret (None, [], None)
  | Some paper =>
      mret (Some paper,
            findings reference (cited_doi reference) (found_title l) paper,
            select_url paper)
  end.

End Checker.

(** The state of a checker at the start of a verification: any failure
    fields, no call made yet. *)
Definition start (failed : bool) (reason : option string) (t : nat) : State :=
  {| _api_failed := failed; _failure_reason := reason; clock := t; calls := [] |}.

(** A call has exhausted its retries when it made [max_retries] passes and
    none of them ended it. *)
Definition transient (c : Call) (a : Attempt) : bool :=
  match status a, c with
  | S200, _ => false
  | S404, DoiLookup _ => false
  | _, _ => true
  end.

Definition exhausted (r : CallRecord) : bool :=
  match call r with
  | ArxivApi _ => false
  | c => (length (attempts r) =? max_retries)%nat
         && forallb (transient c) (attempts r)
  end.

Definition is_search (r : CallRecord) : bool :=
  match call r with Search _ => true | _ => false end.

Definition is_arxiv_api (r : CallRecord) : bool :=
  match call r with ArxivApi _ => true | _ => false end.

(** *** Reasoning about computations *)

(** A record tells what the network did: the call exhausted its retries
    exactly when each of the [max_retries] requests it sent failed: for a
    search, none brought a body; for a lookup, none brought a body or a
    404.  The arXiv endpoint is asked once and never exhausts. *)
Definition faithful (net : Network) (r : CallRecord) : Prop :=
  match call r with
  | Search query =>
      exhausted r = true <->
      forall i, i < max_retries ->
        status_of (get_search net (call_clock r + i) query) <> S200
  | DoiLookup doi =>
      exhausted r = true <->
      forall i, i < max_retries ->
        status_of (get_doi net (call_clock r + i) doi) <> S200
        /\ status_of (get_doi net (call_clock r + i) doi) <> S404
  | ArxivApi _ => exhausted r = false
  end.

(** [s'] comes after [s] in a verification: the calls [cs] were made in
    between, and the failure fields were set if and only if one of them
    exhausted its retries. *)
Definition extends (net : Network) (s s' : State) : Prop :=
  exists cs,
    calls s' = (calls s ++ cs)%list
    /\ Forall (faithful net) cs
    /\ _api_failed s' = _api_failed s || existsb exhausted cs
    /\ _failure_reason s'
       = if existsb exhausted cs then Some "rate_limited_or_timeout"
         else _failure_reason s.

(** A computation only adds calls. *)
Definition grows (net : Network) {A} (m : M A) : Prop :=
  forall s, extends net s (snd (m s)).

(** The paper the identifier lookup of a verification finds, if any: the
    first call of the chain, made on the DOI of the citation when [t]
    requests were sent before. *)
Definition doi_lookup_result (net : Network) (reference : Reference) (t : nat)
  : option Paper :=
  match cited_doi reference with
  | Some d =>
      match fst (get_paper_by_doi net d (start false None t)) with
      | Returned paper => paper
      | Raised _ => None
      end
  | None => None
  end.

(** The found title goes with the candidate. *)
Definition titled (l : Locals) : Prop :=
  match paper_data l with
  | Some paper => found_title l = paper_title paper
  | None => found_title l = ""
  end.

(** What a computation returns satisfies [Q]. *)
Definition ensures {A} (m : M A) (Q : A -> Prop) : Prop :=
  forall s a s', m s = (Returned a, s') -> Q a.

(** A computation returns, whatever the state, and what it returns
    satisfies [Q]: it raises nothing. *)
Definition returns {A} (m : M A) (Q : A -> Prop) : Prop :=
  forall s, exists a s', m s = (Returned a, s') /\ Q a.

(** The seconds a call slept between its passes. *)
Definition slept_in (r : CallRecord) : nat :=
  sum_list_with (fun a => default 0 (slept a)) (attempts r).

(** The requests a list of calls sent: one for each pass. *)
Definition requests_of (cs : list CallRecord) : nat :=
  sum_list_with (fun r => length (attempts r)) cs.

(** A computation makes at most [ncalls] calls, which send at most
    [requests] requests and sleep at most [seconds] seconds; the clock of
    the checker counts the requests. *)
Definition within (requests ncalls seconds : nat) {A} (m : M A) : Prop :=
  forall s, exists cs,
    calls (snd (m s)) = (calls s ++ cs)%list
    /\ clock (snd (m s)) = clock s + requests_of cs
    /\ requests_of cs <= requests
    /\ length cs <= ncalls
    /\ sum_list_with slept_in cs <= seconds.

End SemanticScholar.

(** ** The ordered parallel processor ([core/parallel_processor.py]) *)

Module ParallelProcessor.

Record ReferenceWorkItem {SourcePaper : Type} := {
  wi_index : nat;
  wi_source_paper : SourcePaper;
  wi_reference : Reference;
  wi_timestamp : Q
}.

Arguments ReferenceWorkItem SourcePaper : clear implicits.

Record ReferenceResult := {
  index : nat;
  errors : option (list Finding);
  url : option string;
  processing_time : Q;
  reference : Reference;
  verified_data : option Paper
}.

(** [processing_stats]; [fastest_time] is [None] for [float('inf')]. *)
Record Stats := {
  total_processed : nat;
  total_errors : nat;
  avg_processing_time : Q;
  fastest_time : option Q;
  slowest_time : Q
}.

(** What a call of [base_checker.verify_reference] in a worker comes to:
    it returns [(errors, url, verified_data)] after [elapsed] seconds, or
    it raises an exception with text [message] when the clock reads [now]. *)
Inductive Verification :=
| Verified (errors : option (list Finding)) (url : option string)
           (verified_data : option Paper) (elapsed : Q)
| Failed (message : string) (now : Q).

(** A worker thread: blocked on the work queue, verifying an item, or
    gone after its sentinel. *)
Inductive Worker {SourcePaper : Type} :=
| Waiting
| Working (work_item : ReferenceWorkItem SourcePaper)
| Exited.

Arguments Worker SourcePaper : clear implicits.

(** The processor object, its threads ([workers], and [printer]: whether
    the printer thread was started), and what it has shown so far:
    [printed] lists the calls of [_print_reference_result], [delivered] the
    calls of the result callback. *)
Record Processor {SourcePaper : Type} := {
  max_workers : nat;
  work_queue : list (option (ReferenceWorkItem SourcePaper));
  result_queue : list ReferenceResult;
  result_buffer : gmap nat ReferenceResult;
  next_print_index : nat;
  total_references : nat;
  completed_count : nat;
  processing_stats : Stats;
  workers : list (Worker SourcePaper);
  printer : bool;
  printed : list ReferenceResult;
  delivered : list ReferenceResult
}.

Arguments Processor SourcePaper : clear implicits.

(** [__init__]. *)
Definition new {SourcePaper : Type} (max_workers : nat) : Processor SourcePaper :=
  {| max_workers := max_workers;
     work_queue := [];
     result_queue := [];
     result_buffer := ∅;
     next_print_index := 0;
     total_references := 0;
     completed_count := 0;
     processing_stats :=
       {| total_processed := 0; total_errors := 0; avg_processing_time := 0;
          fastest_time := None; slowest_time := 0 |};
     workers := [];
     printer := false;
     printed := [];
     delivered := [] |}.

(** [_update_stats], lines 323-338. *)
Definition _update_stats (stats : Stats) (result : ReferenceResult) : Stats :=
  let total := S (total_processed stats) in
  let proc_time := processing_time result in
  {| total_processed := total;
     total_errors :=
       match errors result with
       | Some ((_ :: _) as es) => total_errors stats + length es
       | _ => total_errors stats
       end;
     avg_processing_time :=
       (avg_processing_time stats * inject_Z (Z.of_nat (total - 1)) + proc_time)
       / inject_Z (Z.of_nat total);
     fastest_time :=
       Some (match fastest_time stats with
             | Some f => Qmin f proc_time
             | None => proc_time
             end);
     slowest_time := Qmax (slowest_time stats) proc_time |}.

(** The statistics [_get_stats] returns, without the two wall-clock
    entries [total_time] and [references_per_second]. *)
Record Statistics := {
  stat_total_references : nat;
  stat_total_errors : nat;
  stat_avg_processing_time : Q;
  stat_fastest_time : Q;
  stat_slowest_time : Q
}.

Section Processor.

Context {SourcePaper : Type}.

(** The base checker, as it answers for each work item. *)
Variable verify_reference : ReferenceWorkItem SourcePaper -> Verification.
(** Whether a result callback was passed. *)
Variable result_callback : bool.
(** The clock reading when the [i]-th item is queued. *)
Variable submitted : nat -> Q.

Definition _get_stats (p : Processor SourcePaper) : Statistics :=
  {| stat_total_references := total_references p;
     stat_total_errors := total_errors (processing_stats p);
     stat_avg_processing_time := avg_processing_time (processing_stats p);
     stat_fastest_time := default 0%Q (fastest_time (processing_stats p));
     stat_slowest_time := slowest_time (processing_stats p) |}.

(** The body of the worker loop for one item, lines 171-210: the result
    put on the result queue. *)
Definition processing_failed (message : string) : Finding :=
  {[ "error_type" := Str "processing_failed";
     "error_details" := Str ("Internal processing error: " ++ message) ]}.

Definition process (work_item : ReferenceWorkItem SourcePaper) : ReferenceResult :=
  match verify_reference work_item with
  | Verified errors url verified_data elapsed =>
      {| index := wi_index work_item;
         errors := errors;
         url := url;
         processing_time := elapsed;
         reference := wi_reference work_item;
         verified_data := verified_data |}
  | Failed message now =>
      {| index := wi_index work_item;
         errors := Some [processing_failed message];
         url := None;
         processing_time := now - wi_timestamp work_item;
         reference := wi_reference work_item;
         verified_data := None |}
  end.

(** The inner loop of the printer, lines 239-255: while the next index is
    in the buffer, print it, call the callback, delete it and advance.
    Every pass deletes a key, so the size of the buffer bounds the
    passes.  [_print_reference_result] only formats fields of the citation,
    all strings here, and is embedded as the append to [printed]; the
    callback is the append to [delivered]. *)
Fixpoint flush (fuel : nat) (p : Processor SourcePaper) : Processor SourcePaper :=
  match fuel with
  | O => p
  | S n =>
      match result_buffer p !! next_print_index p with
      | Some current_result =>
          flush n
            {| max_workers := max_workers p;
               work_queue := work_queue p;
               result_queue := result_queue p;
               result_buffer := delete (next_print_index p) (result_buffer p);
               next_print_index := next_print_index p + 1;
               total_references := total_references p;
               completed_count := completed_count p + 1;
               processing_stats := processing_stats p;
               workers := workers p;
               printer := printer p;
               printed := printed p ++ [current_result];
               delivered :=
                 if result_callback then delivered p ++ [current_result]
                 else delivered p |}
      | None => p
      end
  end.

(** One pass of the outer loop of [_ordered_result_printer], lines 227-255,
    on the result [result] taken from the result queue, the rest of which
    is [rest]. *)
Definition print_pass (result : ReferenceResult) (rest : list ReferenceResult)
    (p : Processor SourcePaper) : Processor SourcePaper :=
  let p :=
    {| max_workers := max_workers p;
       work_queue := work_queue p;
       result_queue := rest;
       result_buffer := <[index result := result]> (result_buffer p);
       next_print_index := next_print_index p;
       total_references := total_references p;
       completed_count := completed_count p;
       processing_stats := _update_stats (processing_stats p) result;
       workers := workers p;
       printer := printer p;
       printed := printed p;
       delivered := delivered p |} in
  flush (size (result_buffer p)) p.

Definition with_worker (w : nat) (state : Worker SourcePaper)
    (queue : list (option (ReferenceWorkItem SourcePaper)))
    (results : list ReferenceResult) (p : Processor SourcePaper)
  : Processor SourcePaper :=
  {| max_workers := max_workers p;
     work_queue := queue;
     result_queue := results;
     result_buffer := result_buffer p;
     next_print_index := next_print_index p;
     total_references := total_references p;
     completed_count := completed_count p;
     processing_stats := processing_stats p;
     workers := <[w := state]> (workers p);
     printer := printer p;
     printed := printed p;
     delivered := delivered p |}.

(** The threads, one atomic action at a time.  [Get w]: worker [w], waiting,
    takes the head of the work queue: an item, which it starts to verify,
    or a sentinel, on which it exits.  [Put w]: worker [w], working,
    finishes and puts its result at the end of the result queue.  [Print]:
    the printer, while [next_print_index < total_references], takes the
    head of the result queue and runs one pass.  Every thread blocks on an
    empty queue: the action is then not possible ([None]). *)
Inductive Action :=
| Get (w : nat)
| Put (w : nat)
| Print.

Definition act (a : Action) (p : Processor SourcePaper)
  : option (Processor SourcePaper) :=
  match a with
  | Get w =>
      match workers p !! w, work_queue p with
      | Some Waiting, Some work_item :: queue =>
          Some (with_worker w (Working work_item) queue (result_queue p) p)
      | Some Waiting, None :: queue =>
          Some (with_worker w Exited queue (result_queue p) p)
      | _, _ => None
      end
  | Put w =>
      match workers p !! w with
      | Some (Working work_item) =>
          Some (with_worker w Waiting (work_queue p)
                  (result_queue p ++ [process work_item]) p)
      | _ => None
      end
  | Print =>
      if printer p && (next_print_index p <? total_references p)%nat
      then match result_queue p with
           | result :: rest => Some (print_pass result rest p)
           | [] => None
           end
      else None
  end.

Definition step (p p' : Processor SourcePaper) : Prop :=
  exists a, act a p = Some p'.

(** The processor after a list of actions, when each is possible. *)
Fixpoint schedule (acts : list Action) (p : Processor SourcePaper)
  : option (Processor SourcePaper) :=
  match acts with
  | [] => Some p
  | a :: acts' =>
      match act a p with
      | Some p' => schedule acts' p'
      | None => None
      end
  end.

(** Lines 109-116: the work items of a bibliography, numbered from [i]. *)
Fixpoint work_items (source_paper : SourcePaper) (i : nat)
    (bibliography : list Reference) : list (ReferenceWorkItem SourcePaper) :=
  match bibliography with
  | [] => []
  | reference :: rest =>
      {| wi_index := i; wi_source_paper := source_paper;
         wi_reference := reference; wi_timestamp := submitted i |}
      :: work_items source_paper (S i) rest
  end.

(** The work item made for the citation at position [i]. *)
Definition item_at (source_paper : SourcePaper) (i : nat)
    (reference : Reference) : ReferenceWorkItem SourcePaper :=
  {| wi_index := i; wi_source_paper := source_paper;
     wi_reference := reference; wi_timestamp := submitted i |}.

(** [verify_references_parallel], lines 96-133, up to the start of the
    threads.  An empty bibliography starts nothing. *)
Definition launch (source_paper : SourcePaper) (bibliography : list Reference)
    (p : Processor SourcePaper) : Processor SourcePaper :=
  match bibliography with
  | [] =>
      {| max_workers := max_workers p;
         work_queue := work_queue p;
         result_queue := result_queue p;
         result_buffer := result_buffer p;
         next_print_index := next_print_index p;
         total_references := total_references p;
         completed_count := completed_count p;
         processing_stats := processing_stats p;
         workers := [];
         printer := false;
         printed := [];
         delivered := [] |}
  | _ =>
      {| max_workers := max_workers p;
         work_queue :=
           work_queue p
           ++ map Some (work_items source_paper 0 bibliography)
           ++ replicate (max_workers p) None;
         result_queue := result_queue p;
         result_buffer := ∅;
         next_print_index := 0;
         total_references := length bibliography;
         completed_count := 0;
         processing_stats := processing_stats p;
         workers := replicate (max_workers p) Waiting;
         printer := true;
         printed := [];
         delivered := [] |}
  end.

(** A run of [verify_references_parallel] from processor [p0]: any
    sequence of actions of the threads; it is over, with the statistics
    returned, when no thread can act. *)
Definition runs (source_paper : SourcePaper) (bibliography : list Reference)
    (p0 p : Processor SourcePaper) : Prop :=
  rtc step (launch source_paper bibliography p0) p.

Definition finished (p : Processor SourcePaper) : Prop := nf step p.

(** The inner loop of the printer has run to its end. *)
Definition settled (p : Processor SourcePaper) : Prop :=
  result_buffer p !! next_print_index p = None.

(** *** What a run keeps true *)

Definition is_alive (w : Worker SourcePaper) : bool :=
  match w with Exited => false | _ => true end.

Definition item_of (w : Worker SourcePaper)
  : option (ReferenceWorkItem SourcePaper) :=
  match w with Working work_item => Some work_item | _ => None end.

(** The workers that have not exited, and the items being verified. *)
Definition alive (ws : list (Worker SourcePaper)) : nat :=
  length (List.filter is_alive ws).

Definition working (ws : list (Worker SourcePaper))
  : list (ReferenceWorkItem SourcePaper) :=
  omap item_of ws.

(** The indices whose result the printer has taken from the result queue:
    those waiting in the buffer and those already flushed. *)
Definition arrived (p : Processor SourcePaper) : list nat :=
  (map_to_list (result_buffer p)).*1 ++ seq 0 (next_print_index p).

(** The number of findings of a result, of every kind. *)
Definition count_findings (r : ReferenceResult) : nat :=
  length (default [] (errors r)).

(** The number of findings of a result that satisfy [kind]. *)
Definition count_kind (kind : Finding -> bool) (r : ReferenceResult) : nat :=
  length (List.filter kind (default [] (errors r))).

(** Every action makes this number smaller. *)
Definition remaining_work (p : Processor SourcePaper) : nat :=
  3 * length (work_queue p) + 2 * length (working (workers p))
  + length (result_queue p).

(** The state of a run over the work items [items], started on a processor
    whose error count was [errors0], once the first [k] items were taken
    from the work queue. *)
Record invariant (items : list (ReferenceWorkItem SourcePaper))
    (W errors0 k : nat) (p : Processor SourcePaper) : Prop := {
  inv_total : total_references p = length items;
  inv_printer : printer p = true;
  inv_taken : k <= length items;
  inv_queue :
    work_queue p
    = (map Some (drop k items) ++ replicate (alive (workers p)) None)%list;
  inv_exits : alive (workers p) < W -> k = length items;
  inv_alive : alive (workers p) <= W;
  inv_places :
    (map wi_index (working (workers p)) ++ map index (result_queue p)
     ++ arrived p)%list ≡ₚ seq 0 k;
  inv_working :
    forall work_item, work_item ∈ working (workers p) ->
      items !! wi_index work_item = Some work_item;
  inv_results :
    forall r, r ∈ result_queue p ->
      exists work_item,
        items !! index r = Some work_item /\ r = process work_item;
  inv_buffer :
    forall j r, result_buffer p !! j = Some r ->
      exists work_item, items !! j = Some work_item /\ r = process work_item;
  inv_printed :
    printed p = map process (take (next_print_index p) items);
  inv_delivered :
    delivered p
    = if result_callback
      then map process (take (next_print_index p) items) else [];
  inv_errors :
    total_errors (processing_stats p)
    = errors0
      + sum_list_with
          (fun i => from_option (count_findings ∘ process) 0 (items !! i))
          (arrived p)
}.

(** What a run keeps true of the statistics and of the threads: the
    statistics are those of the results that have arrived, folded in in
    the order [arrival] in which the printer took them; the two counters
    of the printer agree; no worker thread is added or lost. *)
Record accounted (items : list (ReferenceWorkItem SourcePaper))
    (stats0 : Stats) (W : nat) (p : Processor SourcePaper)
    (arrival : list ReferenceResult) : Prop := {
  acc_stats : processing_stats p = fold_left _update_stats arrival stats0;
  acc_arrived : map index arrival ≡ₚ arrived p;
  acc_results :
    Forall (fun r => exists work_item,
                       items !! index r = Some work_item
                       /\ r = process work_item) arrival;
  acc_completed : completed_count p = next_print_index p;
  acc_workers : length (workers p) = W;
  acc_max_workers : max_workers p = W
}.

End Processor.

(** Lines 299-308 of [_print_reference_result]: the URLs collected for a
    result, in the order of the appends: the URL of the citation, the URL
    of the result and the URL of the verified record, as they are handed
    to [deduplicate_urls]. *)
Definition all_urls (result : ReferenceResult) : list string :=
  let url' := ref_url (reference result) in
  let all_urls := if Text.nonempty url' then [url'] else [] in
  let all_urls :=
    match url result with
    | Some (String _ _ as result_url) =>
        if negb (String.eqb result_url url')
        then (all_urls ++ [result_url])%list else all_urls
    | _ => all_urls
    end in
  match verified_data result with
  | Some verified =>
      match paper_url verified with
      | Some (String _ _ as verified_url) =>
          if negb (bool_decide (Some verified_url = url result))
             && negb (String.eqb verified_url url')
          then (all_urls ++ [verified_url])%list else all_urls
      | _ => all_urls
      end
  | None => all_urls
  end.

(** A processor between two batches: both queues are empty. *)
Definition idle {SourcePaper : Type} (p : Processor SourcePaper) : Prop :=
  work_queue p = [] /\ result_queue p = [].

End ParallelProcessor.

(** ** Sample data *)

Module Examples.

Import ParallelProcessor.

Definition attention : Reference :=
  {| ref_title := "Attention is All You Need";
     ref_authors := ["Ashish Vaswani"; "Noam Shazeer"];
     ref_year := 2017;
     ref_url := "https://arxiv.org/abs/1706.03762";
     ref_raw_text := "Vaswani, A., Shazeer, N. (2017). Attention is all you need.";
     ref_doi := "";
     ref_journal := "";
     ref_venue := "" |}.

Definition resnet : Reference :=
  {| ref_title := "Deep Residual Learning for Image Recognition";
     ref_authors := ["Kaiming He"];
     ref_year := 2016;
     ref_url := "";
     ref_raw_text := "";
     ref_doi := "10.1109/CVPR.2016.90";
     ref_journal := "";
     ref_venue := "CVPR" |}.

Definition untitled : Reference :=
  {| ref_title := "";
     ref_authors := [];
     ref_year := 0;
     ref_url := "";
     ref_raw_text := "Anonymous. Some report.";
     ref_doi := "";
     ref_journal := "";
     ref_venue := "" |}.

(** A batch of three citations on two workers.  The base checker returns
    one year warning for every citation but the second, on which it
    raises. *)
Definition batch : list Reference := [attention; resnet; untitled].

Definition year_warning : Finding :=
  {[ "warning_type" := Str "year";
     "warning_details" := Str "Year mismatch: cited as 2017 but actually 2018";
     "ref_year_correct" := Int 2018 ]}.

Definition checker (work_item : ReferenceWorkItem unit) : Verification :=
  match wi_index work_item with
  | 1 => Failed "connection reset" 7
  | _ => Verified (Some [year_warning]) (Some "https://arxiv.org/abs/1706.03762")
                  None (1 # 2)
  end.

Definition started : Processor unit :=
  launch (fun _ => 0%Q) tt batch (new 2).

(** Worker 1 finishes the second and the third citation before worker 0
    finishes the first: the results arrive in the order 1, 2, 0. *)
Definition out_of_order : list Action :=
  [Get 0; Get 1; Put 1; Get 1; Put 1; Put 0; Print; Print; Print; Get 0; Get 1].

Definition ended : Processor unit :=
  default started (schedule checker true out_of_order started).

(** A record of the local database. *)
Definition vaswani2017 : Paper :=
  {| paper_title := "Attention Is All You Need";
     paper_authors := [ {| author_name := Some "A. Vaswani" |} ];
     paper_year := Some 2017;
     paper_externalIds := ∅;
     paper_url := None;
     paper_openAccessPdf := None;
     paper_venue := None;
     paper_journal := None |}.

Definition same_text (s : string) : string := s.

(** Two records of the local database that the title search finds for
    the title [alpha beta]: the first shares one word of two with it and
    has the cited first author and year, the second contains it. *)
Definition alpha_gamma : Paper :=
  {| paper_title := "Alpha Gamma";
     paper_authors := [ {| author_name := Some "A. Author" |} ];
     paper_year := Some 2020;
     paper_externalIds := ∅;
     paper_url := None;
     paper_openAccessPdf := None;
     paper_venue := None;
     paper_journal := None |}.

Definition alpha_beta_gamma_delta : Paper :=
  {| paper_title := "Alpha Beta Gamma Delta";
     paper_authors := [];
     paper_year := None;
     paper_externalIds := ∅;
     paper_url := None;
     paper_openAccessPdf := None;
     paper_venue := None;
     paper_journal := None |}.

Definition shelf (title : string) (year : nat) : list Paper :=
  [alpha_gamma; alpha_beta_gamma_delta].

(** *** A checker and two networks *)

Import SemanticScholar.

(** Stand-ins for [utils.text_utils], [utils.doi_utils] and the configured
    threshold. *)
Definition first_result (search_results : list Paper) (title : string)
    (year : nat) (authors : list string) : option Paper * Q :=
  match search_results with
  | paper :: _ => (Some paper, 1%Q)
  | [] => (None, 0%Q)
  end.

Definition similarity (a b : string) : Q :=
  if String.eqb (Text.lower a) (Text.lower b) then 1%Q else 0%Q.

Definition authors_agree (cited : list string) (correct : list Author)
  : bool * string :=
  (bool_decide (cited = map name_of correct), "Author count mismatch").

Definition venues_differ (a b : string) : bool := negb (String.eqb a b).

Definition doi_url (doi : string) : string := "https://doi.org/" ++ doi.

Definition threshold : Q := 8 # 10.

Definition run (net : Network) (reference : Reference)
  : Result (option Paper * list Finding * option string) * State :=
  verify_reference net same_text same_text first_result similarity
    authors_agree venues_differ doi_url threshold reference
    (start false None 0).

Definition errors_of
    (out : Result (option Paper * list Finding * option string) * State)
  : list Finding :=
  match fst out with
  | Returned (_, errors, _) => errors
  | Raised _ => []
  end.

Definition url_of
    (out : Result (option Paper * list Finding * option string) * State)
  : option string :=
  match fst out with
  | Returned (_, _, url) => url
  | Raised _ => None
  end.

(** Every request is rate limited. *)
Definition offline : Network :=
  {| get_doi := fun _ _ => RateLimited;
     get_search := fun _ _ => RateLimited;
     get_arxiv := fun _ _ => None |}.

(** Two records, reached by their DOI; the first request for the first is
    rate limited.  Searches find the first record for the text of the
    citation without a title and for the title of the second citation, and
    nothing otherwise. *)
Definition he2016 : Paper :=
  {| paper_title := "Identity Mappings in Deep Residual Networks";
     paper_authors := [ {| author_name := Some "Kaiming He" |};
                        {| author_name := Some "Xiangyu Zhang" |} ];
     paper_year := Some 2016;
     paper_externalIds := {[ "DOI" := "10.1109/CVPR.2016.90" ]};
     paper_url := Some "https://www.semanticscholar.org/paper/77f0a39b";
     paper_openAccessPdf := None;
     paper_venue := Some (VStr "CVPR");
     paper_journal := None |}.

Definition vaswani2018 : Paper :=
  {| paper_title := "Attention is All you Need";
     paper_authors := [ {| author_name := Some "Ashish Vaswani" |};
                        {| author_name := Some "Noam Shazeer" |} ];
     paper_year := Some 2018;
     paper_externalIds := {[ "DOI" := "10.5555/3295222.3295349" ]};
     paper_url := None;
     paper_openAccessPdf := None;
     paper_venue := None;
     paper_journal := None |}.

Definition library : Network :=
  {| get_doi := fun t doi =>
       if String.eqb doi "10.1109/CVPR.2016.90"
       then if (t =? 0)%nat then RateLimited else Ok he2016
       else if String.eqb doi "10.5555/3295222.3295349"
            then Ok vaswani2018 else NotFound;
     get_search := fun _ query =>
       if String.eqb query "anonymous. some report."
          || String.eqb query "Deep Residual Learning for Image Recognition"
       then Ok [he2016] else Ok [];
     get_arxiv := fun _ _ => None |}.

(** The first citation, with the DOI of the proceedings. *)
Definition attention_doi : Reference :=
  {| ref_title := "Attention is All You Need";
     ref_authors := ["Ashish Vaswani"; "Noam Shazeer"];
     ref_year := 2017;
     ref_url := "";
     ref_raw_text := "";
     ref_doi := "10.5555/3295222.3295349";
     ref_journal := "";
     ref_venue := "" |}.

(** The second citation without its DOI: it is found by its title. *)
Definition resnet_by_title : Reference :=
  {| ref_title := "Deep Residual Learning for Image Recognition";
     ref_authors := ["Kaiming He"];
     ref_year := 2016;
     ref_url := "";
     ref_raw_text := "";
     ref_doi := "";
     ref_journal := "";
     ref_venue := "CVPR" |}.

(** Every lookup by DOI is rate limited; the search finds a record for
    the text of the citation without a title. *)
Definition outage : Network :=
  {| get_doi := fun _ _ => RateLimited;
     get_search := fun _ query =>
       if String.eqb query "anonymous. some report."
       then Ok [he2016] else Ok [];
     get_arxiv := fun _ _ => None |}.

(** The citation without a title, with a DOI. *)
Definition untitled_doi : Reference :=
  {| ref_title := "";
     ref_authors := [];
     ref_year := 0;
     ref_url := "";
     ref_raw_text := "Anonymous. Some report.";
     ref_doi := "10.1109/CVPR.2016.90";
     ref_journal := "";
     ref_venue := "" |}.

(** No record is known to Semantic Scholar; the arXiv endpoint has the
    preprint of the first citation. *)
Definition attention_entry : ArxivEntry :=
  {| entry_title := "Attention Is All You Need";
     entry_authors := ["Ashish Vaswani"; "Noam Shazeer"];
     entry_year := Some 2017 |}.

Definition preprint_server : Network :=
  {| get_doi := fun _ _ => NotFound;
     get_search := fun _ _ => Ok [];
     get_arxiv := fun _ arxiv_id =>
       if String.eqb arxiv_id "1706.03762" then Some attention_entry else None |}.

Definition attention_preprint : Paper :=
  arxiv_paper_data "1706.03762" attention_entry.

End Examples.

(** * Properties *)

(** ** Python string primitives *)

Section TextFacts.


Lemma append_cons (c : ascii) (a s : string) :
  String c a ++ s = String c (a ++ s).
Proof. reflexivity. Qed.

Lemma append_nil_r (s : string) : s ++ "" = s.
Proof. induction s as [|c s IH]; [done|]. by rewrite append_cons, IH. Qed.

Lemma prefix_cons (a b : ascii) (s1 s2 : string) :
  String.prefix (String a s1) (String b s2)
  = Ascii.eqb a b && String.prefix s1 s2.
Proof.
  simpl. destruct (ascii_dec a b) as [->|Hne].
  - by rewrite Ascii.eqb_refl.
  - by apply Ascii.eqb_neq in Hne as ->.
Qed.

Lemma prefix_app (a s : string) : String.prefix a (a ++ s) = true.
Proof.
  induction a as [|c a IH]; [by destruct s|].
  change (String c a ++ s) with (String c (a ++ s)).
  by rewrite prefix_cons, Ascii.eqb_refl.
Qed.

Lemma contains_cons (needle : string) (c : ascii) (hay : string) :
  Text.contains needle (String c hay)
  = String.prefix needle (String c hay) || Text.contains needle hay.
Proof. reflexivity. Qed.

(** [c in s] for one character. *)
Lemma contains_char_cons (c x : ascii) (s : string) :
  Text.contains (String c "") (String x s)
  = Ascii.eqb c x || Text.contains (String c "") s.
Proof.
  rewrite contains_cons, prefix_cons. f_equal.
  destruct s; by rewrite andb_true_r.
Qed.

Lemma contains_char_app (c : ascii) (a s : string) :
  Text.contains (String c "") (a ++ s)
  = Text.contains (String c "") a || Text.contains (String c "") s.
Proof.
  induction a as [|x a IH]; [by destruct s|].
  change (String x a ++ s) with (String x (a ++ s)).
  by rewrite !contains_char_cons, IH, orb_assoc.
Qed.

(** An occurrence of [needle] in a part of [s] is one in [s]. *)
Lemma contains_app_r (needle a s : string) :
  Text.contains needle s = true -> Text.contains needle (a ++ s) = true.
Proof.
  intros H. induction a as [|x a IH]; [done|].
  change (String x a ++ s) with (String x (a ++ s)).
  rewrite contains_cons, IH. apply orb_true_r.
Qed.

Lemma contains_prefix (needle s : string) :
  String.prefix needle s = true -> Text.contains needle s = true.
Proof. intros H. destruct s; simpl in *; by rewrite H. Qed.

(** *** [replace] *)

(** The characters of a replaced occurrence are passed over. *)
Lemma replace_go_skip (old new a s : string) :
  Text.replace_go old new (String.length a) (a ++ s)
  = Text.replace_go old new 0 s.
Proof. induction a as [|x a IH]; [done|]. exact IH. Qed.

(** An occurrence at the start is replaced, and the rest goes on. *)
Lemma replace_prefix (c : ascii) (old new s : string) :
  Text.replace (String c old) new (String c old ++ s)
  = new ++ Text.replace (String c old) new s.
Proof.
  unfold Text.replace.
  change (String c old ++ s) with (String c (old ++ s)).
  cbn [Text.replace_go].
  change (String c (old ++ s)) with (String c old ++ s).
  rewrite prefix_app. f_equal.
  change (String.length (String c old) - 1) with (String.length old - 0).
  rewrite Nat.sub_0_r. apply replace_go_skip.
Qed.

(** A stretch without the first character of [old] is left alone. *)
Lemma replace_pass (c : ascii) (old new a s : string) :
  Text.contains (String c "") a = false ->
  Text.replace (String c old) new (a ++ s)
  = a ++ Text.replace (String c old) new s.
Proof.
  unfold Text.replace. induction a as [|x a IH]; [done|].
  rewrite contains_char_cons. intros [Hx Ha]%orb_false_elim.
  change (String x a ++ s) with (String x (a ++ s)).
  cbn [Text.replace_go]. rewrite prefix_cons, Hx. cbn [andb].
  by rewrite IH.
Qed.

Lemma replace_absent (c : ascii) (old new a : string) :
  Text.contains (String c "") a = false ->
  Text.replace (String c old) new a = a.
Proof.
  intros Ha.
  rewrite <- (append_nil_r a) at 1. rewrite replace_pass by done.
  apply append_nil_r.
Qed.

(** *** [strip] *)

Lemma lstrip_space (c : ascii) (s : string) :
  Text.isspace c = true -> Text.lstrip (String c s) = Text.lstrip s.
Proof. intros H. simpl. by rewrite H. Qed.

Lemma strip_space (c : ascii) (s : string) :
  Text.isspace c = true -> Text.strip (String c s) = Text.strip s.
Proof. intros H. unfold Text.strip. by rewrite lstrip_space. Qed.

(** *** Runs of characters *)

Lemma contains_char_any (c : ascii) (s : string) :
  Text.contains (String c "") s = Text.any (fun x => Ascii.eqb x c) s.
Proof.
  induction s as [|x s IH]; [done|].
  by rewrite contains_char_cons, IH, (Ascii.eqb_sym c x).
Qed.

Lemma take_until_all (stop : ascii -> bool) (s : string) :
  Text.any stop s = false -> Text.take_until stop s = s.
Proof.
  induction s as [|x s IH]; [done|]. simpl.
  intros [-> Hs]%orb_false_elim. by rewrite IH.
Qed.

Lemma take_until_app (stop : ascii -> bool) (a : string) (x : ascii) (s : string) :
  Text.any stop a = false -> stop x = true ->
  Text.take_until stop (a ++ String x s) = a.
Proof.
  intros Ha Hx. induction a as [|y a IH]; [simpl; by rewrite Hx|].
  rewrite append_cons. simpl in *.
  apply orb_false_elim in Ha as [-> Ha]. by rewrite IH.
Qed.

(** No character of the run stops it. *)
Lemma take_until_stops (stop : ascii -> bool) (s : string) :
  Text.any stop (Text.take_until stop s) = false.
Proof.
  induction s as [|x s IH]; [done|]. simpl.
  destruct (stop x) eqn:Hx; [done|]. simpl. by rewrite Hx, IH.
Qed.

Lemma take_until_prefix (stop : ascii -> bool) (s : string) :
  exists rest, s = Text.take_until stop s ++ rest.
Proof.
  induction s as [|x s [rest IH]]; [by exists ""|]. simpl.
  destruct (stop x); [by eexists|]. exists rest.
  by rewrite append_cons, <- IH.
Qed.

Lemma drop_prefix_app (p s : string) : Text.drop_prefix p (p ++ s) = Some s.
Proof.
  induction p as [|c p IH]; [done|].
  rewrite append_cons. simpl. by rewrite Ascii.eqb_refl.
Qed.

Lemma drop_prefix_Some (p s rest : string) :
  Text.drop_prefix p s = Some rest -> s = p ++ rest.
Proof.
  revert s. induction p as [|c p IH]; intros s; simpl.
  - by intros [= ->].
  - destruct s as [|x s]; [done|].
    destruct (Ascii.eqb c x) eqn:E; [|done].
    apply Ascii.eqb_eq in E as ->. intros H.
    by rewrite append_cons, <- (IH s H).
Qed.

Lemma app_assoc_string (a b c : string) : (a ++ b) ++ c = a ++ b ++ c.
Proof. induction a as [|x a IH]; [done|]. by rewrite !append_cons, IH. Qed.

(** What [re.search] finds is there: the group is not empty, none of its
    characters stops it, and it follows the literal somewhere in the text. *)
Lemma search_group_sound (lit : string) (stop : ascii -> bool) (s g : string) :
  Text.search_group lit stop s = Some g ->
  g <> "" /\ Text.any stop g = false /\ Text.contains (lit ++ g) s = true.
Proof.
  assert (Hat : forall s, Text.group_at lit stop s = Some g ->
    g <> "" /\ Text.any stop g = false /\ String.prefix (lit ++ g) s = true).
  { clear s. intros s. unfold Text.group_at.
    destruct (Text.drop_prefix lit s) as [rest|] eqn:Hrest; [|done].
    apply drop_prefix_Some in Hrest as ->.
    destruct (Text.take_until stop rest) as [|x g'] eqn:Hg; [done|].
    intros [= <-]. split; [done|]. split.
    - rewrite <- Hg. apply take_until_stops.
    - destruct (take_until_prefix stop rest) as [tail Htail].
      rewrite Hg in Htail. rewrite Htail.
      rewrite <- app_assoc_string. apply prefix_app. }
  induction s as [|x s IH]; cbn [Text.search_group].
  - destruct (Text.group_at lit stop "") as [g0|] eqn:Hg; [|done].
    intros [= ->]. destruct (Hat _ Hg) as (Hne & Hstop & Hp).
    split; [done|]. split; [done|]. by apply contains_prefix.
  - destruct (Text.group_at lit stop (String x s)) as [g0|] eqn:Hg.
    + intros [= ->]. destruct (Hat _ Hg) as (Hne & Hstop & Hp).
      split; [done|]. split; [done|]. by apply contains_prefix.
    + intros H. destruct (IH H) as (Hne & Hstop & Hc).
      split; [done|]. split; [done|].
      rewrite contains_cons, Hc. apply orb_true_r.
Qed.

(** *** [split] with a limit *)

Lemma split_once_parts (sep : ascii) (s : string) :
  let before := Text.take_until (fun c => Ascii.eqb c sep) s in
  if Text.contains (String sep "") s
  then exists after, Text.split_once sep s = [before; after]
                     /\ s = before ++ String sep after
  else Text.split_once sep s = [s] /\ before = s.
Proof.
  induction s as [|x s IH]; [done|].
  cbv zeta in *. rewrite contains_char_cons. simpl.
  rewrite (Ascii.eqb_sym sep x).
  destruct (Ascii.eqb x sep) eqn:E.
  - apply Ascii.eqb_eq in E as ->. by exists s.
  - cbn [orb]. destruct (Text.contains (String sep "") s).
    + destruct IH as (after & -> & Hs). exists after. split; [done|].
      by rewrite append_cons, <- Hs.
    + destruct IH as [-> ->]. done.
Qed.

Lemma rev_app_append (s acc : string) :
  String.rev_app s acc = String.rev_app s "" ++ acc.
Proof.
  revert acc. induction s as [|c s IH]; intros acc; [done|].
  simpl. rewrite (IH (String c acc)), (IH (String c "")).
  by rewrite app_assoc_string.
Qed.

(** The first part of [s.split(sep)] is the text before the first [sep]. *)
Lemma split_on_first (sep : ascii) (cur s : string) :
  exists parts,
    Text.split_on_go sep cur s
    = (String.rev cur ++ Text.take_until (fun c => Ascii.eqb c sep) s) :: parts.
Proof.
  revert cur. induction s as [|c s IH]; intros cur; simpl.
  - exists []. by rewrite append_nil_r.
  - destruct (Ascii.eqb c sep).
    + eexists. by rewrite append_nil_r.
    + destruct (IH (String c cur)) as [parts ->]. exists parts. f_equal.
      unfold String.rev. simpl.
      by rewrite (rev_app_append cur (String c "")), app_assoc_string.
Qed.

End TextFacts.
(** ** Scoring of candidates in the local checker *)

(** *** The order of binary64 floats *)

Section FloatOrder.

Ltac sf_cases :=
  repeat match goal with
    | s : bool |- _ => destruct s
    end;
  simpl; try congruence;
  repeat match goal with
    | |- context [(?a ?= ?b)%Z] => destruct (Z.compare_spec a b)
    | |- context [PosDef.Pos.compare_cont Eq ?a ?b] =>
        change (PosDef.Pos.compare_cont Eq a b) with (Pos.compare a b);
        destruct (Pos.compare_spec a b)
    end;
  simpl; try congruence; try lia.

Lemma SFltb_trans (f1 f2 f3 : spec_float) :
  SFltb f1 f2 = true -> SFltb f2 f3 = true -> SFltb f1 f3 = true.
Proof.
  unfold SFltb.
  destruct f1 as [s1|s1| |s1 m1 e1], f2 as [s2|s2| |s2 m2 e2],
    f3 as [s3|s3| |s3 m3 e3]; sf_cases.
Qed.

Lemma SFleb_above (t s b : spec_float) :
  SFleb t s = true -> SFltb b s = false -> b <> S754_nan ->
  SFleb t b = true.
Proof.
  unfold SFleb, SFltb.
  destruct t as [s1|s1| |s1 m1 e1], s as [s2|s2| |s2 m2 e2],
    b as [s3|s3| |s3 m3 e3]; sf_cases.
Qed.

Lemma SFleb_below (t s b : spec_float) :
  SFleb t s = false -> SFltb s b = false -> t <> S754_nan ->
  s <> S754_nan -> SFleb t b = false.
Proof.
  unfold SFleb, SFltb.
  destruct t as [s1|s1| |s1 m1 e1], s as [s2|s2| |s2 m2 e2],
    b as [s3|s3| |s3 m3 e3]; sf_cases.
Qed.

Local Abbreviation number := LocalSemanticScholar.number.

(** [a < b < c] gives [a < c]. *)
Lemma ltb_trans (a b c : float) :
  (a <? b)%float = true -> (b <? c)%float = true -> (a <? c)%float = true.
Proof. rewrite !FloatAxioms.ltb_spec. apply SFltb_trans. Qed.

(** What is above another float is a number. *)
Lemma ltb_number (a b : float) : (a <? b)%float = true -> number b.
Proof.
  rewrite FloatAxioms.ltb_spec. unfold LocalSemanticScholar.number, SFltb.
  intros H Hb.
  rewrite Hb in H. by destruct (Prim2SF a).
Qed.

Lemma leb_number (a b : float) : (a <=? b)%float = true -> number b.
Proof.
  rewrite FloatAxioms.leb_spec. unfold LocalSemanticScholar.number, SFleb.
  intros H Hb.
  rewrite Hb in H. by destruct (Prim2SF a).
Qed.

(** [t <= s] and not [b < s], for a number [b], give [t <= b]. *)
Lemma leb_above (t s b : float) :
  (t <=? s)%float = true -> (b <? s)%float = false -> number b ->
  (t <=? b)%float = true.
Proof. rewrite !FloatAxioms.leb_spec, FloatAxioms.ltb_spec. apply SFleb_above. Qed.

Lemma SFltb_irrefl (f : spec_float) : SFltb f f = false.
Proof.
  unfold SFltb. destruct f as [s|s| |s m e]; sf_cases.
Qed.

Lemma ltb_irrefl (a : float) : (a <? a)%float = false.
Proof. rewrite FloatAxioms.ltb_spec. apply SFltb_irrefl. Qed.

(** [a < b] excludes [b < a]. *)
Lemma ltb_asym (a b : float) :
  (a <? b)%float = true -> (b <? a)%float = false.
Proof.
  intros Hab. destruct (b <? a)%float eqn:Hba; [|done].
  pose proof (ltb_trans _ _ _ Hab Hba) as H. by rewrite ltb_irrefl in H.
Qed.

Lemma number_zero : number 0%float.
Proof. unfold LocalSemanticScholar.number. by vm_compute. Qed.

End FloatOrder.

(** *** The scores and the choice *)

Section ScoringFacts.

Variable normalize_author_name : string -> string.
Variable is_name_match : string -> string -> bool.
Variable search_papers_by_title : string -> nat -> list Paper.

Local Abbreviation number := LocalSemanticScholar.number.
Local Abbreviation of_count := LocalSemanticScholar.of_count.
Local Abbreviation candidate_score :=
  (LocalSemanticScholar.candidate_score normalize_author_name is_name_match).
Local Abbreviation first_author_matches :=
  (LocalSemanticScholar.first_author_matches normalize_author_name is_name_match).
Local Abbreviation best_step :=
  (LocalSemanticScholar.best_step normalize_author_name is_name_match).
Local Abbreviation best_of :=
  (LocalSemanticScholar.best_of normalize_author_name is_name_match).
Local Abbreviation find_best_match :=
  (LocalSemanticScholar.find_best_match normalize_author_name is_name_match
     search_papers_by_title).

(** What the loop of [find_best_match] has computed after any number of
    candidates: the best score is a number, it has not gone down, no
    candidate scores above it, and it is the score it started from or the
    score of a candidate that scores above that. *)
Lemma best_of_fold (title : string) (authors : list string) (year : nat)
    (results : list Paper) (b0 : option Paper) (s0 : float) :
  let score := candidate_score title authors year in
  let out := fold_left (best_step title authors year) results (b0, s0) in
  number s0 ->
  number (snd out)
  /\ ((s0 <? snd out)%float = true \/ snd out = s0)
  /\ (forall r, r ∈ results -> (snd out <? score r)%float = false)
  /\ (out = (b0, s0)
      \/ exists i r, results !! i = Some r /\ out = (Some r, score r)
                     /\ (s0 <? score r)%float = true).
Proof.
  intros score. revert b0 s0.
  induction results as [|x xs IH]; intros b0 s0 out Hs0.
  { subst out. simpl. split; [done|]. split; [by right|].
    split; [|by left]. intros r Hr. by apply elem_of_nil in Hr. }
  subst out. cbn [fold_left].
  assert (Hstep : best_step title authors year (b0, s0) x =
                  if (s0 <? score x)%float then (Some x, score x) else (b0, s0))
    by reflexivity.
  rewrite Hstep. clear Hstep.
  destruct (s0 <? score x)%float eqn:E.
  - destruct (IH (Some x) (score x) (ltb_number _ _ E))
      as (Hnum & Hup & Hall & Hout).
    cbv zeta in *. split; [exact Hnum|].
    assert (Habove : (s0 <? snd (fold_left (best_step title authors year) xs
                                   (Some x, score x)))%float = true).
    { destruct Hup as [Hup| ->]; [exact (ltb_trans _ _ _ E Hup)|exact E]. }
    split; [by left|]. split.
    + intros r [->|Hr]%elem_of_cons; [|by apply Hall].
      destruct Hup as [Hup| ->]; [by apply ltb_asym|apply ltb_irrefl].
    + right. destruct Hout as [Hout|(i & r & Hi & Hout & Hlt)].
      * exists 0%nat, x. by rewrite Hout.
      * exists (S i), r. split; [done|]. split; [done|].
        exact (ltb_trans _ _ _ E Hlt).
  - destruct (IH b0 s0 Hs0) as (Hnum & Hup & Hall & Hout).
    cbv zeta in *. split; [exact Hnum|]. split; [exact Hup|]. split.
    + intros r [->|Hr]%elem_of_cons; [|by apply Hall].
      destruct Hup as [Hup| ->]; [|exact E].
      match goal with |- ?above = false => destruct above eqn:Hx end; [|done].
      pose proof (ltb_trans _ _ _ Hup Hx). congruence.
    + destruct Hout as [Hout|(i & r & Hi & Hout & Hlt)]; [by left|].
      right. by exists (S i), r.
Qed.

Lemma first_author_matches_iff (authors : list string) (result : Paper) :
  first_author_matches authors result = true <->
  exists a rest ra rrest,
    authors = a :: rest /\ paper_authors result = ra :: rrest
    /\ is_name_match (normalize_author_name a)
         (normalize_author_name (default "" (author_name ra))) = true.
Proof.
  unfold LocalSemanticScholar.first_author_matches, name_of.
  destruct authors as [|a rest].
  { split; [done|]. by intros (? & ? & ? & ? & ? & _). }
  destruct (paper_authors result) as [|ra rrest].
  { split; [done|]. by intros (? & ? & ? & ? & _ & ? & _). }
  split.
  - intros H. by exists a, rest, ra, rrest.
  - intros (a' & rest' & ra' & rrest' & Ha & Hra & H).
    injection Ha as <- _. injection Hra as <- _. exact H.
Qed.

Lemma year_matches_iff (year : nat) (result : Paper) :
  LocalSemanticScholar.year_matches year result = true <->
  year <> 0 /\ paper_year result = Some year.
Proof.
  unfold LocalSemanticScholar.year_matches.
  rewrite andb_true_iff, negb_true_iff, Nat.eqb_neq, bool_decide_eq_true.
  done.
Qed.

(** What [find_best_match] returns, from the loop. *)
Lemma find_best_match_cases (title : string) (authors : list string)
    (year : nat) :
  let score := candidate_score title authors year in
  let results := search_papers_by_title title year in
  (find_best_match title authors year = None
   /\ forall r, r ∈ results -> (0.7 <=? score r)%float = false)
  \/ exists r,
       find_best_match title authors year = Some r
       /\ r ∈ results
       /\ (forall r', r' ∈ results -> (score r <? score r')%float = false)
       /\ (0.7 <=? score r)%float = true.
Proof.
  intros score results.
  unfold LocalSemanticScholar.find_best_match. fold results.
  unfold LocalSemanticScholar.best_of.
  destruct (best_of_fold title authors year results None 0%float number_zero)
    as (Hnum & _ & Hall & Hout).
  cbv zeta in *. fold score in Hall, Hout.
  assert (Hlow : forall best : float,
    (forall r, r ∈ results -> (best <? score r)%float = false) ->
    number best -> (0.7 <=? best)%float = false ->
    forall r, r ∈ results -> (0.7 <=? score r)%float = false).
  { intros best Hbest Hbnum Hb r Hr.
    destruct (0.7 <=? score r)%float eqn:E; [|done].
    pose proof (leb_above _ _ _ E (Hbest r Hr) Hbnum). congruence. }
  destruct results as [|x xs] eqn:Eres.
  { left. split; [done|]. intros r Hr. by apply elem_of_nil in Hr. }
  rewrite <- Eres in *. clear Eres x xs.
  destruct Hout as [Hout|(i & r & Hi & Hout & _)]; rewrite Hout in *;
    cbn [fst snd] in *.
  - left. split; [by destruct (0.7 <=? 0)%float|].
    by apply (Hlow 0%float).
  - destruct (0.7 <=? score r)%float eqn:E.
    + right. exists r. split; [done|].
      split; [by eapply list_elem_of_lookup_2|]. by split.
    + left. split; [done|]. by apply (Hlow (score r)).
Qed.

(** C4.  Every candidate of the title search scores its base score plus,
    in binary64 arithmetic, 0.2 when the normalized first authors match
    and then 0.1 when the cited year is given and is the candidate's.  The
    base score is 0.8 when one case-folded title contains the other, and
    otherwise the quotient [|common| / max(|cited|, |candidate|)] of the
    sizes of the word sets of the two case-folded titles (the code gives
    0 when one of the sets is empty).  A candidate with containment,
    first-author match and year match scores exactly 1.1.  The candidate
    returned is one that no candidate outscores, and a candidate is
    returned if and only if some candidate's score reaches the threshold
    0.7. *)
Theorem find_best_match_scoring (title : string) (authors : list string)
    (year : nat) :
  let score := candidate_score title authors year in
  let results := search_papers_by_title title year in
  let cited := Text.lower title in
  let found (r : Paper) := Text.lower (paper_title r) in
  let contained r :=
    Text.contains cited (found r) || Text.contains (found r) cited in
  let words (s : string) : gset string := list_to_set (Text.split s) in
  let base r :=
    if contained r then 0.8%float
    else if bool_decide (words cited = ∅) || bool_decide (words (found r) = ∅)
         then 0%float
         else (of_count (size (words cited ∩ words (found r)))
               / of_count (Nat.max (size (words cited))
                                   (size (words (found r)))))%float in
  let same_first_author r :=
    exists a rest ra rrest,
      authors = a :: rest /\ paper_authors r = ra :: rrest
      /\ is_name_match (normalize_author_name a)
           (normalize_author_name (default "" (author_name ra))) = true in
  let same_year r := year <> 0 /\ paper_year r = Some year in
  (forall r,
     exists author_bonus year_bonus : bool,
       (author_bonus = true <-> same_first_author r)
       /\ (year_bonus = true <-> same_year r)
       /\ score r
          = (let s := base r in
             let s := if author_bonus then s + 0.2 else s in
             if year_bonus then s + 0.1 else s)%float) /\
  (forall r,
     contained r = true -> same_first_author r -> same_year r ->
     score r = 1.1%float) /\
  (forall r,
     find_best_match title authors year = Some r ->
     r ∈ results
     /\ (forall r', r' ∈ results -> (score r <? score r')%float = false)
     /\ (0.7 <=? score r)%float = true) /\
  ((exists r, find_best_match title authors year = Some r) <->
   (exists r, r ∈ results /\ (0.7 <=? score r)%float = true)) /\
  (find_best_match title authors year = None <->
   forall r, r ∈ results -> (0.7 <=? score r)%float = false).
Proof.
  intros score results cited found contained words base same_first_author
    same_year.
  assert (Hparts : forall r,
    score r
    = (let s := base r in
       let s := if first_author_matches authors r then s + 0.2 else s in
       if LocalSemanticScholar.year_matches year r then s + 0.1 else s)%float)
    by reflexivity.
  pose proof (find_best_match_cases title authors year) as Hcases.
  cbv zeta in Hcases. fold score results in Hcases.
  split; [|split; [|split; [|split]]].
  - intros r. exists (first_author_matches authors r),
      (LocalSemanticScholar.year_matches year r).
    split; [apply first_author_matches_iff|].
    split; [apply year_matches_iff|]. apply Hparts.
  - intros r Hc Ha%first_author_matches_iff Hy%year_matches_iff.
    rewrite (Hparts r). subst base. cbv beta zeta. by rewrite Hc, Ha, Hy.
  - intros r Hr.
    destruct Hcases as [[Hnone _]|(r0 & Hsome & Hin & Hmax & Hthr)];
      [congruence|].
    rewrite Hsome in Hr. injection Hr as <-. done.
  - split.
    + intros [r Hr].
      destruct Hcases as [[Hnone _]|(r0 & Hsome & Hin & Hmax & Hthr)];
        [congruence|].
      by exists r0.
    + intros (r & Hr & Hthr).
      destruct Hcases as [[_ Hlow]|(r0 & Hsome & _)]; [|by exists r0].
      specialize (Hlow r Hr). congruence.
  - split.
    + intros Hnone.
      destruct Hcases as [[_ Hlow]|(r0 & Hsome & _)]; [done|congruence].
    + intros Hlow.
      destruct Hcases as [[Hnone _]|(r0 & Hsome & Hin & _ & Hthr)]; [done|].
      specialize (Hlow r0 Hin). congruence.
Qed.
End ScoringFacts.

(** The title [alpha beta], cited with its first author and year.  The
    first record scores [0.5 + 0.2 + 0.1], which in binary64 is below 0.8;
    the second record scores 0.8 and is the one returned: no record
    outscores it, and its score reaches the threshold. *)
Lemma find_best_match_scoring_sample :
  Examples.alpha_beta_gamma_delta ∈ Examples.shelf "alpha beta" 2020
  /\ (forall r', r' ∈ Examples.shelf "alpha beta" 2020 ->
        (LocalSemanticScholar.candidate_score Examples.same_text String.eqb
           "alpha beta" ["A. Author"] 2020 Examples.alpha_beta_gamma_delta
         <? LocalSemanticScholar.candidate_score Examples.same_text String.eqb
              "alpha beta" ["A. Author"] 2020 r')%float = false)
  /\ (0.7 <=? LocalSemanticScholar.candidate_score Examples.same_text String.eqb
                "alpha beta" ["A. Author"] 2020 Examples.alpha_beta_gamma_delta)%float
     = true.
Proof.
  refine (proj1 (proj2 (proj2
    (find_best_match_scoring Examples.same_text String.eqb Examples.shelf
       "alpha beta" ["A. Author"] 2020)))
    Examples.alpha_beta_gamma_delta _).
  vm_compute. reflexivity.
Defined.

(** The scores of the two records, and the score 1.1 of a record with
    containment, first author and year. *)
Example binary64_scores :
  LocalSemanticScholar.candidate_score Examples.same_text String.eqb
    "alpha beta" ["A. Author"] 2020 Examples.alpha_gamma
  = (0.5 + 0.2 + 0.1)%float
  /\ ((0.5 + 0.2 + 0.1 <? 0.8)%float = true)
  /\ LocalSemanticScholar.candidate_score Examples.same_text String.eqb
       "alpha beta" ["A. Author"] 2020 Examples.alpha_beta_gamma_delta
     = 0.8%float
  /\ LocalSemanticScholar.find_best_match Examples.same_text String.eqb
       Examples.shelf "alpha beta" ["A. Author"] 2020
     = Some Examples.alpha_beta_gamma_delta
  /\ LocalSemanticScholar.candidate_score Examples.same_text String.eqb
       "attention is all" ["A. Vaswani"] 2017 Examples.vaswani2017
     = 1.1%float.
Proof. repeat split; vm_compute; reflexivity. Qed.

(** ** The Semantic Scholar checker *)

Section CheckerFacts.

Import SemanticScholar.
Local Open Scope list_scope.

Variable net : Network.
Variable normalize_text : string -> string.
Variable clean_title_for_search : string -> string.
Variable find_best_match :
  list Paper -> string -> nat -> list string -> option Paper * Q.
Variable calculate_title_similarity : string -> string -> Q.
Variable compare_authors : list string -> list Author -> bool * string.
Variable are_venues_substantially_different : string -> string -> bool.
Variable construct_doi_url : string -> string.
Variable SIMILARITY_THRESHOLD : Q.

Local Abbreviation search_paper := (SemanticScholar.search_paper net).
Local Abbreviation get_paper_by_doi := (SemanticScholar.get_paper_by_doi net).
Local Abbreviation _get_paper_from_arxiv_api :=
  (SemanticScholar._get_paper_from_arxiv_api net).
Local Abbreviation choose :=
  (SemanticScholar.choose find_best_match SIMILARITY_THRESHOLD).
Local Abbreviation doi_strategy := (SemanticScholar.doi_strategy net).
Local Abbreviation title_strategy :=
  (SemanticScholar.title_strategy net clean_title_for_search find_best_match
     SIMILARITY_THRESHOLD).
Local Abbreviation arxiv_strategy := (SemanticScholar.arxiv_strategy net).
Local Abbreviation raw_text_strategy :=
  (SemanticScholar.raw_text_strategy net normalize_text find_best_match
     SIMILARITY_THRESHOLD).
Local Abbreviation resolve :=
  (SemanticScholar.resolve net normalize_text clean_title_for_search
     find_best_match SIMILARITY_THRESHOLD).
Local Abbreviation title_findings :=
  (SemanticScholar.title_findings calculate_title_similarity SIMILARITY_THRESHOLD).
Local Abbreviation author_findings :=
  (SemanticScholar.author_findings compare_authors).
Local Abbreviation venue_findings :=
  (SemanticScholar.venue_findings are_venues_substantially_different).
Local Abbreviation findings :=
  (SemanticScholar.findings calculate_title_similarity compare_authors
     are_venues_substantially_different SIMILARITY_THRESHOLD).
Local Abbreviation select_url := (SemanticScholar.select_url construct_doi_url).
Local Abbreviation verify_reference :=
  (SemanticScholar.verify_reference net normalize_text clean_title_for_search
     find_best_match calculate_title_similarity compare_authors
     are_venues_substantially_different construct_doi_url SIMILARITY_THRESHOLD).

(** *** The retry loops *)

(** A pass that fails is followed by the rest of the loop. *)
Ltac retry_case IH attempt t Hget loop :=
  let res := fresh "res" in
  let atts := fresh "atts" in
  let a := fresh "a" in
  let i := fresh "i" in
  let Hall := fresh "Hall" in
  let Hlen := fresh "Hlen" in
  let Hok := fresh "Hok" in
  let Hno := fresh "Hno" in
  let Hi := fresh "Hi" in
  specialize (IH (S attempt) (S t));
  destruct loop as [[res|] atts];
  simpl;
  [ destruct IH as (Hall & Hlen & Hok); split; [done|]; split; [lia|];
    destruct atts as [|a atts]; [done|]; simpl in *;
    rewrite Nat.sub_0_r in Hok;
    by replace (t + S (length atts)) with (S (t + length atts)) by lia
  | destruct IH as (Hlen & Hall & Hno); split; [by rewrite Hlen|];
    split; [done|]; intros [|i] Hi;
    [ by rewrite Nat.add_0_r, Hget
    | replace (t + S i) with (S t + i) by lia; apply Hno; lia ] ].

(** The loop of [search_paper] runs out exactly when every one of its
    passes failed: no pass saw a body. *)
Lemma search_attempts_exhausted (remaining attempt : nat) (query : string) (t : nat) :
  let '(res, atts) := search_attempts net remaining attempt query t in
  match res with
  | None =>
      length atts = remaining
      /\ forallb (transient (Search query)) atts = true
      /\ forall i, i < remaining -> status_of (get_search net (t + i) query) <> S200
  | Some data =>
      forallb (transient (Search query)) atts = false
      /\ length atts <= remaining
      /\ get_search net (t + (length atts - 1)) query = Ok data
  end.
Proof.
  revert attempt t. induction remaining as [|n IH]; intros attempt t; simpl.
  - split; [done|]. split; [done|]. intros i Hi. lia.
  - destruct (get_search net t query) as [| | | |data] eqn:Hget.
    + retry_case IH attempt t Hget (search_attempts net n (S attempt) query (S t)).
    + retry_case IH attempt t Hget (search_attempts net n (S attempt) query (S t)).
    + retry_case IH attempt t Hget (search_attempts net n (S attempt) query (S t)).
    + retry_case IH attempt t Hget (search_attempts net n (S attempt) query (S t)).
    + simpl. split; [done|]. split; [lia|]. by rewrite Nat.add_0_r.
Qed.

(** The loop of [get_paper_by_doi] runs out exactly when every one of its
    passes failed: no pass saw a body or a 404. *)
Lemma doi_attempts_exhausted (remaining attempt : nat) (doi : string) (t : nat) :
  let '(res, atts) := doi_attempts net remaining attempt doi t in
  match res with
  | None =>
      length atts = remaining
      /\ forallb (transient (DoiLookup doi)) atts = true
      /\ forall i, i < remaining ->
           status_of (get_doi net (t + i) doi) <> S200
           /\ status_of (get_doi net (t + i) doi) <> S404
  | Some paper =>
      forallb (transient (DoiLookup doi)) atts = false
      /\ length atts <= remaining
      /\ match paper with
         | Some p => get_doi net (t + (length atts - 1)) doi = Ok p
         | None => get_doi net (t + (length atts - 1)) doi = NotFound
         end
  end.
Proof.
  revert attempt t. induction remaining as [|n IH]; intros attempt t; simpl.
  - split; [done|]. split; [done|]. intros i Hi. lia.
  - destruct (get_doi net t doi) as [| | | |paper] eqn:Hget.
    + retry_case IH attempt t Hget (doi_attempts net n (S attempt) doi (S t)).
    + simpl. split; [done|]. split; [lia|]. by rewrite Nat.add_0_r.
    + retry_case IH attempt t Hget (doi_attempts net n (S attempt) doi (S t)).
    + retry_case IH attempt t Hget (doi_attempts net n (S attempt) doi (S t)).
    + simpl. split; [done|]. split; [lia|]. by rewrite Nat.add_0_r.
Qed.

(** What [search_paper] does: one call is recorded; the failure fields are
    set exactly when the call exhausted its retries, which it does exactly
    when none of the [max_retries] requests brought a body. *)
Lemma search_paper_call (query : string) (s : State) :
  exists data atts,
    let r := {| call := Search query; call_clock := clock s; attempts := atts |} in
    search_paper query s
    = (Returned data, record_call (Search query) atts (exhausted r) s)
    /\ (exhausted r = true ->
        data = []
        /\ forall i, i < max_retries ->
             status_of (get_search net (clock s + i) query) <> S200)
    /\ (exhausted r = false ->
        exists i, i < max_retries /\ get_search net (clock s + i) query = Ok data).
Proof.
  unfold SemanticScholar.search_paper.
  pose proof (search_attempts_exhausted max_retries 0 query (clock s)) as H.
  destruct (search_attempts net max_retries 0 query (clock s)) as [[data|] atts].
  - destruct H as (Hall & Hlen & Hok). exists data, atts.
    assert (Hex : exhausted {| call := Search query; call_clock := clock s;
                               attempts := atts |} = false).
    { unfold exhausted. simpl. rewrite Hall. apply andb_false_r. }
    cbv zeta. rewrite Hex. split; [done|]. split; [done|]. intros _.
    exists (length atts - 1). split; [|done].
    destruct atts; [done|]. simpl in *. lia.
  - destruct H as (Hlen & Hall & Hno). exists [], atts.
    assert (Hex : exhausted {| call := Search query; call_clock := clock s;
                               attempts := atts |} = true).
    { unfold exhausted. simpl. rewrite Hall, Hlen. done. }
    cbv zeta. rewrite Hex. split; [done|]. split; [done|done].
Qed.

Lemma get_paper_by_doi_call (doi : string) (s : State) :
  exists paper atts,
    let r := {| call := DoiLookup doi; call_clock := clock s; attempts := atts |} in
    get_paper_by_doi doi s
    = (Returned paper, record_call (DoiLookup doi) atts (exhausted r) s)
    /\ (exhausted r = true ->
        paper = None
        /\ forall i, i < max_retries ->
             status_of (get_doi net (clock s + i) doi) <> S200
             /\ status_of (get_doi net (clock s + i) doi) <> S404)
    /\ (exhausted r = false ->
        exists i, i < max_retries
          /\ match paper with
             | Some p => get_doi net (clock s + i) doi = Ok p
             | None => get_doi net (clock s + i) doi = NotFound
             end).
Proof.
  unfold SemanticScholar.get_paper_by_doi.
  pose proof (doi_attempts_exhausted max_retries 0 doi (clock s)) as H.
  destruct (doi_attempts net max_retries 0 doi (clock s)) as [[paper|] atts].
  - destruct H as (Hall & Hlen & Hok). exists paper, atts.
    assert (Hex : exhausted {| call := DoiLookup doi; call_clock := clock s;
                               attempts := atts |} = false).
    { unfold exhausted. simpl. rewrite Hall. apply andb_false_r. }
    cbv zeta. rewrite Hex. split; [done|]. split; [done|]. intros _.
    exists (length atts - 1). split; [|done].
    destruct atts; [done|]. simpl in *. lia.
  - destruct H as (Hlen & Hall & Hno). exists None, atts.
    assert (Hex : exhausted {| call := DoiLookup doi; call_clock := clock s;
                               attempts := atts |} = true).
    { unfold exhausted. simpl. rewrite Hall, Hlen. done. }
    cbv zeta. rewrite Hex. split; [done|]. split; [done|done].
Qed.

(** *** Calls only add to the trace *)

Local Abbreviation extends := (SemanticScholar.extends net).
Local Abbreviation grows := (SemanticScholar.grows net).

Lemma extends_refl (s : State) : extends s s.
Proof.
  exists []. rewrite app_nil_r. simpl. by rewrite orb_false_r.
Qed.

Lemma extends_trans (s1 s2 s3 : State) :
  extends s1 s2 -> extends s2 s3 -> extends s1 s3.
Proof.
  intros (cs1 & Hc1 & Hs1 & Hf1 & Hr1) (cs2 & Hc2 & Hs2 & Hf2 & Hr2).
  exists (cs1 ++ cs2). rewrite existsb_app.
  split; [by rewrite Hc2, Hc1, <- (assoc_L (++))|].
  split; [by apply Forall_app|].
  split; [by rewrite Hf2, Hf1, orb_assoc|].
  rewrite Hr2, Hr1. by destruct (existsb exhausted cs2), (existsb exhausted cs1).
Qed.

Lemma extends_record (c : Call) (atts : list Attempt) (s : State) :
  let r := {| call := c; call_clock := clock s; attempts := atts |} in
  faithful net r ->
  extends s (record_call c atts (exhausted r) s).
Proof.
  intros r Hr. exists [r]. simpl. rewrite orb_false_r.
  split; [done|]. split; [by apply Forall_singleton|].
  by destruct (exhausted r), (_api_failed s).
Qed.

Lemma grows_ret {A} (a : A) : grows (mret a).
Proof. intros s. apply extends_refl. Qed.

Lemma grows_raise {A} (e : Exception) : grows (@raise A e).
Proof. intros s. apply extends_refl. Qed.

Lemma grows_get_state : grows get_state.
Proof. intros s. apply extends_refl. Qed.

Lemma grows_bind {A B} (m : M A) (f : A -> M B) :
  grows m -> (forall a, grows (f a)) -> grows (m ≫= f).
Proof.
  intros Hm Hf s. unfold mbind, M_bind. specialize (Hm s).
  destruct (m s) as [[a|e] s1]; simpl in *; [|done].
  eapply extends_trans; [done|apply Hf].
Qed.

Lemma grows_search_paper (query : string) : grows (search_paper query).
Proof.
  intros s. destruct (search_paper_call query s) as (data & atts & -> & Hex & Hok).
  apply extends_record. unfold faithful. simpl. split.
  - intros H. by apply Hex.
  - intros Hno. destruct (exhausted _) eqn:E; [done|].
    destruct (Hok eq_refl) as (i & Hi & Hget).
    destruct (Hno i Hi). by rewrite Hget.
Qed.

Lemma grows_get_paper_by_doi (doi : string) : grows (get_paper_by_doi doi).
Proof.
  intros s. destruct (get_paper_by_doi_call doi s) as (paper & atts & -> & Hex & Hok).
  apply extends_record. unfold faithful. simpl. split.
  - intros H. by apply Hex.
  - intros Hno. destruct (exhausted _) eqn:E; [done|].
    destruct (Hok eq_refl) as (i & Hi & Hget).
    destruct (Hno i Hi) as [H200 H404].
    destruct paper; rewrite Hget in *; done.
Qed.

Lemma grows_arxiv_api (arxiv_id : string) :
  grows (_get_paper_from_arxiv_api arxiv_id).
Proof.
  intros s. unfold SemanticScholar._get_paper_from_arxiv_api.
  destruct (get_arxiv net (clock s) arxiv_id); simpl;
    match goal with
    | |- SemanticScholar.extends _ _ (record_call ?c ?atts false _) =>
        by apply (extends_record c atts)
    end.
Qed.

Create HintDb grows.
#[local] Hint Resolve grows_ret grows_raise grows_get_state grows_search_paper
  grows_get_paper_by_doi grows_arxiv_api : grows.

(** Every strategy only adds calls. *)
Ltac grows_step :=
  first
    [ apply grows_bind; [|intros ?]
    | solve [eauto with grows]
    | match goal with
      | |- grows (match ?x with _ => _ end) => destruct x
      | |- grows (if ?x then _ else _) => destruct x
      | |- grows (let '(_, _) := ?x in _) => destruct x
      end ].

Lemma grows_doi_strategy (doi : option string) : grows (doi_strategy doi).
Proof. unfold SemanticScholar.doi_strategy. repeat grows_step. Qed.

Lemma grows_title_strategy (reference : Reference) (l : Locals) :
  grows (title_strategy reference l).
Proof. unfold SemanticScholar.title_strategy. repeat grows_step. Qed.

Lemma grows_arxiv_strategy (reference : Reference) (l : Locals) :
  grows (arxiv_strategy reference l).
Proof. unfold SemanticScholar.arxiv_strategy. repeat grows_step. Qed.

Lemma grows_raw_text_strategy (reference : Reference) (l : Locals) :
  grows (raw_text_strategy reference l).
Proof. unfold SemanticScholar.raw_text_strategy. repeat grows_step. Qed.

#[local] Hint Resolve grows_doi_strategy grows_title_strategy
  grows_arxiv_strategy grows_raw_text_strategy : grows.

(** [resolve] resets the failure fields and then only adds calls. *)
Lemma resolve_reset (reference : Reference) (failed : bool)
    (reason : option string) (t : nat) :
  resolve reference (start failed reason t)
  = (l ← doi_strategy (cited_doi reference);
     l ← title_strategy reference l;
     l ← arxiv_strategy reference l;
     raw_text_strategy reference l) (start false None t).
Proof. reflexivity. Qed.

Lemma resolve_tracked (reference : Reference) (failed : bool)
    (reason : option string) (t : nat) out (s' : State) :
  resolve reference (start failed reason t) = (out, s') ->
  Forall (faithful net) (calls s')
  /\ _api_failed s' = existsb exhausted (calls s')
  /\ _failure_reason s'
     = if existsb exhausted (calls s') then Some "rate_limited_or_timeout"
       else None.
Proof.
  rewrite resolve_reset. intros Hres.
  assert (Hgrows : grows
    (l ← doi_strategy (cited_doi reference);
     l ← title_strategy reference l;
     l ← arxiv_strategy reference l;
     raw_text_strategy reference l)) by repeat grows_step.
  specialize (Hgrows (start false None t)). rewrite Hres in Hgrows.
  destruct Hgrows as (cs & Hcs & Hfaithful & Hfailed & Hreason).
  simpl in *. by rewrite Hcs.
Qed.

(** *** The candidate and its found title *)

Lemma bind_run {A B} (m : M A) (f : A -> M B) (s : State) :
  (m ≫= f) s
  = match m s with
    | (Returned a, s1) => f a s1
    | (Raised e, s1) => (Raised e, s1)
    end.
Proof. reflexivity. Qed.

(** The identifier lookup as the chain starts with it. *)
Lemma doi_strategy_result (reference : Reference) (t : nat) :
  exists s1,
    doi_strategy (cited_doi reference) (start false None t)
    = (Returned {| paper_data := doi_lookup_result net reference t;
                   found_title := ""; cleaned_title := None |}, s1)
    /\ (doi_lookup_result net reference t <> None ->
        exists d atts,
          cited_doi reference = Some d
          /\ s1 = record_call (DoiLookup d) atts false (start false None t)).
Proof.
  unfold doi_lookup_result, SemanticScholar.doi_strategy.
  destruct (cited_doi reference) as [d|]; [|by eexists].
  rewrite bind_run.
  destruct (get_paper_by_doi_call d (start false None t))
    as (paper & atts & Hcall & Hex & _).
  cbv zeta in *. rewrite Hcall. simpl. eexists. split; [done|].
  intros Hp. exists d, atts. split; [done|].
  destruct (exhausted _); [|done]. by destruct (Hex eq_refl).
Qed.

Lemma ensures_ret {A} (a : A) (Q : A -> Prop) : Q a -> ensures (mret a) Q.
Proof. intros Ha s a' s' [= <- _]. done. Qed.

Lemma ensures_raise {A} (e : Exception) (Q : A -> Prop) : ensures (raise e) Q.
Proof. intros s a s' [=]. Qed.

Lemma ensures_bind {A B} (m : M A) (f : A -> M B) (P : A -> Prop)
    (Q : B -> Prop) :
  ensures m P -> (forall a, P a -> ensures (f a) Q) -> ensures (m ≫= f) Q.
Proof.
  intros Hm Hf s b s'. unfold mbind, M_bind.
  destruct (m s) as [[a|e] s1] eqn:Hms; [|done].
  apply Hf. by eapply Hm.
Qed.

Lemma ensures_bind_any {A B} (m : M A) (f : A -> M B) (Q : B -> Prop) :
  (forall a, ensures (f a) Q) -> ensures (m ≫= f) Q.
Proof.
  intros Hf. apply (ensures_bind m f (fun _ => True)); [done|].
  intros a _. apply Hf.
Qed.

Ltac ensures_step :=
  first
    [ apply ensures_bind_any; intros ?
    | apply ensures_raise
    | apply ensures_ret
    | match goal with
      | |- ensures (match ?x with _ => _ end) _ => destruct x eqn:?
      | |- ensures (if ?x then _ else _) _ => destruct x eqn:?
      end ].

Lemma titled_accept (m : Paper) (l : Locals) : titled (accept m l).
Proof. done. Qed.

Lemma titled_choose search_results title reference (l : Locals) :
  titled l -> titled (choose search_results title reference l).
Proof.
  intros Hl. unfold SemanticScholar.choose.
  destruct (find_best_match _ _ _ _) as [[m|] score]; [|done].
  by destruct (Qgeb score SIMILARITY_THRESHOLD).
Qed.

(** A strategy leaves an accepted candidate alone. *)
Lemma strategies_skip (reference : Reference) (l : Locals) (paper : Paper) :
  paper_data l = Some paper ->
  title_strategy reference l = mret l
  /\ arxiv_strategy reference l = mret l
  /\ raw_text_strategy reference l = mret l.
Proof.
  intros Hl. unfold SemanticScholar.title_strategy,
    SemanticScholar.arxiv_strategy, SemanticScholar.raw_text_strategy.
  by rewrite Hl.
Qed.

Lemma titled_title_strategy (reference : Reference) (l : Locals) :
  titled l -> ensures (title_strategy reference l) titled.
Proof.
  intros Hl. unfold SemanticScholar.title_strategy.
  destruct (paper_data l) eqn:Hp; [by apply ensures_ret|].
  assert (Hl' : titled {| paper_data := None; found_title := found_title l;
                          cleaned_title := Some (clean_title_for_search
                                                   (ref_title reference)) |}).
  { unfold titled in *. simpl. by rewrite Hp in Hl. }
  repeat ensures_step; try done. by apply titled_choose.
Qed.

Lemma titled_arxiv_strategy (reference : Reference) (l : Locals) :
  titled l -> ensures (arxiv_strategy reference l) titled.
Proof.
  intros Hl. unfold SemanticScholar.arxiv_strategy.
  repeat ensures_step; done.
Qed.

Lemma titled_raw_text_strategy (reference : Reference) (l : Locals) :
  titled l -> ensures (raw_text_strategy reference l) titled.
Proof.
  intros Hl. unfold SemanticScholar.raw_text_strategy.
  repeat ensures_step; try done. by apply titled_choose.
Qed.

(** The chain after an identifier lookup that found [paper]: nothing else
    is called, and no title was found. *)
Lemma resolve_by_doi (reference : Reference) (failed : bool)
    (reason : option string) (t : nat) (paper : Paper) :
  doi_lookup_result net reference t = Some paper ->
  exists d atts,
    cited_doi reference = Some d
    /\ resolve reference (start failed reason t)
       = (Returned {| paper_data := Some paper; found_title := "";
                      cleaned_title := None |},
          record_call (DoiLookup d) atts false (start false None t)).
Proof.
  intros Hdoi.
  destruct (doi_strategy_result reference t) as (s1 & Hrun & Hs1).
  rewrite Hdoi in *.
  destruct Hs1 as (d & atts & Hd & ->); [done|].
  exists d, atts. split; [done|].
  destruct (strategies_skip reference
              {| paper_data := Some paper; found_title := "";
                 cleaned_title := None |} paper eq_refl) as (Ht & Ha & Hr).
  rewrite resolve_reset, bind_run, Hrun, bind_run, Ht. simpl.
  rewrite bind_run, Ha. simpl. by rewrite Hr.
Qed.

(** The chain after an identifier lookup that found nothing: the found
    title is the candidate's. *)
Lemma titled_fallback (reference : Reference) (l0 : Locals) :
  titled l0 ->
  ensures (l ← title_strategy reference l0;
           l ← arxiv_strategy reference l;
           raw_text_strategy reference l) titled.
Proof.
  intros Hl0.
  eapply ensures_bind; [by apply titled_title_strategy|]. intros l1 Hl1.
  eapply ensures_bind; [by apply titled_arxiv_strategy|]. intros l2 Hl2.
  by apply titled_raw_text_strategy.
Qed.

Lemma resolve_by_search (reference : Reference) (failed : bool)
    (reason : option string) (t : nat) (l : Locals) (s' : State) :
  doi_lookup_result net reference t = None ->
  resolve reference (start failed reason t) = (Returned l, s') ->
  titled l.
Proof.
  intros Hdoi.
  destruct (doi_strategy_result reference t) as (s1 & Hrun & _).
  rewrite Hdoi in Hrun. rewrite resolve_reset, bind_run, Hrun.
  by apply titled_fallback.
Qed.

(** *** The verdict *)

Lemma verify_reference_accepted (reference : Reference) (s s' : State)
    (paper : Paper) (errors : list Finding) (url : option string) :
  verify_reference reference s = (Returned (Some paper, errors, url), s') ->
  exists l,
    resolve reference s = (Returned l, s')
    /\ paper_data l = Some paper
    /\ errors = findings reference (cited_doi reference) (found_title l) paper
    /\ url = select_url paper.
Proof.
  unfold SemanticScholar.verify_reference, mbind, M_bind.
  destruct (resolve reference s) as [[l|e] s1]; [|done].
  destruct (paper_data l) as [p|] eqn:Hp.
  - intros [= <- <- <- <-]. by exists l.
  - unfold get_state. by destruct (_api_failed s1).
Qed.

(** A verification whose strategies return without a candidate returns
    no paper and no URL, together with exactly one finding, of kind
    [api_failure], when a lookup or a search of this verification exhausted
    its five attempts (each of them failed: rate limit, error status or
    request error), and together with no finding when none did.  The calls
    recorded are those the network saw.  The strategies do not always
    return: the scoring of the raw-text search raises for a citation
    without a title. *)
Lemma no_candidate_verdict (reference : Reference) (failed : bool)
    (reason : option string) (t : nat) (l : Locals) (s' : State) :
  resolve reference (start failed reason t) = (Returned l, s') ->
  paper_data l = None ->
  Forall (faithful net) (calls s')
  /\ (existsb exhausted (calls s') = true ->
      verify_reference reference (start failed reason t)
      = (Returned
           (None,
            [ {[ "error_type" := Str "api_failure";
                 "error_details" :=
                   Str "Semantic Scholar API failed: rate_limited_or_timeout" ]} ],
            None), s'))
  /\ (existsb exhausted (calls s') = false ->
      verify_reference reference (start failed reason t)
      = (Returned (None, [], None), s')).
Proof.
  intros Hres Hnone.
  destruct (resolve_tracked _ _ _ _ _ _ Hres) as (Hfaithful & Hfailed & Hreason).
  split; [done|].
  unfold SemanticScholar.verify_reference.
  rewrite bind_run, Hres, Hnone, bind_run. unfold get_state.
  rewrite Hfailed, Hreason.
  split; intros ->; reflexivity.
Qed.

(** C5.  When the citation has a DOI, in its [doi] field or in its URL,
    and the lookup of this DOI finds a paper, the verification returns this
    paper after the lookup alone: the only call recorded is the lookup; no
    search (by title, by arXiv identifier or by raw text) and no arXiv
    request is made. *)
Theorem identifier_lookup_short_circuits (reference : Reference)
    (failed : bool) (reason : option string) (t : nat) (paper : Paper) :
  doi_lookup_result net reference t = Some paper ->
  exists d r errors url s',
    cited_doi reference = Some d
    /\ verify_reference reference (start failed reason t)
       = (Returned (Some paper, errors, url), s')
    /\ calls s' = [r] /\ call r = DoiLookup d
    /\ existsb is_search (calls s') = false
    /\ existsb is_arxiv_api (calls s') = false.
Proof.
  intros Hdoi.
  destruct (resolve_by_doi reference failed reason t paper Hdoi)
    as (d & atts & Hd & Hres).
  exists d. eexists. eexists. eexists. eexists.
  split; [done|].
  unfold SemanticScholar.verify_reference. rewrite bind_run, Hres. simpl.
  split; [reflexivity|]. by simpl.
Qed.

(** *** The findings *)

Lemma found_title_cases (reference : Reference) (failed : bool)
    (reason : option string) (t : nat) (l : Locals) (s' : State) (paper : Paper) :
  resolve reference (start failed reason t) = (Returned l, s') ->
  paper_data l = Some paper ->
  (doi_lookup_result net reference t <> None /\ found_title l = "")
  \/ (doi_lookup_result net reference t = None
      /\ found_title l = paper_title paper).
Proof.
  intros Hres Hp.
  destruct (doi_lookup_result net reference t) as [p|] eqn:Hdoi.
  - left. split; [done|].
    destruct (resolve_by_doi reference failed reason t p Hdoi)
      as (d & atts & _ & Hres').
    rewrite Hres' in Hres. by injection Hres as <- _.
  - right. split; [done|].
    pose proof (resolve_by_search _ _ _ _ _ _ Hdoi Hres) as Ht.
    unfold titled in Ht. by rewrite Hp in Ht.
Qed.

(** Each part of the cross-validation finds nothing or one finding, with
    keys and types that are literals: a filter on them is computed, case by
    case. *)
Ltac findings_cases :=
  unfold SemanticScholar.title_findings, SemanticScholar.author_findings,
    SemanticScholar.year_findings, SemanticScholar.venue_findings,
    SemanticScholar.doi_findings;
  repeat match goal with
    | |- context [let '(_, _) := ?x in _] => destruct x
    | |- context [if ?c then _ else _] => destruct c
    | |- context [match ?x with _ => _ end] => destruct x
    end;
  try reflexivity.

Lemma year_warning_only_from_year (reference : Reference) (doi : option string)
    (found_title : string) (paper : Paper) :
  List.filter (has_type "warning_type" "year")
    (findings reference doi found_title paper)
  = SemanticScholar.year_findings reference paper.
Proof.
  unfold SemanticScholar.findings. rewrite !List.filter_app.
  assert (List.filter (has_type "warning_type" "year")
            (title_findings reference found_title paper) = []) as ->
    by findings_cases.
  assert (List.filter (has_type "warning_type" "year")
            (author_findings reference paper) = []) as ->
    by findings_cases.
  assert (List.filter (has_type "warning_type" "year")
            (venue_findings reference paper) = []) as ->
    by findings_cases.
  assert (List.filter (has_type "warning_type" "year")
            (SemanticScholar.doi_findings doi paper) = []) as ->
    by findings_cases.
  rewrite app_nil_r. simpl. findings_cases.
Qed.

Lemma no_year_error (reference : Reference) (doi : option string)
    (found_title : string) (paper : Paper) :
  List.filter (has_type "error_type" "year")
    (findings reference doi found_title paper) = [].
Proof.
  unfold SemanticScholar.findings. rewrite !List.filter_app.
  assert (List.filter (has_type "error_type" "year")
            (title_findings reference found_title paper) = []) as ->
    by findings_cases.
  assert (List.filter (has_type "error_type" "year")
            (author_findings reference paper) = []) as ->
    by findings_cases.
  assert (List.filter (has_type "error_type" "year")
            (SemanticScholar.year_findings reference paper) = []) as ->
    by findings_cases.
  assert (List.filter (has_type "error_type" "year")
            (venue_findings reference paper) = []) as ->
    by findings_cases.
  assert (List.filter (has_type "error_type" "year")
            (SemanticScholar.doi_findings doi paper) = []) as ->
    by findings_cases.
  done.
Qed.

(** Errors come from the title, the authors and the DOI only. *)
Lemma errors_only_from (reference : Reference) (doi : option string)
    (found_title : string) (paper : Paper) :
  List.filter is_error (findings reference doi found_title paper)
  = title_findings reference found_title paper
    ++ List.filter is_error (author_findings reference paper)
    ++ SemanticScholar.doi_findings doi paper.
Proof.
  unfold SemanticScholar.findings. rewrite !List.filter_app.
  assert (List.filter is_error (title_findings reference found_title paper)
          = title_findings reference found_title paper) as ->
    by findings_cases.
  assert (List.filter is_error (SemanticScholar.year_findings reference paper)
          = []) as ->
    by findings_cases.
  assert (List.filter is_error (venue_findings reference paper) = []) as ->
    by findings_cases.
  assert (List.filter is_error (SemanticScholar.doi_findings doi paper)
          = SemanticScholar.doi_findings doi paper) as ->
    by findings_cases.
  done.
Qed.

Lemma title_error_only_from_title (reference : Reference)
    (doi : option string) (found_title : string) (paper : Paper) :
  List.filter (has_type "error_type" "title")
    (findings reference doi found_title paper)
  = title_findings reference found_title paper.
Proof.
  unfold SemanticScholar.findings. rewrite !List.filter_app.
  assert (List.filter (has_type "error_type" "title")
            (author_findings reference paper) = []) as ->
    by findings_cases.
  assert (List.filter (has_type "error_type" "title")
            (SemanticScholar.year_findings reference paper) = []) as ->
    by findings_cases.
  assert (List.filter (has_type "error_type" "title")
            (venue_findings reference paper) = []) as ->
    by findings_cases.
  assert (List.filter (has_type "error_type" "title")
            (SemanticScholar.doi_findings doi paper) = []) as ->
    by findings_cases.
  rewrite app_nil_r. findings_cases.
Qed.

Lemma author_finding_only_from_authors (reference : Reference)
    (doi : option string) (found_title : string) (paper : Paper) :
  List.filter
    (fun f => has_type "error_type" "author" f || has_type "warning_type" "author" f)
    (findings reference doi found_title paper)
  = author_findings reference paper.
Proof.
  unfold SemanticScholar.findings. rewrite !List.filter_app.
  assert (List.filter
            (fun f => has_type "error_type" "author" f
                      || has_type "warning_type" "author" f)
            (title_findings reference found_title paper) = []) as ->
    by findings_cases.
  assert (List.filter
            (fun f => has_type "error_type" "author" f
                      || has_type "warning_type" "author" f)
            (SemanticScholar.year_findings reference paper) = []) as ->
    by findings_cases.
  assert (List.filter
            (fun f => has_type "error_type" "author" f
                      || has_type "warning_type" "author" f)
            (venue_findings reference paper) = []) as ->
    by findings_cases.
  assert (List.filter
            (fun f => has_type "error_type" "author" f
                      || has_type "warning_type" "author" f)
            (SemanticScholar.doi_findings doi paper) = []) as ->
    by findings_cases.
  rewrite app_nil_r. simpl. findings_cases.
Qed.

Lemma arxiv_id_match_iff (reference : Reference) (paper : Paper) :
  arxiv_id_match reference paper = true <->
  exists arxiv_id,
    arxiv_id_in_url (ref_url reference) = Some arxiv_id
    /\ paper_externalIds paper !! "ArXiv" = Some arxiv_id.
Proof.
  unfold arxiv_id_match.
  destruct (arxiv_id_in_url (ref_url reference)) as [cited|]; split.
  - intros H%bool_decide_eq_true. by exists cited.
  - intros (arxiv_id & [= <-] & H). by apply bool_decide_eq_true.
  - done.
  - by intros (arxiv_id & H & _).
Qed.

(** C6, as the code has it.  The titles are compared only when the
    candidate was accepted by a search (by title, by arXiv identifier, by
    the arXiv endpoint or by raw text) and has a title: then a similarity
    below the threshold gives one [title] error, the first finding of the
    verdict, with the candidate's title as the correct one, and a
    similarity that reaches the threshold gives none.  A candidate found by
    the identifier lookup gets no [title] finding at all. *)
Theorem title_compared_after_search (reference : Reference) (failed : bool)
    (reason : option string) (t : nat) (s' : State) (paper : Paper)
    (errors : list Finding) (url : option string) :
  verify_reference reference (start failed reason t)
  = (Returned (Some paper, errors, url), s') ->
  let below :=
    Text.nonempty (paper_title paper)
    && Qltb (calculate_title_similarity (ref_title reference) (paper_title paper))
            SIMILARITY_THRESHOLD in
  let finding : Finding :=
    {[ "error_type" := Str "title";
       "error_details" :=
         Str ("Title mismatch: cited as '" ++ ref_title reference
              ++ "' but actually '" ++ paper_title paper ++ "'")%string;
       "ref_title_correct" := Str (paper_title paper) ]} in
  (doi_lookup_result net reference t = None ->
   below = true ->
   List.filter (has_type "error_type" "title") errors = [finding]
   /\ exists rest, errors = finding :: rest)
  /\ (doi_lookup_result net reference t = None ->
      below = false ->
      List.filter (has_type "error_type" "title") errors = [])
  /\ (doi_lookup_result net reference t <> None ->
      List.filter (has_type "error_type" "title") errors = []).
Proof.
  intros Hv below finding.
  destruct (verify_reference_accepted _ _ _ _ _ _ Hv) as (l & Hres & Hp & -> & _).
  rewrite title_error_only_from_title.
  destruct (found_title_cases _ _ _ _ _ _ _ Hres Hp) as [[Hdoi ->]|[Hdoi ->]].
  - split; [done|]. split; [done|]. done.
  - unfold SemanticScholar.findings, SemanticScholar.title_findings.
    subst below finding.
    destruct (Text.nonempty (paper_title paper)); simpl;
      (split; [|split; [|done]]); intros _ Hb; try done; rewrite Hb.
    + split; [done|]. by eexists.
    + done.
Qed.

(** C7.  When the cited year and the candidate's year are both present
    and differ, the verdict has exactly one finding about the year: a
    warning, never an error, with the candidate's year as the correct
    one, and with a note added to its text exactly when the arXiv
    identifier in the cited URL is the candidate's.  When moreover the
    titles are similar, the authors match and the DOIs do not differ, the
    verdict has no finding of kind error. *)
Theorem year_mismatch_is_warning (reference : Reference) (failed : bool)
    (reason : option string) (t : nat) (s' : State) (paper : Paper)
    (errors : list Finding) (url : option string) (py : nat) :
  verify_reference reference (start failed reason t)
  = (Returned (Some paper, errors, url), s') ->
  ref_year reference <> 0 -> paper_year paper = Some py -> py <> 0 ->
  ref_year reference <> py ->
  let details :=
    ("Year mismatch: cited as " ++ pretty (ref_year reference)
     ++ " but actually " ++ pretty py)%string in
  let finding : Finding :=
    {[ "warning_type" := Str "year";
       "warning_details" :=
         Str (if arxiv_id_match reference paper
              then (details ++ " (Note: ArXiv ID matches exactly - this may be due to conference vs. preprint year difference)")%string
              else details);
       "ref_year_correct" := Int py ]} in
  List.filter (has_type "warning_type" "year") errors = [finding]
  /\ List.filter (has_type "error_type" "year") errors = []
  /\ is_warning finding = true /\ is_error finding = false
  /\ (arxiv_id_match reference paper = true <->
      exists arxiv_id,
        arxiv_id_in_url (ref_url reference) = Some arxiv_id
        /\ paper_externalIds paper !! "ArXiv" = Some arxiv_id)
  /\ (Qltb (calculate_title_similarity (ref_title reference) (paper_title paper))
           SIMILARITY_THRESHOLD = false ->
      ref_authors reference = []
      \/ fst (compare_authors (ref_authors reference) (paper_authors paper)) = true ->
      SemanticScholar.doi_findings (cited_doi reference) paper = [] ->
      List.filter is_error errors = []).
Proof.
  intros Hv Hy Hpy Hpy0 Hne details finding.
  destruct (verify_reference_accepted _ _ _ _ _ _ Hv) as (l & Hres & Hp & -> & _).
  rewrite year_warning_only_from_year, no_year_error, errors_only_from.
  split; [|split; [done|split; [done|split; [done|split]]]].
  - unfold SemanticScholar.year_findings. rewrite Hpy.
    apply Nat.eqb_neq in Hy, Hpy0, Hne. rewrite Hy, Hpy0, Hne. simpl.
    unfold finding, details. by destruct (arxiv_id_match reference paper).
  - apply arxiv_id_match_iff.
  - intros Hsim Hauthors ->. rewrite app_nil_r.
    assert (title_findings reference (found_title l) paper = []) as ->.
    { unfold SemanticScholar.title_findings.
      destruct (found_title_cases _ _ _ _ _ _ _ Hres Hp) as [[_ ->]|[_ ->]];
        [done|].
      destruct (Text.nonempty (paper_title paper)); [|done].
      by rewrite Hsim. }
    unfold SemanticScholar.author_findings.
    destruct Hauthors as [->|Hm]; [done|].
    destruct (ref_authors reference); [done|].
    destruct (compare_authors _ _) as [[|] msg]; [done|]. done.
Qed.

(** C8.  When the candidate's authors do not match the cited authors, the
    verdict has exactly one finding about the authors, with the
    candidate's author names, joined, as the correct ones: an error, except
    that it is a warning when the arXiv identifier in the cited URL is the
    candidate's. *)
Theorem author_mismatch_finding (reference : Reference) (failed : bool)
    (reason : option string) (t : nat) (s' : State) (paper : Paper)
    (errors : list Finding) (url : option string) (author_error : string) :
  verify_reference reference (start failed reason t)
  = (Returned (Some paper, errors, url), s') ->
  ref_authors reference <> [] ->
  compare_authors (ref_authors reference) (paper_authors paper)
  = (false, author_error) ->
  let correct := Text.join ", " (map name_of (paper_authors paper)) in
  let finding : Finding :=
    if arxiv_id_match reference paper
    then {[ "warning_type" := Str "author";
            "warning_details" :=
              Str (author_error ++ " (Note: ArXiv ID matches exactly - this may be due to incomplete author data in Semantic Scholar)")%string;
            "ref_authors_correct" := Str correct ]}
    else {[ "error_type" := Str "author";
            "error_details" := Str author_error;
            "ref_authors_correct" := Str correct ]} in
  List.filter
    (fun f => has_type "error_type" "author" f || has_type "warning_type" "author" f)
    errors = [finding]
  /\ finding !! "ref_authors_correct" = Some (Str correct)
  /\ (arxiv_id_match reference paper = true ->
      is_warning finding = true /\ is_error finding = false)
  /\ (arxiv_id_match reference paper = false ->
      is_error finding = true /\ is_warning finding = false)
  /\ (arxiv_id_match reference paper = true <->
      exists arxiv_id,
        arxiv_id_in_url (ref_url reference) = Some arxiv_id
        /\ paper_externalIds paper !! "ArXiv" = Some arxiv_id).
Proof.
  intros Hv Hauthors Hcmp correct finding.
  destruct (verify_reference_accepted _ _ _ _ _ _ Hv) as (l & Hres & Hp & -> & _).
  rewrite author_finding_only_from_authors.
  split; [|split; [|split; [|split]]].
  - unfold SemanticScholar.author_findings.
    destruct (ref_authors reference) as [|a authors] eqn:Ha; [done|].
    rewrite Hcmp. unfold finding.
    by destruct (arxiv_id_match reference paper).
  - unfold finding. by destruct (arxiv_id_match reference paper).
  - unfold finding. by intros ->.
  - unfold finding. by intros ->.
  - apply arxiv_id_match_iff.
Qed.

(** C9.  The URL of the verdict for an accepted candidate: the arXiv
    abstract URL made from the candidate's arXiv identifier when it has
    one; otherwise the URL of its open-access PDF when it has one;
    otherwise its general URL when it has one; otherwise the DOI URL made
    from its DOI when it has one; otherwise no URL (nothing, or the empty
    string the general URL field held). *)
Theorem verdict_url_priority (reference : Reference) (failed : bool)
    (reason : option string) (t : nat) (s' : State) (paper : Paper)
    (errors : list Finding) (url : option string) :
  verify_reference reference (start failed reason t)
  = (Returned (Some paper, errors, url), s') ->
  let arxiv := get_truthy (paper_externalIds paper) "ArXiv" in
  let pdf := some_truthy (paper_openAccessPdf paper ≫= pdf_url) in
  let general := some_truthy (paper_url paper) in
  let doi := get_truthy (paper_externalIds paper) "DOI" in
  (forall arxiv_id,
     arxiv = Some arxiv_id ->
     url = Some ("https://arxiv.org/abs/" ++ arxiv_id)%string)
  /\ (arxiv = None -> forall u, pdf = Some u -> url = Some u)
  /\ (arxiv = None -> pdf = None -> forall u, general = Some u -> url = Some u)
  /\ (arxiv = None -> pdf = None -> general = None ->
      forall d, doi = Some d -> url = Some (construct_doi_url d))
  /\ (arxiv = None -> pdf = None -> general = None -> doi = None ->
      some_truthy url = None).
Proof.
  intros Hv arxiv pdf general doi.
  destruct (verify_reference_accepted _ _ _ _ _ _ Hv) as (l & _ & _ & _ & ->).
  unfold SemanticScholar.select_url. fold arxiv pdf general doi.
  destruct arxiv as [a|]; [by repeat split; intros; simplify_eq|].
  destruct pdf as [u|]; [by repeat split; intros; simplify_eq|].
  destruct general as [u|] eqn:Hg; [by repeat split; intros; simplify_eq|].
  destruct doi as [d|]; [by repeat split; intros; simplify_eq|].
  repeat split; intros; simplify_eq; done.
Qed.


(** *** The passes of a retry loop *)

Lemma wait_time_power (attempt : nat) : wait_time attempt = 2 ^ attempt.
Proof. unfold wait_time, request_delay, backoff_factor. lia. Qed.

Lemma passes_shift {A} (f g : nat -> A) (k : nat) :
  (forall i, f (S i) = g i) ->
  map f (seq 0 (S k)) = f 0 :: map g (seq 0 k).
Proof.
  intros Hfg. cbn [seq map]. f_equal.
  rewrite <- seq_shift, map_map. by apply map_ext.
Qed.

(** The loop of [search_paper], pass by pass: [k] passes fail, each
    followed by its sleep, and then either a pass brings a body or the
    passes have run out. *)
Lemma search_attempts_passes (remaining attempt : nat) (query : string) (t : nat) :
  let pass i :=
    {| status := status_of (get_search net (t + i) query);
       slept := Some (2 ^ (attempt + i)) |} in
  exists k,
    k <= remaining
    /\ (forall i, i < k -> status_of (get_search net (t + i) query) <> S200)
    /\ ((k < remaining
         /\ exists data,
              get_search net (t + k) query = Ok data
              /\ search_attempts net remaining attempt query t
                 = (Some data,
                    map pass (seq 0 k) ++ [ {| status := S200; slept := None |} ]))
        \/ (k = remaining
            /\ search_attempts net remaining attempt query t
               = (None, map pass (seq 0 k)))).
Proof.
  revert attempt t. induction remaining as [|n IH]; intros attempt t pass.
  { exists 0. split; [done|]. split; [lia|]. by right. }
  cbn [search_attempts].
  destruct (get_search net t query) as [| | | |data] eqn:Hget;
    try (destruct (IH (S attempt) (S t)) as (k & Hk & Hfail & Hend);
         exists (S k); split; [lia|]; split;
         [ intros [|i] Hi;
           [ by rewrite Nat.add_0_r, Hget
           | replace (t + S i) with (S t + i) by lia; apply Hfail; lia ]
         | assert (Hpasses : map pass (seq 0 (S k))
             = {| status := status_of (get_search net t query);
                  slept := Some (wait_time attempt) |}
               :: map (fun i =>
                    {| status := status_of (get_search net (S t + i) query);
                       slept := Some (2 ^ (S attempt + i)) |}) (seq 0 k));
           [ rewrite (passes_shift pass
               (fun i => {| status := status_of (get_search net (S t + i) query);
                            slept := Some (2 ^ (S attempt + i)) |}));
             [ unfold pass; by rewrite !Nat.add_0_r, wait_time_power
             | intros i; unfold pass;
               by replace (t + S i) with (S t + i) by lia;
               replace (attempt + S i) with (S attempt + i) by lia ]
           | rewrite Hpasses, Hget;
             destruct Hend as [(Hlt & data & Hok & ->)|(-> & ->)];
             [ left; split; [lia|]; exists data;
               split; [by replace (t + S k) with (S t + k) by lia|done]
             | right; split; [done|done] ] ] ]).
  exists 0. split; [lia|]. split; [lia|]. left. split; [lia|].
  exists data. split; [by rewrite Nat.add_0_r|done].
Qed.

(** The loop of [get_paper_by_doi], pass by pass; here a 404 also ends
    the loop. *)
Lemma doi_attempts_passes (remaining attempt : nat) (doi : string) (t : nat) :
  let pass i :=
    {| status := status_of (get_doi net (t + i) doi);
       slept := Some (2 ^ (attempt + i)) |} in
  exists k,
    k <= remaining
    /\ (forall i, i < k ->
          status_of (get_doi net (t + i) doi) <> S200
          /\ status_of (get_doi net (t + i) doi) <> S404)
    /\ ((k < remaining
         /\ exists paper,
              get_doi net (t + k) doi = Ok paper
              /\ doi_attempts net remaining attempt doi t
                 = (Some (Some paper),
                    map pass (seq 0 k) ++ [ {| status := S200; slept := None |} ]))
        \/ (k < remaining
            /\ get_doi net (t + k) doi = NotFound
            /\ doi_attempts net remaining attempt doi t
               = (Some None,
                  map pass (seq 0 k) ++ [ {| status := S404; slept := None |} ]))
        \/ (k = remaining
            /\ doi_attempts net remaining attempt doi t
               = (None, map pass (seq 0 k)))).
Proof.
  revert attempt t. induction remaining as [|n IH]; intros attempt t pass.
  { exists 0. split; [done|]. split; [lia|]. by right; right. }
  cbn [doi_attempts].
  destruct (get_doi net t doi) as [| | | |paper] eqn:Hget;
    try (destruct (IH (S attempt) (S t)) as (k & Hk & Hfail & Hend);
         exists (S k); split; [lia|]; split;
         [ intros [|i] Hi;
           [ by rewrite Nat.add_0_r, Hget
           | replace (t + S i) with (S t + i) by lia; apply Hfail; lia ]
         | assert (Hpasses : map pass (seq 0 (S k))
             = {| status := status_of (get_doi net t doi);
                  slept := Some (wait_time attempt) |}
               :: map (fun i =>
                    {| status := status_of (get_doi net (S t + i) doi);
                       slept := Some (2 ^ (S attempt + i)) |}) (seq 0 k));
           [ rewrite (passes_shift pass
               (fun i => {| status := status_of (get_doi net (S t + i) doi);
                            slept := Some (2 ^ (S attempt + i)) |}));
             [ unfold pass; by rewrite !Nat.add_0_r, wait_time_power
             | intros i; unfold pass;
               by replace (t + S i) with (S t + i) by lia;
               replace (attempt + S i) with (S attempt + i) by lia ]
           | rewrite Hpasses, Hget;
             destruct Hend as [(Hlt & paper & Hok & ->)
                              |[(Hlt & Hnot & ->)|(-> & ->)]];
             [ left; split; [lia|]; exists paper;
               split; [by replace (t + S k) with (S t + k) by lia|done]
             | right; left; split; [lia|];
               split; [by replace (t + S k) with (S t + k) by lia|done]
             | right; right; split; [done|done] ] ] ]).
  - exists 0. split; [lia|]. split; [lia|]. right. left. split; [lia|].
    split; [by rewrite Nat.add_0_r|done].
  - exists 0. split; [lia|]. split; [lia|]. left. split; [lia|].
    exists paper. split; [by rewrite Nat.add_0_r|done].
Qed.

(** X1.  [search_paper] sends at most five requests.  When the first [k]
    answers bring no body it sleeps 1, 2, 4, ... seconds after them, one
    sleep of [2 ^ i] after the [i]-th; it returns the body of the first
    answer that has one, leaving the failure fields alone, and when all
    five answers fail it returns the empty list with [_api_failed] set and
    the reason [rate_limited_or_timeout]. *)
Theorem search_paper_backoff (query : string) (s : State) :
  let pass i :=
    {| status := status_of (get_search net (clock s + i) query);
       slept := Some (2 ^ i) |} in
  exists k,
    k <= 5
    /\ (forall i, i < k ->
          status_of (get_search net (clock s + i) query) <> S200)
    /\ ((k < 5
         /\ exists data,
              get_search net (clock s + k) query = Ok data
              /\ search_paper query s
                 = (Returned data,
                    {| _api_failed := _api_failed s;
                       _failure_reason := _failure_reason s;
                       clock := clock s + (k + 1);
                       calls := calls s ++
                         [ {| call := Search query; call_clock := clock s;
                              attempts :=
                                map pass (seq 0 k)
                                ++ [ {| status := S200; slept := None |} ] |} ] |}))
        \/ (k = 5
            /\ search_paper query s
               = (Returned [],
                  {| _api_failed := true;
                     _failure_reason := Some "rate_limited_or_timeout";
                     clock := clock s + 5;
                     calls := calls s ++
                       [ {| call := Search query; call_clock := clock s;
                            attempts := map pass (seq 0 5) |} ] |}))).
Proof.
  intros pass.
  destruct (search_attempts_passes max_retries 0 query (clock s))
    as (k & Hk & Hfail & Hend).
  exists k. split; [exact Hk|]. split; [exact Hfail|].
  unfold SemanticScholar.search_paper.
  destruct Hend as [(Hlt & data & Hok & ->)|(-> & ->)].
  - left. split; [exact Hlt|]. exists data. split; [exact Hok|].
    unfold record_call. cbn [attempts]. by rewrite length_app, length_map, length_seq.
  - right. split; [done|]. done.
Qed.

(** X2.  [get_paper_by_doi] retries as [search_paper] does, but an answer
    404 ends it at once: it then returns no paper without sleeping and
    without setting [_api_failed].  It returns no paper also when all five
    answers fail, and only then with [_api_failed] set: "not found" and
    "could not ask" differ in the failure fields alone. *)
Theorem doi_lookup_not_found_is_no_failure (doi : string) (s : State) :
  let pass i :=
    {| status := status_of (get_doi net (clock s + i) doi);
       slept := Some (2 ^ i) |} in
  let after (k : nat) (last : list Attempt) (failed : bool) :=
    {| _api_failed := if failed then true else _api_failed s;
       _failure_reason :=
         if failed then Some "rate_limited_or_timeout" else _failure_reason s;
       clock := clock s + (k + length last);
       calls := calls s ++
         [ {| call := DoiLookup doi; call_clock := clock s;
              attempts := map pass (seq 0 k) ++ last |} ] |} in
  exists k,
    k <= 5
    /\ (forall i, i < k ->
          status_of (get_doi net (clock s + i) doi) <> S200
          /\ status_of (get_doi net (clock s + i) doi) <> S404)
    /\ ((k < 5
         /\ exists paper,
              get_doi net (clock s + k) doi = Ok paper
              /\ get_paper_by_doi doi s
                 = (Returned (Some paper),
                    after k [ {| status := S200; slept := None |} ] false))
        \/ (k < 5
            /\ get_doi net (clock s + k) doi = NotFound
            /\ get_paper_by_doi doi s
               = (Returned None,
                  after k [ {| status := S404; slept := None |} ] false))
        \/ (k = 5
            /\ get_paper_by_doi doi s = (Returned None, after 5 [] true))).
Proof.
  intros pass after.
  destruct (doi_attempts_passes max_retries 0 doi (clock s))
    as (k & Hk & Hfail & Hend).
  exists k. split; [exact Hk|]. split; [exact Hfail|].
  unfold SemanticScholar.get_paper_by_doi, after.
  destruct Hend as [(Hlt & paper & Hok & ->)|[(Hlt & Hnot & ->)|(-> & ->)]].
  - left. split; [exact Hlt|]. exists paper. split; [exact Hok|].
    unfold record_call. cbn [attempts].
    by rewrite length_app, length_map, length_seq.
  - right. left. split; [exact Hlt|]. split; [exact Hnot|].
    unfold record_call. cbn [attempts].
    by rewrite length_app, length_map, length_seq.
  - right. right. split; [done|].
    unfold record_call. cbn [attempts]. by rewrite app_nil_r.
Qed.

(** *** Verifications that return *)

Local Abbreviation returns := (@SemanticScholar.returns).

Lemma returns_ret {A} (a : A) (Q : A -> Prop) : Q a -> returns A (mret a) Q.
Proof. intros Ha s. by exists a, s. Qed.

Lemma returns_bind {A B} (m : M A) (f : A -> M B) (P : A -> Prop)
    (Q : B -> Prop) :
  returns A m P -> (forall a, P a -> returns B (f a) Q) ->
  returns B (m ≫= f) Q.
Proof.
  intros Hm Hf s. destruct (Hm s) as (a & s1 & Hrun & Ha).
  rewrite bind_run, Hrun. by apply Hf.
Qed.

Lemma returns_search_paper (query : string) :
  returns _ (search_paper query) (fun _ => True).
Proof.
  intros s. destruct (search_paper_call query s) as (data & atts & -> & _).
  by eexists _, _.
Qed.

Lemma returns_get_paper_by_doi (doi : string) :
  returns _ (get_paper_by_doi doi) (fun _ => True).
Proof.
  intros s. destruct (get_paper_by_doi_call doi s) as (paper & atts & -> & _).
  by eexists _, _.
Qed.

Lemma returns_arxiv_api (arxiv_id : string) :
  returns _ (_get_paper_from_arxiv_api arxiv_id) (fun _ => True).
Proof.
  intros s. unfold SemanticScholar._get_paper_from_arxiv_api.
  destruct (get_arxiv net (clock s) arxiv_id); by eexists _, _.
Qed.

(** The candidate is there, or the title that the raw-text scoring reads
    is bound, or there is no raw text to search for. *)
Local Abbreviation scorable reference l :=
  (paper_data l <> None \/ cleaned_title l <> None
   \/ ref_raw_text reference = "").

Lemma choose_cleaned_title search_results title reference (l : Locals) :
  cleaned_title (choose search_results title reference l) = cleaned_title l.
Proof.
  unfold SemanticScholar.choose.
  destruct (find_best_match _ _ _ _) as [[m|] score]; [|done].
  by destruct (Qgeb score SIMILARITY_THRESHOLD).
Qed.

Lemma returns_doi_strategy (doi : option string) :
  returns _ (doi_strategy doi) (fun _ => True).
Proof.
  unfold SemanticScholar.doi_strategy. destruct doi as [d|].
  - eapply returns_bind; [apply returns_get_paper_by_doi|].
    intros paper _. by apply returns_ret.
  - by apply returns_ret.
Qed.

Lemma returns_title_strategy (reference : Reference) (l : Locals) :
  ref_title reference <> "" \/ ref_raw_text reference = "" ->
  returns _ (title_strategy reference l) (fun l' => scorable reference l').
Proof.
  intros Href. unfold SemanticScholar.title_strategy.
  destruct (paper_data l) as [paper|] eqn:Hp.
  { apply returns_ret. left. by rewrite Hp. }
  destruct (Text.nonempty (ref_title reference)) eqn:Htitle.
  - eapply returns_bind; [apply returns_search_paper|].
    intros [|result results] _; apply returns_ret; right; left;
      by rewrite ?choose_cleaned_title.
  - apply returns_ret. right. right.
    destruct Href as [Hne|Hraw]; [|done].
    by destruct (ref_title reference).
Qed.

Lemma returns_arxiv_strategy (reference : Reference) (l : Locals) :
  scorable reference l ->
  returns _ (arxiv_strategy reference l) (fun l' => scorable reference l').
Proof.
  intros Hl. unfold SemanticScholar.arxiv_strategy.
  assert (Hkeep : returns _ (mret l) (fun l' => scorable reference l'))
    by (by apply returns_ret).
  destruct (paper_data l) as [paper|]; [exact Hkeep|].
  destruct (arxiv_id_in_url (ref_url reference)) as [arxiv_id|];
    [|exact Hkeep].
  eapply returns_bind; [apply returns_search_paper|]. intros results _.
  destruct (List.find _ results) as [result|]; [apply returns_ret; by left|].
  eapply returns_bind; [apply returns_arxiv_api|]. intros [p|] _.
  - apply returns_ret. by left.
  - exact Hkeep.
Qed.

Lemma returns_raw_text_strategy (reference : Reference) (l : Locals) :
  scorable reference l ->
  returns _ (raw_text_strategy reference l) (fun _ => True).
Proof.
  intros Hl. unfold SemanticScholar.raw_text_strategy.
  destruct (paper_data l) as [paper|] eqn:Hp; [by apply returns_ret|].
  destruct (Text.nonempty (ref_raw_text reference)) eqn:Hraw;
    [|by apply returns_ret].
  eapply returns_bind; [apply returns_search_paper|].
  intros [|result results] _; [by apply returns_ret|].
  destruct (cleaned_title l) as [cleaned|] eqn:Hc; [by apply returns_ret|].
  destruct Hl as [Hl|[Hl|Hl]]; [done|done|].
  by rewrite Hl in Hraw.
Qed.

(** X3.  A verification of a citation that has a title, or that has no
    raw text, returns a verdict, whatever the network answers: it raises
    nothing.  So [verify_reference] can only raise for a citation that has
    raw text and no title. *)
Theorem verification_returns (reference : Reference) :
  (ref_title reference <> "" \/ ref_raw_text reference = "" ->
   forall s, exists verdict s',
     verify_reference reference s = (Returned verdict, s'))
  /\ forall s e s',
       verify_reference reference s = (Raised e, s') ->
       ref_title reference = "" /\ ref_raw_text reference <> "".
Proof.
  assert (Hreturns :
    ref_title reference <> "" \/ ref_raw_text reference = "" ->
    forall s, exists verdict s',
      verify_reference reference s = (Returned verdict, s')).
  { intros Href s.
    assert (H : returns _ (verify_reference reference) (fun _ => True)).
    { unfold SemanticScholar.verify_reference, SemanticScholar.resolve.
      eapply returns_bind; [|intros l _].
      - eapply returns_bind with (P := fun _ => True);
          [intros s0; by eexists _, _|]. intros _ _.
        eapply returns_bind; [apply returns_doi_strategy|]. intros l0 _.
        eapply returns_bind; [by apply returns_title_strategy|]. intros l1 Hl1.
        eapply returns_bind; [by apply returns_arxiv_strategy|]. intros l2 Hl2.
        by apply returns_raw_text_strategy.
      - destruct (paper_data l) as [paper|]; [by apply returns_ret|].
        eapply returns_bind with (P := fun _ => True);
          [intros s0; by eexists _, _|]. intros s0 _.
        destruct (_api_failed s0); by apply returns_ret. }
    destruct (H s) as (verdict & s' & Hrun & _). by exists verdict, s'. }
  split; [exact Hreturns|].
  intros s e s' Hraised.
  destruct (ref_title reference) as [|c title] eqn:Htitle.
  - split; [done|]. intros Hraw.
    destruct (Hreturns (or_intror Hraw) s) as (verdict & s1 & Hrun).
    congruence.
  - assert (Hne : String c title <> "") by done.
    destruct (Hreturns (or_introl Hne) s) as (verdict & s1 & Hrun).
    congruence.
Qed.

Lemma returns_resolve (reference : Reference) :
  ref_title reference <> "" \/ ref_raw_text reference = "" ->
  returns _ (resolve reference) (fun _ => True).
Proof.
  intros Href. unfold SemanticScholar.resolve.
  eapply returns_bind with (P := fun _ => True);
    [intros s0; by eexists _, _|]. intros _ _.
  eapply returns_bind; [apply returns_doi_strategy|]. intros l0 _.
  eapply returns_bind; [by apply returns_title_strategy|]. intros l1 Hl1.
  eapply returns_bind; [by apply returns_arxiv_strategy|]. intros l2 Hl2.
  by apply returns_raw_text_strategy.
Qed.

(** X4.  For a citation that has a title, or that has no raw text, the
    strategies return; and when they return without a candidate, the
    verdict has no record and no URL, and its findings are the one
    [api_failure] finding when a call of this verification exhausted its
    retries, and none otherwise.  Every call made was answered by the
    network as recorded. *)
Theorem titled_reference_verdict (reference : Reference) (failed : bool)
    (reason : option string) (t : nat) :
  ref_title reference <> "" \/ ref_raw_text reference = "" ->
  exists l s',
    resolve reference (start failed reason t) = (Returned l, s')
    /\ (paper_data l = None ->
        Forall (faithful net) (calls s')
        /\ verify_reference reference (start failed reason t)
           = (Returned
                (None,
                 if existsb exhausted (calls s')
                 then [ {[ "error_type" := Str "api_failure";
                           "error_details" :=
                             Str "Semantic Scholar API failed: rate_limited_or_timeout" ]} ]
                 else [],
                 None), s')).
Proof.
  intros Href.
  destruct (returns_resolve reference Href (start failed reason t))
    as (l & s' & Hrun & _).
  exists l, s'. split; [exact Hrun|]. intros Hnone.
  destruct (no_candidate_verdict reference failed reason t l s' Hrun Hnone)
    as (Hfaithful & Hexhausted & Hquiet).
  split; [exact Hfaithful|].
  destruct (existsb exhausted (calls s')); [by apply Hexhausted|by apply Hquiet].
Qed.

(** *** The cost of a verification *)

Local Abbreviation within := (@SemanticScholar.within).

Lemma within_weaken {A} (m : M A) (n c z n' c' z' : nat) :
  within n c z A m -> n <= n' -> c <= c' -> z <= z' -> within n' c' z' A m.
Proof.
  intros Hm Hn Hc Hz s. destruct (Hm s) as (cs & H1 & H2 & H3 & H4 & H5).
  exists cs. repeat split; try done; lia.
Qed.

Lemma within_still {A} (m : M A) :
  (forall s, calls (snd (m s)) = calls s /\ clock (snd (m s)) = clock s) ->
  within 0 0 0 A m.
Proof.
  intros Hm s. destruct (Hm s) as [Hcalls Hclock].
  exists []. rewrite Hcalls, Hclock, app_nil_r. simpl.
  repeat split; try done; unfold requests_of; simpl; lia.
Qed.

Lemma within_ret {A} (a : A) : within 0 0 0 A (mret a).
Proof. by apply within_still. Qed.

Lemma within_raise {A} (e : Exception) : within 0 0 0 A (raise e).
Proof. by apply within_still. Qed.

Lemma within_bind {A B} (m : M A) (f : A -> M B) (n c z n' c' z' : nat) :
  within n c z A m -> (forall a, within n' c' z' B (f a)) ->
  within (n + n') (c + c') (z + z') B (m ≫= f).
Proof.
  intros Hm Hf s. rewrite bind_run.
  destruct (Hm s) as (cs & H1 & H2 & H3 & H4 & H5).
  destruct (m s) as [[a|e] s1]; simpl in *.
  - destruct (Hf a s1) as (cs' & H1' & H2' & H3' & H4' & H5').
    exists (cs ++ cs').
    unfold requests_of in *.
    rewrite H1', H1, H2', H2, !sum_list_with_app, length_app, <- (assoc_L (++)).
    repeat split; try done; lia.
  - exists cs. repeat split; try done; lia.
Qed.

Lemma slept_passes (f : nat -> Status) (k : nat) :
  sum_list_with (fun a => default 0 (slept a))
    (map (fun i => {| status := f i; slept := Some (2 ^ i) |}) (seq 0 k)) + 1
  = 2 ^ k.
Proof.
  induction k as [|k IH]; [done|].
  rewrite seq_S, map_app, sum_list_with_app. simpl. lia.
Qed.

Lemma within_record {A} (m : M A) (c : Call) (n z : nat) :
  (forall s, exists a atts failed,
     m s = (Returned a, record_call c atts failed s)
     /\ length atts <= n
     /\ sum_list_with (fun a => default 0 (slept a)) atts <= z) ->
  within n 1 z A m.
Proof.
  intros Hm s. destruct (Hm s) as (a & atts & failed & -> & Hn & Hz).
  exists [ {| call := c; call_clock := clock s; attempts := atts |} ].
  unfold requests_of, slept_in. simpl.
  repeat split; try done; lia.
Qed.

Lemma within_search_paper (query : string) :
  within 5 1 31 _ (search_paper query).
Proof.
  apply (within_record _ (Search query)). intros s.
  destruct (search_attempts_passes max_retries 0 query (clock s))
    as (k & Hk & _ & Hend).
  pose proof (slept_passes
    (fun i => status_of (get_search net (clock s + i) query)) k) as Hslept.
  assert (2 ^ k <= 2 ^ 5) by (apply Nat.pow_le_mono_r; [lia|exact Hk]).
  unfold SemanticScholar.search_paper.
  destruct Hend as [(Hlt & data & _ & ->)|(-> & ->)]; eexists _, _, _;
    (split; [reflexivity|]);
    rewrite ?sum_list_with_app, ?length_app, length_map, length_seq;
    simpl in *; unfold max_retries in *; lia.
Qed.

Lemma within_get_paper_by_doi (doi : string) :
  within 5 1 31 _ (get_paper_by_doi doi).
Proof.
  apply (within_record _ (DoiLookup doi)). intros s.
  destruct (doi_attempts_passes max_retries 0 doi (clock s))
    as (k & Hk & _ & Hend).
  pose proof (slept_passes
    (fun i => status_of (get_doi net (clock s + i) doi)) k) as Hslept.
  assert (2 ^ k <= 2 ^ 5) by (apply Nat.pow_le_mono_r; [lia|exact Hk]).
  unfold SemanticScholar.get_paper_by_doi.
  destruct Hend as [(Hlt & paper & _ & ->)|[(Hlt & _ & ->)|(-> & ->)]];
    eexists _, _, _;
    (split; [reflexivity|]);
    rewrite ?sum_list_with_app, ?length_app, length_map, length_seq;
    simpl in *; unfold max_retries in *; lia.
Qed.

Lemma within_arxiv_api (arxiv_id : string) :
  within 1 1 0 _ (_get_paper_from_arxiv_api arxiv_id).
Proof.
  apply (within_record _ (ArxivApi arxiv_id)). intros s.
  unfold SemanticScholar._get_paper_from_arxiv_api.
  destruct (get_arxiv net (clock s) arxiv_id); eexists _, _, _;
    (split; [reflexivity|]); simpl; lia.
Qed.

Lemma within_doi_strategy (doi : option string) :
  within 5 1 31 _ (doi_strategy doi).
Proof.
  unfold SemanticScholar.doi_strategy. destruct doi as [d|].
  - apply (within_bind _ _ 5 1 31 0 0 0); [apply within_get_paper_by_doi|].
    intros paper. apply within_ret.
  - eapply within_weaken; [apply within_ret|lia..].
Qed.

Lemma within_title_strategy (reference : Reference) (l : Locals) :
  within 5 1 31 _ (title_strategy reference l).
Proof.
  unfold SemanticScholar.title_strategy.
  destruct (paper_data l); [eapply within_weaken; [apply within_ret|lia..]|].
  destruct (Text.nonempty (ref_title reference));
    [|eapply within_weaken; [apply within_ret|lia..]].
  apply (within_bind _ _ 5 1 31 0 0 0); [apply within_search_paper|].
  intros [|result results]; apply within_ret.
Qed.

Lemma within_arxiv_strategy (reference : Reference) (l : Locals) :
  within 6 2 31 _ (arxiv_strategy reference l).
Proof.
  unfold SemanticScholar.arxiv_strategy.
  destruct (paper_data l); [eapply within_weaken; [apply within_ret|lia..]|].
  destruct (arxiv_id_in_url (ref_url reference)) as [arxiv_id|];
    [|eapply within_weaken; [apply within_ret|lia..]].
  apply (within_bind _ _ 5 1 31 1 1 0); [apply within_search_paper|].
  intros results.
  destruct (List.find _ results) as [result|];
    [eapply within_weaken; [apply within_ret|lia..]|].
  apply (within_bind _ _ 1 1 0 0 0 0); [apply within_arxiv_api|].
  intros [p|]; apply within_ret.
Qed.

Lemma within_raw_text_strategy (reference : Reference) (l : Locals) :
  within 5 1 31 _ (raw_text_strategy reference l).
Proof.
  unfold SemanticScholar.raw_text_strategy.
  destruct (paper_data l); [eapply within_weaken; [apply within_ret|lia..]|].
  destruct (Text.nonempty (ref_raw_text reference));
    [|eapply within_weaken; [apply within_ret|lia..]].
  apply (within_bind _ _ 5 1 31 0 0 0); [apply within_search_paper|].
  intros [|result results]; [apply within_ret|].
  destruct (cleaned_title l); [apply within_ret|apply within_raise].
Qed.

(** X5.  One verification makes at most five calls (the DOI lookup, the
    title search, the arXiv search, the arXiv request and the raw-text
    search), which together send at most 21 requests and sleep at most
    124 seconds between retries; the calls are added to the trace of the
    checker, and its clock moves on by the number of requests sent. *)
Theorem verification_cost (reference : Reference) (s : State) :
  exists cs,
    calls (snd (verify_reference reference s)) = calls s ++ cs
    /\ clock (snd (verify_reference reference s)) = clock s + requests_of cs
    /\ requests_of cs <= 21
    /\ length cs <= 5
    /\ sum_list_with slept_in cs <= 124.
Proof.
  assert (H : within 21 5 124 _ (verify_reference reference)).
  { unfold SemanticScholar.verify_reference, SemanticScholar.resolve.
    apply (within_bind _ _ 21 5 124 0 0 0).
    - apply (within_bind _ _ 0 0 0 21 5 124); [by apply within_still|].
      intros _.
      apply (within_bind _ _ 5 1 31 16 4 93); [apply within_doi_strategy|].
      intros l0.
      apply (within_bind _ _ 5 1 31 11 3 62); [apply within_title_strategy|].
      intros l1.
      apply (within_bind _ _ 6 2 31 5 1 31); [apply within_arxiv_strategy|].
      intros l2. apply within_raw_text_strategy.
    - intros l. destruct (paper_data l) as [paper|]; [apply within_ret|].
      apply (within_bind _ _ 0 0 0 0 0 0); [by apply within_still|].
      intros s0. destruct (_api_failed s0); apply within_ret. }
  exact (H s).
Qed.

(** *** The findings of a verdict *)

Lemma before_hash_take (s : string) :
  before_hash s = Text.take_until (fun c => Ascii.eqb c "#") s.
Proof.
  unfold before_hash, Text.split_on.
  by destruct (split_on_first "#" "" s) as [parts ->].
Qed.

Lemma doi_error_only_from_doi (reference : Reference) (doi : option string)
    (found_title : string) (paper : Paper) :
  List.filter (has_type "error_type" "doi")
    (findings reference doi found_title paper)
  = SemanticScholar.doi_findings doi paper.
Proof.
  unfold SemanticScholar.findings. rewrite !List.filter_app.
  assert (List.filter (has_type "error_type" "doi")
            (title_findings reference found_title paper) = []) as ->
    by findings_cases.
  assert (List.filter (has_type "error_type" "doi")
            (author_findings reference paper) = []) as ->
    by findings_cases.
  assert (List.filter (has_type "error_type" "doi")
            (SemanticScholar.year_findings reference paper) = []) as ->
    by findings_cases.
  assert (List.filter (has_type "error_type" "doi")
            (venue_findings reference paper) = []) as ->
    by findings_cases.
  simpl. findings_cases.
Qed.

Lemma venue_warning_only_from_venue (reference : Reference)
    (doi : option string) (found_title : string) (paper : Paper) :
  List.filter (has_type "warning_type" "venue")
    (findings reference doi found_title paper)
  = venue_findings reference paper.
Proof.
  unfold SemanticScholar.findings. rewrite !List.filter_app.
  assert (List.filter (has_type "warning_type" "venue")
            (title_findings reference found_title paper) = []) as ->
    by findings_cases.
  assert (List.filter (has_type "warning_type" "venue")
            (author_findings reference paper) = []) as ->
    by findings_cases.
  assert (List.filter (has_type "warning_type" "venue")
            (SemanticScholar.year_findings reference paper) = []) as ->
    by findings_cases.
  assert (List.filter (has_type "warning_type" "venue")
            (SemanticScholar.doi_findings doi paper) = []) as ->
    by findings_cases.
  rewrite app_nil_r. simpl. findings_cases.
Qed.

(** The kind and the severity of what each check may find. *)
Ltac one_finding :=
  findings_cases;
  first
    [ split; [apply sublist_nil_l|constructor]
    | split;
      [ vm_compute; apply sublist_skip, sublist_nil_l
      | apply Forall_singleton; vm_compute; eauto 10 ] ].

(** X6.  The findings of a verdict with a paper come in the order of
    the checks, at most one for each field: title, author, year, venue,
    DOI.  A title or DOI finding is an error, a year or venue finding is a
    warning, and an author finding is one or the other. *)
Theorem findings_one_per_field (reference : Reference) (s s' : State)
    (paper : Paper) (errors : list Finding) (url : option string) :
  verify_reference reference s = (Returned (Some paper, errors, url), s') ->
  map kind_of errors
    `sublist_of` [ Some (Str "title"); Some (Str "author"); Some (Str "year");
                   Some (Str "venue"); Some (Str "doi") ]
  /\ Forall
       (fun f =>
          (kind_of f = Some (Str "title") /\ severity f = Some true)
          \/ (kind_of f = Some (Str "author") /\ is_Some (severity f))
          \/ (kind_of f = Some (Str "year") /\ severity f = Some false)
          \/ (kind_of f = Some (Str "venue") /\ severity f = Some false)
          \/ (kind_of f = Some (Str "doi") /\ severity f = Some true))
       errors.
Proof.
  intros (l & _ & _ & -> & _)%verify_reference_accepted.
  unfold SemanticScholar.findings.
  set (P := fun f : Finding =>
          (kind_of f = Some (Str "title") /\ severity f = Some true)
          \/ (kind_of f = Some (Str "author") /\ is_Some (severity f))
          \/ (kind_of f = Some (Str "year") /\ severity f = Some false)
          \/ (kind_of f = Some (Str "venue") /\ severity f = Some false)
          \/ (kind_of f = Some (Str "doi") /\ severity f = Some true)).
  assert (Htitle :
    map kind_of (title_findings reference (found_title l) paper)
      `sublist_of` [Some (Str "title")]
    /\ Forall P (title_findings reference (found_title l) paper))
    by (subst P; one_finding).
  assert (Hauthor :
    map kind_of (author_findings reference paper)
      `sublist_of` [Some (Str "author")]
    /\ Forall P (author_findings reference paper))
    by (subst P; one_finding).
  assert (Hyear :
    map kind_of (SemanticScholar.year_findings reference paper)
      `sublist_of` [Some (Str "year")]
    /\ Forall P (SemanticScholar.year_findings reference paper))
    by (subst P; one_finding).
  assert (Hvenue :
    map kind_of (venue_findings reference paper)
      `sublist_of` [Some (Str "venue")]
    /\ Forall P (venue_findings reference paper))
    by (subst P; one_finding).
  assert (Hdoi :
    map kind_of (SemanticScholar.doi_findings (cited_doi reference) paper)
      `sublist_of` [Some (Str "doi")]
    /\ Forall P (SemanticScholar.doi_findings (cited_doi reference) paper))
    by (subst P; one_finding).
  split.
  - rewrite !map_app.
    apply (sublist_app _ [Some (Str "title")] _ _); [apply Htitle|].
    apply (sublist_app _ [Some (Str "author")] _ _); [apply Hauthor|].
    apply (sublist_app _ [Some (Str "year")] _ _); [apply Hyear|].
    apply (sublist_app _ [Some (Str "venue")] _ [Some (Str "doi")]);
      [apply Hvenue|apply Hdoi].
  - repeat (apply Forall_app; split);
      [apply Htitle|apply Hauthor|apply Hyear|apply Hvenue|apply Hdoi].
Qed.

Lemma lower_empty (s : string) : Text.lower s = "" <-> s = "".
Proof. by destruct s. Qed.

(** X7.  The DOIs of the citation and of the paper are compared without
    their fragments (the text from the first hash on) and without regard
    to case.  The verdict has a DOI error exactly when both DOIs are
    there, both are non-empty before the hash, and they differ there by more
    than case; the error then shows both DOIs in full. *)
Theorem doi_compared_before_hash (reference : Reference) (s s' : State)
    (paper : Paper) (errors : list Finding) (url : option string) :
  verify_reference reference s = (Returned (Some paper, errors, url), s') ->
  let cut := Text.take_until (fun c => Ascii.eqb c "#") in
  let doi_errors := List.filter (has_type "error_type" "doi") errors in
  (doi_errors <> [] <->
   exists cited paper_doi,
     cited_doi reference = Some cited
     /\ paper_externalIds paper !! "DOI" = Some paper_doi
     /\ cut cited <> "" /\ cut paper_doi <> ""
     /\ Text.lower (cut cited) <> Text.lower (cut paper_doi))
  /\ forall cited paper_doi,
       doi_errors <> [] ->
       cited_doi reference = Some cited ->
       paper_externalIds paper !! "DOI" = Some paper_doi ->
       doi_errors
       = [ {[ "error_type" := Str "doi";
              "error_details" :=
                Str ("DOI mismatch: cited as " ++ cited
                     ++ " but actually " ++ paper_doi)%string;
              "ref_doi_correct" := Str paper_doi ]} ].
Proof.
  intros (l & _ & _ & -> & _)%verify_reference_accepted cut doi_errors.
  subst doi_errors. rewrite doi_error_only_from_doi.
  unfold SemanticScholar.doi_findings.
  destruct (paper_externalIds paper !! "DOI") as [paper_doi|] eqn:Hpaper.
  2: { split; [|done]. split; [done|]. by intros (? & ? & _ & ? & _). }
  assert (Hpaper_clean :
    (if Text.nonempty paper_doi then before_hash paper_doi else "")
    = cut paper_doi).
  { rewrite before_hash_take. by destruct paper_doi. }
  rewrite Hpaper_clean.
  destruct (cited_doi reference) as [cited|] eqn:Hcited.
  2: { cbn [Text.nonempty andb]. split; [|done].
       split; [done|]. by intros (? & ? & ? & _). }
  rewrite before_hash_take. fold cut. cbn [default].
  destruct (cut cited) as [|c1 cited_clean] eqn:Hc1.
  { cbn [Text.nonempty andb]. split; [|done]. split; [done|].
    intros (? & ? & [= <-] & _ & Hne & _). by rewrite Hc1 in Hne. }
  destruct (cut paper_doi) as [|c2 paper_clean] eqn:Hc2.
  { cbn [Text.nonempty andb]. split; [|done]. split; [done|].
    intros (? & ? & _ & [= <-] & _ & Hne & _). by rewrite Hc2 in Hne. }
  cbn [Text.nonempty andb].
  destruct (String.eqb_spec (Text.lower (String c1 cited_clean))
              (Text.lower (String c2 paper_clean))) as [Heq|Hne];
    cbn [negb].
  - split; [|done]. split; [done|].
    intros (? & ? & [= <-] & [= <-] & _ & _ & Hne).
    by rewrite Hc1, Hc2 in Hne.
  - split.
    + split; [|done]. intros _. exists cited, paper_doi.
      rewrite Hc1, Hc2. done.
    + by intros ? ? _ [= <-] [= <-].
Qed.

(** X8.  A citation without journal and venue that is resolved to a
    paper with a venue and an arXiv identifier gets the venue warning that
    asks for the arXiv URL, whatever its own URL is: also when it cites
    this very URL. *)
Theorem arxiv_url_asked_without_venue (reference : Reference) (s s' : State)
    (paper : Paper) (errors : list Finding) (url : option string)
    (arxiv_id : string) :
  verify_reference reference s = (Returned (Some paper, errors, url), s') ->
  ref_journal reference = "" -> ref_venue reference = "" ->
  paper_venue_text paper <> "" ->
  get_truthy (paper_externalIds paper) "ArXiv" = Some arxiv_id ->
  List.filter (has_type "warning_type" "venue") errors
  = [ {[ "warning_type" := Str "venue";
         "warning_details" :=
           Str ("Reference should include arXiv URL: https://arxiv.org/abs/"
                ++ arxiv_id)%string;
         "ref_url_correct" := Str ("https://arxiv.org/abs/" ++ arxiv_id)%string ]} ].
Proof.
  intros (l & _ & _ & -> & _)%verify_reference_accepted Hjournal Hvenue Hpaper Hid.
  rewrite venue_warning_only_from_venue.
  unfold SemanticScholar.venue_findings.
  rewrite Hjournal, Hvenue, Hid. cbn [Text.nonempty andb negb].
  by destruct (paper_venue_text paper).
Qed.

End CheckerFacts.

(** *** Sample verifications *)

(** With every request rate limited, the three searches for the first
    citation exhaust their retries, and the verdict is the one
    [api_failure] finding. *)
Lemma no_candidate_verdict_sample :
  SemanticScholar.verify_reference Examples.offline Examples.same_text
    Examples.same_text Examples.first_result Examples.similarity
    Examples.authors_agree Examples.venues_differ Examples.doi_url
    Examples.threshold Examples.attention (SemanticScholar.start false None 0)
  = (SemanticScholar.Returned
       (None,
        [ {[ "error_type" := Str "api_failure";
             "error_details" :=
               Str "Semantic Scholar API failed: rate_limited_or_timeout" ]} ],
        None),
     snd (SemanticScholar.resolve Examples.offline Examples.same_text
            Examples.same_text Examples.first_result Examples.threshold
            Examples.attention (SemanticScholar.start false None 0))).
Proof.
  refine (proj1 (proj2
    (no_candidate_verdict Examples.offline Examples.same_text
       Examples.same_text Examples.first_result Examples.similarity
       Examples.authors_agree Examples.venues_differ Examples.doi_url
       Examples.threshold Examples.attention false None 0
       {| SemanticScholar.paper_data := None;
          SemanticScholar.found_title := "";
          SemanticScholar.cleaned_title := Some "Attention is All You Need" |}
       _ _ _)) _).
  - by vm_compute.
  - reflexivity.
  - by vm_compute.
Defined.

(** C2.  The claim fails on the code.  A citation without a title, with a
    DOI and with raw text: the lookup of the DOI is rate limited five times
    and exhausts its retries, so the failure fields are set; no title
    search is made; the raw-text search finds a record, and its scoring
    (line 331) reads [cleaned_title], which is bound only by the title
    search (line 272).  No strategy has given a candidate and a lookup has
    exhausted its retries, but [verify_reference] raises
    [UnboundLocalError]: it returns no verdict, and no [api_failure]
    finding. *)
Theorem exhausted_lookup_not_reported :
  let out := Examples.run Examples.outage Examples.untitled_doi in
  fst out = SemanticScholar.Raised (SemanticScholar.UnboundLocalError "cleaned_title")
  /\ map SemanticScholar.call (SemanticScholar.calls (snd out))
     = [ SemanticScholar.DoiLookup "10.1109/CVPR.2016.90";
         SemanticScholar.Search "anonymous. some report." ]
  /\ map SemanticScholar.exhausted (SemanticScholar.calls (snd out))
     = [ true; false ]
  /\ Forall (SemanticScholar.faithful Examples.outage)
       (SemanticScholar.calls (snd out))
  /\ SemanticScholar._api_failed (snd out) = true
  /\ SemanticScholar._failure_reason (snd out) = Some "rate_limited_or_timeout".
Proof.
  cbv zeta. split; [vm_compute; reflexivity|].
  split; [vm_compute; reflexivity|]. split; [vm_compute; reflexivity|].
  split; [|split; vm_compute; reflexivity].
  assert (Hcalls : SemanticScholar.calls
            (snd (Examples.run Examples.outage Examples.untitled_doi))
    = [ {| SemanticScholar.call := SemanticScholar.DoiLookup "10.1109/CVPR.2016.90";
           SemanticScholar.call_clock := 0;
           SemanticScholar.attempts :=
             map (fun i =>
                    {| SemanticScholar.status := SemanticScholar.S429;
                       SemanticScholar.slept := Some (2 ^ i) |})
                 [0; 1; 2; 3; 4] |};
        {| SemanticScholar.call := SemanticScholar.Search "anonymous. some report.";
           SemanticScholar.call_clock := 5;
           SemanticScholar.attempts :=
             [ {| SemanticScholar.status := SemanticScholar.S200;
                  SemanticScholar.slept := None |} ] |} ])
    by (vm_compute; reflexivity).
  rewrite Hcalls.
  apply Forall_cons_2; [|apply Forall_cons_2; [|apply Forall_nil_2]].
  - unfold SemanticScholar.faithful. cbn [SemanticScholar.call]. split; [|done].
    intros _ i Hi. split; done.
  - unfold SemanticScholar.faithful. cbn [SemanticScholar.call].
    split; [done|]. intros H. specialize (H 0 (Nat.lt_0_succ 4)). done.
Qed.

(** The second citation has a DOI, and the lookup finds a record at the
    second attempt: the lookup is the only call. *)
Lemma identifier_lookup_short_circuits_sample :
  exists d r errors url s',
    SemanticScholar.cited_doi Examples.resnet = Some d
    /\ SemanticScholar.verify_reference Examples.library Examples.same_text
         Examples.same_text Examples.first_result Examples.similarity
         Examples.authors_agree Examples.venues_differ Examples.doi_url
         Examples.threshold Examples.resnet (SemanticScholar.start false None 0)
       = (SemanticScholar.Returned (Some Examples.he2016, errors, url), s')
    /\ SemanticScholar.calls s' = [r]
    /\ SemanticScholar.call r = SemanticScholar.DoiLookup d
    /\ existsb SemanticScholar.is_search (SemanticScholar.calls s') = false
    /\ existsb SemanticScholar.is_arxiv_api (SemanticScholar.calls s') = false.
Proof.
  refine (identifier_lookup_short_circuits Examples.library Examples.same_text
            Examples.same_text Examples.first_result Examples.similarity
            Examples.authors_agree Examples.venues_differ Examples.doi_url
            Examples.threshold Examples.resnet false None 0 Examples.he2016 _).
  by vm_compute.
Defined.

Lemma sample_run_accepts (reference : Reference) (paper : Paper) :
  fst (Examples.run Examples.library reference)
  = SemanticScholar.Returned
      (Some paper, Examples.errors_of (Examples.run Examples.library reference),
       Examples.url_of (Examples.run Examples.library reference)) ->
  SemanticScholar.verify_reference Examples.library Examples.same_text
    Examples.same_text Examples.first_result Examples.similarity
    Examples.authors_agree Examples.venues_differ Examples.doi_url
    Examples.threshold reference (SemanticScholar.start false None 0)
  = (SemanticScholar.Returned
       (Some paper, Examples.errors_of (Examples.run Examples.library reference),
        Examples.url_of (Examples.run Examples.library reference)),
     snd (Examples.run Examples.library reference)).
Proof.
  intros H. rewrite <- H. unfold Examples.run.
  by destruct (SemanticScholar.verify_reference _ _ _ _ _ _ _ _ _ _ _).
Qed.

(** C6 does not hold as stated.  The second citation is resolved by its
    DOI to a record with another title; the similarity of the two titles
    is below the threshold, and the verdict has no [title] finding. *)
Lemma title_not_compared_after_identifier_lookup :
  fst (Examples.run Examples.library Examples.resnet)
  = SemanticScholar.Returned
      (Some Examples.he2016,
       Examples.errors_of (Examples.run Examples.library Examples.resnet),
       Examples.url_of (Examples.run Examples.library Examples.resnet))
  /\ SemanticScholar.doi_lookup_result Examples.library Examples.resnet 0
     = Some Examples.he2016
  /\ Qltb (Examples.similarity (ref_title Examples.resnet)
             (paper_title Examples.he2016)) Examples.threshold = true
  /\ List.filter (has_type "error_type" "title")
       (Examples.errors_of (Examples.run Examples.library Examples.resnet)) = [].
Proof. repeat split; vm_compute; reflexivity. Qed.

(** The same citation without its DOI is found by the title search, and
    the verdict starts with the [title] error. *)
Lemma title_compared_after_search_sample :
  List.filter (has_type "error_type" "title")
    (Examples.errors_of (Examples.run Examples.library Examples.resnet_by_title))
  = [ {[ "error_type" := Str "title";
         "error_details" :=
           Str ("Title mismatch: cited as '" ++ ref_title Examples.resnet_by_title
                ++ "' but actually '" ++ paper_title Examples.he2016 ++ "'");
         "ref_title_correct" := Str (paper_title Examples.he2016) ]} ].
Proof.
  refine (proj1 (proj1
    (title_compared_after_search Examples.library Examples.same_text
       Examples.same_text Examples.first_result Examples.similarity
       Examples.authors_agree Examples.venues_differ Examples.doi_url
       Examples.threshold Examples.resnet_by_title false None 0 _
       Examples.he2016 _ _
       (sample_run_accepts Examples.resnet_by_title Examples.he2016 _)) _ _)).
  - vm_compute. reflexivity.
  - vm_compute. reflexivity.
  - vm_compute. reflexivity.
Defined.

(** Cited year 2017, resolved year 2018, everything else in agreement: one
    [year] warning and no error. *)
Lemma year_mismatch_is_warning_sample :
  List.filter (has_type "warning_type" "year")
    (Examples.errors_of (Examples.run Examples.library Examples.attention_doi))
  = [ Examples.year_warning ]
  /\ List.filter is_error
       (Examples.errors_of (Examples.run Examples.library Examples.attention_doi))
     = [].
Proof.
  pose proof
    (year_mismatch_is_warning Examples.library Examples.same_text
       Examples.same_text Examples.first_result Examples.similarity
       Examples.authors_agree Examples.venues_differ Examples.doi_url
       Examples.threshold Examples.attention_doi false None 0 _
       Examples.vaswani2018 _ _ 2018
       (sample_run_accepts Examples.attention_doi Examples.vaswani2018 eq_refl)
       (Nat.neq_succ_0 2016) eq_refl (Nat.neq_succ_0 2017)
       (Nat.lt_neq 2017 2018 (Nat.lt_succ_diag_r 2017)))
    as (Hone & _ & _ & _ & _ & Hnone).
  split; [exact Hone|].
  apply Hnone; [reflexivity|by right|reflexivity].
Defined.

(** The record found for the second citation has two authors, the
    citation one: an [author] error with the two names. *)
Lemma author_mismatch_finding_sample :
  List.filter
    (fun f => has_type "error_type" "author" f || has_type "warning_type" "author" f)
    (Examples.errors_of (Examples.run Examples.library Examples.resnet))
  = [ {[ "error_type" := Str "author";
         "error_details" := Str "Author count mismatch";
         "ref_authors_correct" := Str "Kaiming He, Xiangyu Zhang" ]} ].
Proof.
  refine (proj1
    (author_mismatch_finding Examples.library Examples.same_text
       Examples.same_text Examples.first_result Examples.similarity
       Examples.authors_agree Examples.venues_differ Examples.doi_url
       Examples.threshold Examples.resnet false None 0 _
       Examples.he2016 _ _ "Author count mismatch"
       (sample_run_accepts Examples.resnet Examples.he2016 eq_refl) _ eq_refl)).
  done.
Defined.

(** That record has no arXiv identifier and no open-access PDF: the
    verdict carries its general URL, not the URL of its DOI. *)
Lemma verdict_url_priority_sample :
  Examples.url_of (Examples.run Examples.library Examples.resnet)
  = Some "https://www.semanticscholar.org/paper/77f0a39b".
Proof.
  refine (proj1 (proj2 (proj2
    (verdict_url_priority Examples.library Examples.same_text
       Examples.same_text Examples.first_result Examples.similarity
       Examples.authors_agree Examples.venues_differ Examples.doi_url
       Examples.threshold Examples.resnet false None 0 _
       Examples.he2016 _ _
       (sample_run_accepts Examples.resnet Examples.he2016 eq_refl))))
    eq_refl eq_refl _ eq_refl).
Defined.

(** *** Two notes *)

(** A citation without a title whose raw text finds candidates: the
    scoring of the raw-text search reads [cleaned_title], which was never
    bound, and [verify_reference] raises. *)
Example raw_text_scoring_raises :
  fst (Examples.run Examples.library Examples.untitled)
  = SemanticScholar.Raised (SemanticScholar.UnboundLocalError "cleaned_title").
Proof. by vm_compute. Qed.

(** The URL helper of the local database checker has another order: it
    prefers the open-access PDF, and the DOI to the arXiv identifier. *)
Example get_best_available_url_order :
  UrlUtils.get_best_available_url Examples.same_text
    {[ "ArXiv" := "1706.03762"; "DOI" := "10.5555/3295222.3295349" ]}
    (Some "https://arxiv.org/pdf/1706.03762.pdf")
  = Some "https://arxiv.org/pdf/1706.03762.pdf"
  /\ UrlUtils.get_best_available_url Examples.same_text
       {[ "ArXiv" := "1706.03762"; "DOI" := "10.5555/3295222.3295349" ]} None
     = Some "https://doi.org/10.5555/3295222.3295349".
Proof. by vm_compute. Qed.

(** ** Identifiers in URLs *)

Section IdentifierFacts.

Import SemanticScholar.

Variable construct_doi_url : string -> string.

Local Abbreviation select_url := (SemanticScholar.select_url construct_doi_url).

Lemma search_group_here (lit : string) (stop : ascii -> bool)
    (s rest : string) (c : ascii) (g : string) :
  Text.drop_prefix lit s = Some rest ->
  Text.take_until stop rest = String c g ->
  Text.search_group lit stop s = Some (String c g).
Proof.
  intros Hrest Hg.
  assert (Hat : Text.group_at lit stop s = Some (String c g))
    by (unfold Text.group_at; by rewrite Hrest, Hg).
  destruct s; cbn [Text.search_group]; by rewrite Hat.
Qed.

(** A stretch without the first character of the literal holds no match. *)
Lemma search_group_after (a : ascii) (lit : string) (stop : ascii -> bool)
    (pre s : string) :
  Text.contains (String a "") pre = false ->
  Text.search_group (String a lit) stop (pre ++ s)
  = Text.search_group (String a lit) stop s.
Proof.
  induction pre as [|x pre IH]; [done|].
  rewrite contains_char_cons. intros [Hx Hpre]%orb_false_elim.
  rewrite append_cons. cbn [Text.search_group].
  assert (Text.group_at (String a lit) stop (String x (pre ++ s)) = None) as ->.
  { unfold Text.group_at. cbn [Text.drop_prefix]. by rewrite Hx. }
  by apply IH.
Qed.

(** X9.  The DOI that [extract_doi_from_url] finds in a URL is never empty,
    has no slash and no blank in it, and stands in the URL right after
    [doi.org/]. *)
Theorem extracted_doi_in_url (url doi : string) :
  extract_doi_from_url url = Some doi ->
  doi <> ""
  /\ Text.any (fun c => Ascii.eqb c "/" || Text.isspace c) doi = false
  /\ Text.contains ("doi.org/" ++ doi) url = true.
Proof.
  unfold extract_doi_from_url.
  destruct (Text.nonempty url && Text.contains "doi.org" url); [|done].
  apply search_group_sound.
Qed.

(** X10.  From a [doi.org] URL, [extract_doi_from_url] takes the text up
    to the next slash: of a DOI [registrant/suffix] it returns the
    registrant alone, and this is the DOI of a citation that has no [doi]
    field. *)
Theorem extracted_doi_is_registrant (scheme registrant suffix : string) :
  Text.contains "d" scheme = false ->
  registrant <> "" ->
  Text.any (fun c => Ascii.eqb c "/" || Text.isspace c) registrant = false ->
  let url := scheme ++ "doi.org/" ++ registrant ++ String "/" suffix in
  extract_doi_from_url url = Some registrant
  /\ forall reference,
       ref_doi reference = "" -> ref_url reference = url ->
       cited_doi reference = Some registrant.
Proof.
  intros Hscheme Hne Hstop url.
  assert (Hurl : extract_doi_from_url url = Some registrant).
  { unfold extract_doi_from_url, url.
    assert (Text.nonempty (scheme ++ "doi.org/" ++ registrant ++ String "/" suffix)
            = true) as -> by (by destruct scheme).
    rewrite contains_app_r by done. cbn [andb].
    rewrite search_group_after by done.
    destruct registrant as [|c registrant]; [done|].
    apply (search_group_here _ _ _ (String c registrant ++ String "/" suffix)).
    - apply (drop_prefix_app "doi.org/").
    - by apply take_until_app. }
  split; [exact Hurl|].
  intros reference Hdoi Href. unfold cited_doi. rewrite Hdoi, Href.
  cbn [Text.nonempty].
  by assert (Text.nonempty url = true) as -> by (unfold url; by destruct scheme).
Qed.

(** X11.  The arXiv URL that the checker returns for a paper with an arXiv
    identifier is read back to this identifier: a citation with this URL
    has an exact arXiv match with the paper.  The identifier is taken to
    be one the pattern of the checker can read: not empty, without blank,
    slash, question mark or hash. *)
Theorem arxiv_url_round_trip (paper : Paper) (arxiv_id : string) :
  paper_externalIds paper !! "ArXiv" = Some arxiv_id ->
  arxiv_id <> "" ->
  Text.any (fun c => Text.isspace c || Ascii.eqb c "/" || Ascii.eqb c "?"
                     || Ascii.eqb c "#") arxiv_id = false ->
  let url := "https://arxiv.org/abs/" ++ arxiv_id in
  select_url paper = Some url
  /\ arxiv_id_in_url url = Some arxiv_id
  /\ forall reference,
       ref_url reference = url -> arxiv_id_match reference paper = true.
Proof.
  intros Hid Hne Hstop url.
  assert (Hback : arxiv_id_in_url url = Some arxiv_id).
  { unfold arxiv_id_in_url, url.
    change (Text.nonempty ("https://arxiv.org/abs/" ++ arxiv_id)) with true.
    rewrite (contains_app_r _ "https://" ("arxiv.org/abs/" ++ arxiv_id))
      by (apply contains_prefix, prefix_app).
    cbn [andb].
    rewrite (search_group_after "a" "rxiv.org/abs/" _ "https://"
               ("arxiv.org/abs/" ++ arxiv_id)) by done.
    destruct arxiv_id as [|c arxiv_id]; [done|].
    apply (search_group_here _ _ _ (String c arxiv_id)).
    - apply (drop_prefix_app "arxiv.org/abs/").
    - by apply take_until_all. }
  split; [|split; [exact Hback|]].
  - unfold SemanticScholar.select_url, get_truthy. rewrite Hid.
    by destruct arxiv_id.
  - intros reference Href. unfold arxiv_id_match. rewrite Href, Hback.
    by apply bool_decide_eq_true.
Qed.

End IdentifierFacts.

(** ** Author names *)

Section NameFacts.

Variable normalize_text : string -> string.

Local Abbreviation normalize_author_name :=
  (SemanticScholar.normalize_author_name normalize_text).

(** X12.  [normalize_author_name] removes one reference number in square
    brackets from the start of a name before it normalizes the name; a
    name that does not start with a bracket is normalized as it is. *)
Theorem reference_number_removed (digits name : string) :
  digits <> "" ->
  Text.any (fun c => negb (Text.isdigit c)) digits = false ->
  normalize_author_name ("[" ++ digits ++ "]" ++ name) = normalize_text name
  /\ forall other,
       String.prefix "[" other = false ->
       normalize_author_name other = normalize_text other.
Proof.
  intros Hne Hdigits. split.
  - unfold SemanticScholar.normalize_author_name, Text.bracketed_number.
    change ("[" ++ digits ++ "]" ++ name)
      with (String "[" (digits ++ String "]" name)).
    cbv beta iota zeta. rewrite take_until_app by done.
    destruct digits as [|d digits]; [done|]. by rewrite drop_prefix_app.
  - intros other Hother.
    unfold SemanticScholar.normalize_author_name, Text.bracketed_number.
    destruct other as [|c other]; [done|].
    rewrite prefix_cons in Hother.
    destruct other; rewrite andb_true_r in Hother;
      apply Ascii.eqb_neq in Hother;
      destruct c as [[] [] [] [] [] [] [] []]; done.
Qed.

End NameFacts.

(** *** Sample identifiers *)

(** The DOI URL of the second citation: the DOI read from it is the
    registrant [10.1109]. *)
Lemma extracted_doi_in_url_sample :
  "10.1109" <> ""
  /\ Text.any (fun c => Ascii.eqb c "/" || Text.isspace c) "10.1109" = false
  /\ Text.contains ("doi.org/" ++ "10.1109")
       "https://doi.org/10.1109/CVPR.2016.90" = true.
Proof.
  refine (extracted_doi_in_url "https://doi.org/10.1109/CVPR.2016.90" "10.1109" _).
  reflexivity.
Defined.

Lemma extracted_doi_is_registrant_sample :
  SemanticScholar.extract_doi_from_url "https://doi.org/10.1109/CVPR.2016.90"
  = Some "10.1109".
Proof.
  refine (proj1 (extracted_doi_is_registrant "https://" "10.1109" "CVPR.2016.90"
                   _ _ _)).
  - reflexivity.
  - done.
  - reflexivity.
Defined.

(** The URL returned for the arXiv record of the first citation is the
    URL of the citation. *)
Lemma arxiv_url_round_trip_sample :
  SemanticScholar.arxiv_id_match Examples.attention
    (SemanticScholar.arxiv_paper_data "1706.03762"
       {| SemanticScholar.entry_title := "Attention Is All You Need";
          SemanticScholar.entry_authors := ["Ashish Vaswani"];
          SemanticScholar.entry_year := Some 2017 |}) = true.
Proof.
  refine (proj2 (proj2 (arxiv_url_round_trip Examples.doi_url
    (SemanticScholar.arxiv_paper_data "1706.03762"
       {| SemanticScholar.entry_title := "Attention Is All You Need";
          SemanticScholar.entry_authors := ["Ashish Vaswani"];
          SemanticScholar.entry_year := Some 2017 |})
    "1706.03762" _ _ _)) Examples.attention _).
  - reflexivity.
  - done.
  - reflexivity.
  - reflexivity.
Defined.

Lemma reference_number_removed_sample :
  SemanticScholar.normalize_author_name Examples.same_text "[12]A. Vaswani"
  = Examples.same_text "A. Vaswani".
Proof.
  refine (proj1 (reference_number_removed Examples.same_text "12" "A. Vaswani"
                   _ _)).
  - done.
  - reflexivity.
Defined.

(** *** More sample verifications *)

Lemma sample_run_on (net : SemanticScholar.Network) (reference : Reference)
    (paper : Paper) :
  fst (Examples.run net reference)
  = SemanticScholar.Returned
      (Some paper, Examples.errors_of (Examples.run net reference),
       Examples.url_of (Examples.run net reference)) ->
  SemanticScholar.verify_reference net Examples.same_text
    Examples.same_text Examples.first_result Examples.similarity
    Examples.authors_agree Examples.venues_differ Examples.doi_url
    Examples.threshold reference (SemanticScholar.start false None 0)
  = (SemanticScholar.Returned
       (Some paper, Examples.errors_of (Examples.run net reference),
        Examples.url_of (Examples.run net reference)),
     snd (Examples.run net reference)).
Proof.
  intros H. rewrite <- H. unfold Examples.run.
  by destruct (SemanticScholar.verify_reference _ _ _ _ _ _ _ _ _ _ _).
Qed.

(** The verdict for the second citation has one finding, about the
    authors. *)
Lemma findings_one_per_field_sample :
  map kind_of (Examples.errors_of (Examples.run Examples.library Examples.resnet))
  `sublist_of` [ Some (Str "title"); Some (Str "author"); Some (Str "year");
                 Some (Str "venue"); Some (Str "doi") ].
Proof.
  refine (proj1
    (findings_one_per_field Examples.library Examples.same_text
       Examples.same_text Examples.first_result Examples.similarity
       Examples.authors_agree Examples.venues_differ Examples.doi_url
       Examples.threshold Examples.resnet _ _ Examples.he2016 _ _
       (sample_run_on Examples.library Examples.resnet Examples.he2016 _))).
  vm_compute. reflexivity.
Defined.

(** The second citation and its record have the same DOI: no DOI error. *)
Lemma doi_compared_before_hash_sample :
  List.filter (has_type "error_type" "doi")
    (Examples.errors_of (Examples.run Examples.library Examples.resnet)) <> []
  <-> exists cited paper_doi,
        SemanticScholar.cited_doi Examples.resnet = Some cited
        /\ paper_externalIds Examples.he2016 !! "DOI" = Some paper_doi
        /\ Text.take_until (fun c => Ascii.eqb c "#") cited <> ""
        /\ Text.take_until (fun c => Ascii.eqb c "#") paper_doi <> ""
        /\ Text.lower (Text.take_until (fun c => Ascii.eqb c "#") cited)
           <> Text.lower (Text.take_until (fun c => Ascii.eqb c "#") paper_doi).
Proof.
  refine (proj1
    (doi_compared_before_hash Examples.library Examples.same_text
       Examples.same_text Examples.first_result Examples.similarity
       Examples.authors_agree Examples.venues_differ Examples.doi_url
       Examples.threshold Examples.resnet _ _ Examples.he2016 _ _
       (sample_run_on Examples.library Examples.resnet Examples.he2016 _))).
  vm_compute. reflexivity.
Defined.

(** The first citation gives the arXiv URL of its preprint and no venue:
    resolved by the arXiv endpoint, it is asked to include this URL. *)
Lemma arxiv_url_asked_without_venue_sample :
  ref_url Examples.attention = "https://arxiv.org/abs/1706.03762"
  /\ List.filter (has_type "warning_type" "venue")
       (Examples.errors_of
          (Examples.run Examples.preprint_server Examples.attention))
     = [ {[ "warning_type" := Str "venue";
            "warning_details" :=
              Str ("Reference should include arXiv URL: https://arxiv.org/abs/"
                   ++ "1706.03762");
            "ref_url_correct" := Str ("https://arxiv.org/abs/" ++ "1706.03762") ]} ].
Proof.
  split; [reflexivity|].
  refine (arxiv_url_asked_without_venue Examples.preprint_server
    Examples.same_text Examples.same_text Examples.first_result
    Examples.similarity Examples.authors_agree Examples.venues_differ
    Examples.doi_url Examples.threshold Examples.attention _ _
    Examples.attention_preprint _ _ "1706.03762"
    (sample_run_on Examples.preprint_server Examples.attention
       Examples.attention_preprint _) _ _ _ _).
  - vm_compute. reflexivity.
  - reflexivity.
  - reflexivity.
  - done.
  - vm_compute. reflexivity.
Defined.

(** The first citation has a title: with every request rate limited its
    strategies return, without a candidate. *)
Lemma titled_reference_verdict_sample :
  exists l s',
    SemanticScholar.resolve Examples.offline Examples.same_text
      Examples.same_text Examples.first_result Examples.threshold
      Examples.attention (SemanticScholar.start false None 0)
    = (SemanticScholar.Returned l, s')
    /\ (SemanticScholar.paper_data l = None ->
        Forall (SemanticScholar.faithful Examples.offline)
          (SemanticScholar.calls s')
        /\ SemanticScholar.verify_reference Examples.offline Examples.same_text
             Examples.same_text Examples.first_result Examples.similarity
             Examples.authors_agree Examples.venues_differ Examples.doi_url
             Examples.threshold Examples.attention
             (SemanticScholar.start false None 0)
           = (SemanticScholar.Returned
                (None,
                 if existsb SemanticScholar.exhausted (SemanticScholar.calls s')
                 then [ {[ "error_type" := Str "api_failure";
                           "error_details" :=
                             Str "Semantic Scholar API failed: rate_limited_or_timeout" ]} ]
                 else [],
                 None), s')).
Proof.
  apply (titled_reference_verdict Examples.offline Examples.same_text
           Examples.same_text Examples.first_result Examples.similarity
           Examples.authors_agree Examples.venues_differ Examples.doi_url
           Examples.threshold Examples.attention false None 0).
  left. by vm_compute.
Defined.

(** ** The ordered parallel processor *)

Section ProcessorFacts.

Context {SourcePaper : Type}.
Variable verify_reference :
  ParallelProcessor.ReferenceWorkItem SourcePaper -> ParallelProcessor.Verification.
Variable result_callback : bool.
Variable submitted : nat -> Q.

Import ParallelProcessor.
Local Open Scope list_scope.

Local Abbreviation process := (ParallelProcessor.process verify_reference).
Local Abbreviation flush := (ParallelProcessor.flush result_callback).
Local Abbreviation print_pass := (ParallelProcessor.print_pass result_callback).
Local Abbreviation act := (ParallelProcessor.act verify_reference result_callback).
Local Abbreviation step := (ParallelProcessor.step verify_reference result_callback).
Local Abbreviation schedule :=
  (ParallelProcessor.schedule verify_reference result_callback).
Local Abbreviation work_items := (ParallelProcessor.work_items submitted).
Local Abbreviation launch := (ParallelProcessor.launch submitted).
Local Abbreviation invariant :=
  (ParallelProcessor.invariant verify_reference result_callback).
Local Abbreviation errors_at :=
  (fun (items : list (ReferenceWorkItem SourcePaper)) (i : nat) =>
     from_option (count_findings ∘ process) 0 (items !! i)).

(** *** Lists of workers *)

Lemma insert_split {A} (l : list A) (w : nat) (a b : A) :
  l !! w = Some a ->
  exists l1 l2, l = (l1 ++ a :: l2)%list /\ <[w := b]> l = (l1 ++ b :: l2)%list.
Proof.
  intros Hw. exists (take w l), (drop (S w) l). split.
  - symmetry. by apply take_drop_middle.
  - apply insert_take_drop. by eapply lookup_lt_Some.
Qed.

Lemma alive_app (l1 l2 : list (Worker SourcePaper)) :
  alive (l1 ++ l2) = alive l1 + alive l2.
Proof. unfold alive. by rewrite List.filter_app, length_app. Qed.

Lemma alive_cons (w : Worker SourcePaper) (l : list (Worker SourcePaper)) :
  alive (w :: l) = (if is_alive w then 1 else 0) + alive l.
Proof. unfold alive. simpl. by destruct (is_alive w). Qed.

Lemma working_app (l1 l2 : list (Worker SourcePaper)) :
  working (l1 ++ l2) = (working l1 ++ working l2)%list.
Proof. unfold working. apply omap_app. Qed.

Lemma working_cons (w : Worker SourcePaper) (l : list (Worker SourcePaper)) :
  working (w :: l)
  = match item_of w with
    | Some work_item => work_item :: working l
    | None => working l
    end.
Proof. reflexivity. Qed.

Lemma alive_replicate_waiting (n : nat) :
  alive (replicate n (@Waiting SourcePaper)) = n.
Proof. induction n as [|n IH]; [done|]. rewrite replicate_S, alive_cons, IH. done. Qed.

Lemma working_replicate_waiting (n : nat) :
  working (replicate n (@Waiting SourcePaper)) = [].
Proof. induction n as [|n IH]; [done|]. by rewrite replicate_S, working_cons. Qed.

(** With no worker waiting and none working, all have exited. *)
Lemma all_exited (ws : list (Worker SourcePaper)) :
  (forall w, ws !! w <> Some Waiting) ->
  (forall w work_item, ws !! w <> Some (Working work_item)) ->
  alive ws = 0.
Proof.
  induction ws as [|x ws IH]; intros Hw Hk; [done|].
  rewrite alive_cons, IH.
  - destruct x; simpl; [by destruct (Hw 0)|by destruct (Hk 0 work_item)|done].
  - intros w. apply (Hw (S w)).
  - intros w. apply (Hk (S w)).
Qed.

Lemma none_working (ws : list (Worker SourcePaper)) :
  (forall w work_item, ws !! w <> Some (Working work_item)) ->
  working ws = [].
Proof.
  induction ws as [|x ws IH]; intros Hk; [done|].
  rewrite working_cons, IH.
  - destruct x; simpl; [done|by destruct (Hk 0 work_item)|done].
  - intros w. apply (Hk (S w)).
Qed.

(** A worker that is alive waits or works. *)
Lemma some_alive (ws : list (Worker SourcePaper)) :
  0 < alive ws ->
  exists w, ws !! w = Some Waiting \/ exists work_item, ws !! w = Some (Working work_item).
Proof.
  induction ws as [|x ws IH]; [unfold alive; simpl; lia|].
  rewrite alive_cons. intros H.
  destruct x; simpl in H.
  - exists 0. by left.
  - exists 0. right. by exists work_item.
  - destruct (IH H) as [w Hw]. by exists (S w).
Qed.

(** *** Work items *)

Lemma work_items_length (source_paper : SourcePaper) (i : nat)
    (bibliography : list Reference) :
  length (work_items source_paper i bibliography) = length bibliography.
Proof.
  revert i. induction bibliography as [|r rs IH]; intros i; simpl; [done|].
  by rewrite IH.
Qed.

Lemma work_items_lookup (source_paper : SourcePaper) (i j : nat)
    (bibliography : list Reference) :
  work_items source_paper i bibliography !! j
  = (fun reference =>
       {| wi_index := i + j; wi_source_paper := source_paper;
          wi_reference := reference; wi_timestamp := submitted (i + j) |})
    <$> bibliography !! j.
Proof.
  revert i j. induction bibliography as [|r rs IH]; intros i j; [done|].
  destruct j as [|j]; simpl.
  - by rewrite Nat.add_0_r.
  - rewrite IH. by replace (S i + j) with (i + S j) by lia.
Qed.

Lemma work_items_index (source_paper : SourcePaper) (j : nat)
    (bibliography : list Reference) (work_item : ReferenceWorkItem SourcePaper) :
  work_items source_paper 0 bibliography !! j = Some work_item ->
  wi_index work_item = j.
Proof.
  rewrite work_items_lookup. destruct (bibliography !! j); [|done].
  simpl. by intros [= <-].
Qed.

Lemma process_index (work_item : ReferenceWorkItem SourcePaper) :
  index (process work_item) = wi_index work_item.
Proof. unfold ParallelProcessor.process. by destruct (verify_reference _). Qed.

Lemma process_reference (work_item : ReferenceWorkItem SourcePaper) :
  reference (process work_item) = wi_reference work_item.
Proof. unfold ParallelProcessor.process. by destruct (verify_reference _). Qed.

(** *** Statistics *)

Lemma update_total_errors (stats : Stats) (r : ReferenceResult) :
  total_errors (_update_stats stats r) = total_errors stats + count_findings r.
Proof.
  unfold _update_stats, count_findings. simpl.
  destruct (errors r) as [[|e es]|]; simpl; lia.
Qed.

(** *** The inner loop of the printer *)

Section Run.

Variable items : list (ReferenceWorkItem SourcePaper).
Variable W errors0 : nat.

(** The items carry their position as index. *)
Hypothesis items_indexed :
  forall j work_item, items !! j = Some work_item -> wi_index work_item = j.

Ltac fields :=
  cbn [with_worker max_workers work_queue result_queue result_buffer
       next_print_index total_references completed_count processing_stats
       workers printer printed delivered].

Lemma flush_invariant (fuel k : nat) (p : Processor SourcePaper) :
  invariant items W errors0 k p ->
  invariant items W errors0 k (flush fuel p).
Proof.
  revert p. induction fuel as [|fuel IH]; intros p Hinv; [done|].
  simpl. destruct (result_buffer p !! next_print_index p) as [r|] eqn:Hnext;
    [|done].
  apply IH. destruct Hinv.
  destruct (inv_buffer0 _ _ Hnext) as (work_item & Hitem & ->).
  assert (Harr :
    ((map_to_list (delete (next_print_index p) (result_buffer p))).*1
     ++ seq 0 (next_print_index p + 1))%list
    ≡ₚ arrived p).
  { unfold arrived.
    rewrite <- (map_to_list_delete _ _ _ Hnext).
    rewrite Nat.add_1_r, seq_S. simpl.
    rewrite (Permutation_app_comm (seq 0 _) [_]). simpl.
    by rewrite Permutation_middle. }
  split; simpl; try done.
  - unfold arrived at 1. simpl. by rewrite Harr.
  - intros j r [_ Hj]%lookup_delete_Some. by apply inv_buffer0.
  - rewrite Nat.add_1_r, (take_S_r _ _ _ Hitem), map_app. by rewrite inv_printed0.
  - rewrite Nat.add_1_r, (take_S_r _ _ _ Hitem), map_app.
    destruct result_callback; [|done]. by rewrite inv_delivered0.
  - unfold arrived at 1. simpl. by rewrite Harr.
Qed.

Lemma flush_settled (fuel : nat) (p : Processor SourcePaper) :
  size (result_buffer p) <= fuel ->
  settled (flush fuel p).
Proof.
  revert p. induction fuel as [|fuel IH]; intros p Hsize.
  - simpl. unfold settled.
    assert (result_buffer p = ∅) as -> by (apply map_size_empty_inv; lia).
    apply lookup_empty.
  - simpl. destruct (result_buffer p !! next_print_index p) as [r|] eqn:Hnext;
      [|done].
    apply IH. simpl. rewrite map_size_delete, Hnext. lia.
Qed.

(** *** Every action keeps the invariant *)

(** The head of the work queue is an item: it is the next one. *)
Lemma queue_head_item (k : nat) (p : Processor SourcePaper) work_item queue :
  invariant items W errors0 k p ->
  work_queue p = Some work_item :: queue ->
  items !! k = Some work_item /\
  queue = (map Some (drop (S k) items) ++ replicate (alive (workers p)) None)%list.
Proof.
  intros Hinv Hq. rewrite (inv_queue _ _ _ _ _ _ _ Hinv) in Hq.
  destruct (drop k items) as [|x rest] eqn:Hd; simpl in Hq.
  - by destruct (alive (workers p)).
  - injection Hq as -> <-.
    assert (Hk : items !! k = Some work_item).
    { rewrite <- (Nat.add_0_r k), <- lookup_drop, Hd. done. }
    split; [done|]. rewrite (drop_S _ _ _ Hk) in Hd. by injection Hd as <-.
Qed.

(** The head of the work queue is a sentinel: every item was taken. *)
Lemma queue_head_sentinel (k : nat) (p : Processor SourcePaper) queue :
  invariant items W errors0 k p ->
  work_queue p = None :: queue ->
  k = length items /\
  exists n, alive (workers p) = S n /\ queue = replicate n None.
Proof.
  intros Hinv Hq. rewrite (inv_queue _ _ _ _ _ _ _ Hinv) in Hq.
  destruct (drop k items) as [|x rest] eqn:Hd; simpl in Hq; [|done].
  split.
  - apply (f_equal length) in Hd. rewrite length_drop in Hd. simpl in Hd.
    pose proof (inv_taken _ _ _ _ _ _ _ Hinv). lia.
  - destruct (alive (workers p)) as [|n]; [done|].
    exists n. split; [done|]. by injection Hq as <-.
Qed.

Lemma arrived_with_worker w state queue results (p : Processor SourcePaper) :
  arrived (with_worker w state queue results p) = arrived p.
Proof. reflexivity. Qed.

Lemma get_item_invariant (k w : nat) (p : Processor SourcePaper) work_item queue :
  invariant items W errors0 k p ->
  workers p !! w = Some Waiting ->
  work_queue p = Some work_item :: queue ->
  invariant items W errors0 (S k)
    (with_worker w (Working work_item) queue (result_queue p) p).
Proof.
  intros Hinv Hw Hq.
  destruct (queue_head_item _ _ _ _ Hinv Hq) as [Hk ->].
  destruct (insert_split _ _ _ (Working work_item) Hw) as (l1 & l2 & Hl & Hl').
  assert (Halive : alive (<[w:=Working work_item]> (workers p)) = alive (workers p)).
  { rewrite Hl', Hl, !alive_app, !alive_cons. done. }
  assert (Hwork : working (<[w:=Working work_item]> (workers p))
                  ≡ₚ work_item :: working (workers p)).
  { rewrite Hl', Hl, !working_app, !working_cons. simpl.
    by rewrite Permutation_middle. }
  pose proof (lookup_lt_Some _ _ _ Hk) as Hlt.
  destruct Hinv.
  split; rewrite ?arrived_with_worker; fields; rewrite ?Halive; try done.
  - lia.
  - rewrite Hwork, seq_S. cbn [map app]. rewrite inv_places0.
    rewrite (items_indexed _ _ Hk). apply Permutation_cons_append.
  - intros x Hx. rewrite Hwork in Hx.
    apply elem_of_cons in Hx as [->|Hx]; [|by apply inv_working0].
    by rewrite (items_indexed _ _ Hk).
Qed.

Lemma get_sentinel_invariant (k w : nat) (p : Processor SourcePaper) queue :
  invariant items W errors0 k p ->
  workers p !! w = Some Waiting ->
  work_queue p = None :: queue ->
  invariant items W errors0 k
    (with_worker w Exited queue (result_queue p) p).
Proof.
  intros Hinv Hw Hq.
  destruct (queue_head_sentinel _ _ _ Hinv Hq) as (Hk & n & Hn & ->).
  destruct (insert_split _ _ _ (@Exited SourcePaper) Hw) as (l1 & l2 & Hl & Hl').
  assert (Halive : alive (<[w:=Exited]> (workers p)) = n).
  { rewrite Hl, !alive_app, !alive_cons in Hn.
    rewrite Hl', !alive_app, !alive_cons. simpl in *. lia. }
  assert (Hwork : working (<[w:=Exited]> (workers p)) = working (workers p)).
  { rewrite Hl', Hl, !working_app, !working_cons. done. }
  destruct Hinv.
  split; rewrite ?arrived_with_worker; fields; rewrite ?Halive, ?Hwork; try done.
  - rewrite Hk, drop_all. done.
  - lia.
Qed.

Lemma put_invariant (k w : nat) (p : Processor SourcePaper) work_item :
  invariant items W errors0 k p ->
  workers p !! w = Some (Working work_item) ->
  invariant items W errors0 k
    (with_worker w Waiting (work_queue p)
       (result_queue p ++ [process work_item]) p).
Proof.
  intros Hinv Hw.
  destruct (insert_split _ _ _ (@Waiting SourcePaper) Hw) as (l1 & l2 & Hl & Hl').
  assert (Halive : alive (<[w:=Waiting]> (workers p)) = alive (workers p)).
  { rewrite Hl', Hl, !alive_app, !alive_cons. done. }
  assert (Hwork : working (workers p)
                  ≡ₚ work_item :: working (<[w:=Waiting]> (workers p))).
  { rewrite Hl', Hl, !working_app, !working_cons. simpl.
    by rewrite Permutation_middle. }
  destruct Hinv.
  assert (Hitem : items !! wi_index work_item = Some work_item).
  { apply inv_working0. rewrite Hwork. by left. }
  split; rewrite ?arrived_with_worker; fields; rewrite ?Halive; try done.
  - rewrite <- inv_places0, Hwork, map_app. cbn [map app].
    rewrite process_index.
    rewrite (Permutation_app_comm (map index (result_queue p)) [_]).
    cbn [app]. by rewrite <- Permutation_middle.
  - intros x Hx. apply inv_working0. rewrite Hwork. by right.
  - intros r [Hr| ->%list_elem_of_singleton]%elem_of_app; [by apply inv_results0|].
    exists work_item. by rewrite process_index.
Qed.

Lemma print_invariant (k : nat) (p : Processor SourcePaper) r rest :
  invariant items W errors0 k p ->
  result_queue p = r :: rest ->
  invariant items W errors0 k (print_pass r rest p)
  /\ settled (print_pass r rest p).
Proof.
  intros Hinv Hrq. unfold ParallelProcessor.print_pass.
  split; [apply flush_invariant|by apply flush_settled].
  destruct Hinv. rewrite Hrq in *.
  destruct (inv_results0 r) as (work_item & Hitem & Hr); [by left|].
  assert (Hfresh : result_buffer p !! index r = None).
  { destruct (result_buffer p !! index r) as [r0|] eqn:Hb; [|done].
    assert (Hdup : NoDup (map wi_index (working (workers p))
                          ++ map index (r :: rest) ++ arrived p)%list).
    { rewrite inv_places0. apply NoDup_seq. }
    apply NoDup_app in Hdup as (_ & _ & Hdup). cbn [map app] in Hdup.
    apply NoDup_cons in Hdup as [Hnot _]. exfalso. apply Hnot.
    apply elem_of_app. right. apply elem_of_app. left.
    apply list_elem_of_fmap. exists (index r, r0). split; [done|].
    by apply elem_of_map_to_list. }
  assert (Harr :
    ((map_to_list (<[index r:=r]> (result_buffer p))).*1
     ++ seq 0 (next_print_index p))%list
    ≡ₚ index r :: arrived p).
  { unfold arrived. by rewrite (map_to_list_insert _ _ _ Hfresh). }
  split; fields; try done.
  - unfold arrived at 1. fields. rewrite Harr, <- inv_places0.
    cbn [map app]. by rewrite <- !Permutation_middle.
  - intros x Hx. apply inv_results0. by right.
  - intros j x [[<- <-]|[_ Hj]]%lookup_insert_Some; [|by apply inv_buffer0].
    by exists work_item.
  - unfold arrived at 1. fields.
    rewrite Harr, update_total_errors, inv_errors0. cbn [sum_list_with].
    rewrite Hitem. cbn [from_option]. unfold compose. rewrite <- Hr. lia.
Qed.

(** An action is taken by one of four steps, each of which keeps the
    invariant and leaves the inner loop of the printer at its end. *)
Lemma act_invariant (a : Action) (k : nat) (p p' : Processor SourcePaper) :
  invariant items W errors0 k p -> settled p ->
  act a p = Some p' ->
  exists k', invariant items W errors0 k' p' /\ settled p'.
Proof.
  intros Hinv Hset Hact. destruct a as [w|w|]; cbn [ParallelProcessor.act] in Hact.
  - destruct (workers p !! w) as [[| |]|] eqn:Hw; try done.
    destruct (work_queue p) as [|[work_item|] queue] eqn:Hq; try done;
      injection Hact as <-.
    + exists (S k). split; [by apply get_item_invariant|done].
    + exists k. split; [by apply get_sentinel_invariant|done].
  - destruct (workers p !! w) as [[| |]|] eqn:Hw; try done.
    injection Hact as <-.
    exists k. split; [by apply put_invariant|done].
  - destruct (printer p && (next_print_index p <? total_references p)%nat);
      [|done].
    destruct (result_queue p) as [|r rest] eqn:Hrq; [done|].
    injection Hact as <-. exists k. by apply print_invariant.
Qed.

Lemma step_invariant (p p' : Processor SourcePaper) :
  (exists k, invariant items W errors0 k p /\ settled p) ->
  step p p' ->
  exists k', invariant items W errors0 k' p' /\ settled p'.
Proof. intros (k & Hinv & Hset) [a Hact]. by eapply act_invariant. Qed.

Lemma run_invariant (p p' : Processor SourcePaper) :
  (exists k, invariant items W errors0 k p /\ settled p) ->
  rtc step p p' ->
  exists k', invariant items W errors0 k' p' /\ settled p'.
Proof.
  intros Hp Hrun. induction Hrun as [|p p1 p2 Hstep _ IH]; [done|].
  apply IH. by eapply step_invariant.
Qed.

(** *** The end of a run *)

Lemma sum_over_positions {A} (g : A -> nat) (l k : list A) :
  sum_list_with (fun i => from_option g 0 ((k ++ l) !! i))
                (seq (length k) (length l))
  = sum_list_with g l.
Proof.
  revert k. induction l as [|x l IH]; intros k; [done|].
  cbn [length seq sum_list_with].
  rewrite list_lookup_middle by done. cbn [from_option]. f_equal.
  specialize (IH (k ++ [x])%list).
  rewrite length_app, Nat.add_1_r, <- (assoc_L (++)) in IH. exact IH.
Qed.

Lemma sum_over_map {A B} (f : B -> nat) (g : A -> B) (l : list A) :
  sum_list_with f (map g l) = sum_list_with (f ∘ g) l.
Proof. induction l as [|x l IH]; [done|]. simpl. by rewrite IH. Qed.

(** When no thread can act, every result has been printed in order, both
    queues and the buffer are empty, and every result has been counted. *)
Lemma finished_complete (k : nat) (p : Processor SourcePaper) :
  0 < W ->
  invariant items W errors0 k p -> settled p ->
  nf step p ->
  next_print_index p = length items
  /\ work_queue p = [] /\ result_queue p = [] /\ result_buffer p = ∅
  /\ printed p = map process items
  /\ delivered p = (if result_callback then map process items else [])
  /\ total_errors (processing_stats p)
     = errors0 + sum_list_with count_findings (map process items).
Proof.
  intros HW Hinv Hset Hnf.
  assert (Hstuck : forall a, act a p = None).
  { intros a. destruct (act a p) as [p'|] eqn:Ha; [|done].
    destruct Hnf. exists p'. by exists a. }
  assert (Hnowork : forall w work_item, workers p !! w <> Some (Working work_item)).
  { intros w work_item Hw. specialize (Hstuck (Put w)).
    cbn [ParallelProcessor.act] in Hstuck. by rewrite Hw in Hstuck. }
  assert (Hqueue : work_queue p = []).
  { destruct (work_queue p) as [|x queue] eqn:Hq; [done|]. exfalso.
    assert (Hnowait : forall w, workers p !! w <> Some Waiting).
    { intros w Hw. specialize (Hstuck (Get w)).
      cbn [ParallelProcessor.act] in Hstuck. rewrite Hw, Hq in Hstuck.
      by destruct x. }
    pose proof (all_exited _ Hnowait Hnowork) as Halive.
    pose proof (inv_queue _ _ _ _ _ _ _ Hinv) as Hq'.
    rewrite Hq, Halive, (inv_exits _ _ _ _ _ _ _ Hinv), drop_all in Hq'; [done|lia]. }
  pose proof (none_working _ Hnowork) as Hworking.
  destruct Hinv. rewrite Hqueue in inv_queue0. symmetry in inv_queue0.
  apply app_eq_nil in inv_queue0 as [Hdrop _].
  apply fmap_nil_inv in Hdrop.
  assert (k = length items) as ->.
  { apply (f_equal length) in Hdrop. rewrite length_drop in Hdrop.
    simpl in Hdrop. lia. }
  rewrite Hworking in inv_places0. cbn [map app] in inv_places0.
  assert (Hnext : next_print_index p = length items).
  { destruct (lt_eq_lt_dec (next_print_index p) (length items))
      as [[Hlt|Heq]|Hgt]; [exfalso|done|exfalso].
    - assert (Hrq : result_queue p = []).
      { destruct (result_queue p) as [|r rest] eqn:Hrq; [done|].
        specialize (Hstuck Print). cbn [ParallelProcessor.act] in Hstuck.
        rewrite inv_printer0, Hrq, inv_total0 in Hstuck.
        apply Nat.ltb_lt in Hlt. by rewrite Hlt in Hstuck. }
      rewrite Hrq in inv_places0. cbn [map app] in inv_places0.
      assert (Hin : next_print_index p ∈ arrived p).
      { rewrite inv_places0. apply elem_of_seq. lia. }
      unfold arrived in Hin. apply elem_of_app in Hin as [Hin|Hin].
      + apply list_elem_of_fmap in Hin as ([j r] & Hj & Hin).
        apply elem_of_map_to_list in Hin. simpl in Hj. subst j.
        unfold settled in Hset. congruence.
      + apply elem_of_seq in Hin. lia.
    - assert (Hin : length items ∈ seq 0 (length items)).
      { rewrite <- inv_places0. apply elem_of_app. right.
        unfold arrived. apply elem_of_app. right. apply elem_of_seq. lia. }
      apply elem_of_seq in Hin. lia. }
  pose proof (Permutation_length inv_places0) as Hlen.
  unfold arrived in Hlen.
  rewrite !length_app, !length_map, !length_seq, Hnext in Hlen.
  assert (Hrq : result_queue p = []).
  { destruct (result_queue p); [done|simpl in Hlen; lia]. }
  assert (Hbuf : result_buffer p = ∅).
  { apply map_to_list_empty_iff.
    destruct (map_to_list (result_buffer p)); [done|simpl in Hlen; lia]. }
  rewrite Hnext, firstn_all in inv_printed0, inv_delivered0.
  repeat split; try done.
  rewrite inv_errors0. f_equal. unfold arrived.
  rewrite Hbuf, map_to_list_empty, Hnext. cbn [fmap list_fmap app].
  rewrite sum_over_map.
  exact (sum_over_positions (count_findings ∘ process) items []).
Qed.

End Run.

(** *** The start of a run, and its length *)

Lemma work_items_indices (source_paper : SourcePaper) (i : nat)
    (bibliography : list Reference) :
  map wi_index (work_items source_paper i bibliography)
  = seq i (length bibliography).
Proof.
  revert i. induction bibliography as [|r rs IH]; intros i; [done|].
  simpl. by rewrite IH.
Qed.

Lemma processed_indices (l : list (ReferenceWorkItem SourcePaper)) :
  map index (map process l) = map wi_index l.
Proof.
  induction l as [|x l IH]; [done|]. simpl. by rewrite process_index, IH.
Qed.

Lemma launch_invariant (source_paper : SourcePaper)
    (bibliography : list Reference) (p0 : Processor SourcePaper) :
  idle p0 -> bibliography <> [] ->
  invariant (work_items source_paper 0 bibliography) (max_workers p0)
    (total_errors (processing_stats p0)) 0
    (launch source_paper bibliography p0)
  /\ settled (launch source_paper bibliography p0).
Proof.
  intros [Hwq Hrq] Hne.
  destruct bibliography as [|reference rest] eqn:Hbib; [done|].
  rewrite <- Hbib in *. clear Hne.
  assert (Hlaunch : launch source_paper bibliography p0 =
    {| max_workers := max_workers p0;
       work_queue := work_queue p0
         ++ map Some (work_items source_paper 0 bibliography)
         ++ replicate (max_workers p0) None;
       result_queue := result_queue p0;
       result_buffer := ∅;
       next_print_index := 0;
       total_references := length bibliography;
       completed_count := 0;
       processing_stats := processing_stats p0;
       workers := replicate (max_workers p0) Waiting;
       printer := true;
       printed := [];
       delivered := [] |}) by (by rewrite Hbib).
  rewrite Hlaunch. clear Hlaunch Hbib. split; [|apply lookup_empty].
  split; unfold arrived;
    cbn [max_workers work_queue result_queue result_buffer next_print_index
         total_references completed_count processing_stats workers printer
         printed delivered];
    rewrite ?alive_replicate_waiting, ?working_replicate_waiting,
            ?map_to_list_empty, ?Hwq, ?Hrq; try done.
  - by rewrite work_items_length.
  - lia.
  - lia.
  - intros x Hx. by apply elem_of_nil in Hx.
  - intros x Hx. by apply elem_of_nil in Hx.
  - by destruct result_callback.
Qed.

(** An empty bibliography starts no thread. *)
Lemma launch_nothing (source_paper : SourcePaper) (p0 p : Processor SourcePaper) :
  rtc step (launch source_paper [] p0) p -> p = launch source_paper [] p0.
Proof.
  intros Hrun. remember (launch source_paper [] p0) as q eqn:Hq.
  destruct Hrun as [|q q1 q2 [a Hact] _]; [done|]. exfalso. subst q.
  destruct a as [w|w|]; cbn [ParallelProcessor.act] in Hact.
  - change (workers (launch source_paper [] p0)) with (@nil (Worker SourcePaper)) in Hact.
    by rewrite lookup_nil in Hact.
  - change (workers (launch source_paper [] p0)) with (@nil (Worker SourcePaper)) in Hact.
    by rewrite lookup_nil in Hact.
  - done.
Qed.

Lemma flush_threads (fuel : nat) (p : Processor SourcePaper) :
  work_queue (flush fuel p) = work_queue p
  /\ result_queue (flush fuel p) = result_queue p
  /\ workers (flush fuel p) = workers p.
Proof.
  revert p. induction fuel as [|fuel IH]; intros p; [done|].
  simpl. destruct (result_buffer p !! next_print_index p) as [r|]; [|done].
  by destruct (IH
    {| max_workers := max_workers p;
       work_queue := work_queue p;
       result_queue := result_queue p;
       result_buffer := delete (next_print_index p) (result_buffer p);
       next_print_index := next_print_index p + 1;
       total_references := total_references p;
       completed_count := completed_count p + 1;
       processing_stats := processing_stats p;
       workers := workers p;
       printer := printer p;
       printed := printed p ++ [r];
       delivered :=
         if result_callback then delivered p ++ [r] else delivered p |})
    as (-> & -> & ->).
Qed.

Lemma print_pass_threads r rest (p : Processor SourcePaper) :
  work_queue (print_pass r rest p) = work_queue p
  /\ result_queue (print_pass r rest p) = rest
  /\ workers (print_pass r rest p) = workers p.
Proof.
  unfold ParallelProcessor.print_pass. cbv zeta.
  match goal with
  | |- context [flush ?n ?q] => by destruct (flush_threads n q) as (-> & -> & ->)
  end.
Qed.

Lemma step_decreases (p p' : Processor SourcePaper) :
  step p p' -> remaining_work p' < remaining_work p.
Proof.
  intros [a Hact]. unfold remaining_work.
  destruct a as [w|w|]; cbn [ParallelProcessor.act] in Hact.
  - destruct (workers p !! w) as [[| |]|] eqn:Hw; try done.
    destruct (work_queue p) as [|[work_item|] queue] eqn:Hq; try done;
      injection Hact as <-; cbn [with_worker work_queue workers result_queue].
    + destruct (insert_split _ _ _ (Working work_item) Hw) as (l1 & l2 & -> & ->).
      rewrite !working_app, !working_cons, !length_app. simpl. lia.
    + destruct (insert_split _ _ _ (@Exited SourcePaper) Hw) as (l1 & l2 & -> & ->).
      rewrite !working_app, !working_cons, !length_app. simpl. lia.
  - destruct (workers p !! w) as [[| |]|] eqn:Hw; try done.
    injection Hact as <-; cbn [with_worker work_queue workers result_queue].
    destruct (insert_split _ _ _ (@Waiting SourcePaper) Hw) as (l1 & l2 & -> & ->).
    rewrite !working_app, !working_cons, !length_app. simpl. lia.
  - destruct (printer p && (next_print_index p <? total_references p)%nat);
      [|done].
    destruct (result_queue p) as [|r rest] eqn:Hrq; [done|].
    injection Hact as <-.
    destruct (print_pass_threads r rest p) as (-> & -> & ->).
    simpl. lia.
Qed.

(** Every run ends: no thread can act for ever. *)
Lemma run_terminates (p : Processor SourcePaper) : sn step p.
Proof.
  remember (S (remaining_work p)) as n eqn:Hn.
  assert (Hlt : remaining_work p < n) by lia. clear Hn.
  revert p Hlt. induction n as [|n IH]; intros p Hlt; [lia|].
  constructor. intros p' Hstep. apply IH.
  pose proof (step_decreases _ _ Hstep). lia.
Qed.

(** *** Runs of a batch *)

Lemma schedule_runs (acts : list Action) (p p' : Processor SourcePaper) :
  schedule acts p = Some p' -> rtc step p p'.
Proof.
  revert p. induction acts as [|a acts IH]; intros p; simpl.
  - by intros [= ->].
  - destruct (act a p) as [p1|] eqn:Ha; [|done].
    intros Hrest. eapply rtc_l; [by exists a|by apply IH].
Qed.

Lemma stuck_finished (p : Processor SourcePaper) :
  (forall a, act a p = None) -> nf step p.
Proof. intros Hstuck (p' & a & Ha). by rewrite Hstuck in Ha. Qed.

(** What a run has shown at any time, and at its end. *)
Lemma run_result (source_paper : SourcePaper) (bibliography : list Reference)
    (p0 p : Processor SourcePaper) :
  idle p0 -> 0 < max_workers p0 ->
  rtc step (launch source_paper bibliography p0) p ->
  let items := work_items source_paper 0 bibliography in
  (exists n, n <= length bibliography
     /\ printed p = map process (take n items)
     /\ delivered p = if result_callback then map process (take n items) else [])
  /\ (nf step p ->
      printed p = map process items
      /\ delivered p = (if result_callback then map process items else [])
      /\ total_errors (processing_stats p)
         = total_errors (processing_stats p0)
           + sum_list_with count_findings (map process items)).
Proof.
  intros Hidle HW Hrun items.
  destruct (decide (bibliography = [])) as [Hbib|Hne].
  - subst items. subst bibliography. apply launch_nothing in Hrun as ->.
    simpl. split.
    + exists 0. by destruct result_callback.
    + intros _. split; [done|]. split; [by destruct result_callback|lia].
  - destruct (launch_invariant source_paper bibliography p0 Hidle Hne)
      as [Hinv Hset].
    assert (Hindexed : forall j work_item,
      items !! j = Some work_item -> wi_index work_item = j).
    { intros j work_item. apply work_items_index. }
    destruct (run_invariant items (max_workers p0)
                (total_errors (processing_stats p0)) Hindexed _ p
                (ex_intro _ 0 (conj Hinv Hset)) Hrun) as (k & Hk & Hsetk).
    split.
    + exists (next_print_index p).
      split; [|split; [apply Hk|apply Hk]].
      assert (next_print_index p <= k); [|destruct Hk; unfold items in *;
        rewrite work_items_length in *; lia].
      destruct (le_lt_dec (next_print_index p) k) as [|Hlt]; [done|exfalso].
      assert (Hin : k ∈ seq 0 k).
      { rewrite <- (inv_places _ _ _ _ _ _ _ Hk). apply elem_of_app. right.
        apply elem_of_app. right. unfold arrived. apply elem_of_app. right.
        apply elem_of_seq. lia. }
      apply elem_of_seq in Hin. lia.
    + intros Hnf.
      destruct (finished_complete items (max_workers p0)
                  (total_errors (processing_stats p0)) k p HW Hk Hsetk Hnf)
        as (_ & _ & _ & _ & Hpr & Hdel & Herr).
      done.
Qed.


(** *** The statistics *)

Lemma update_stats_fold (stats0 : Stats) (results : list ReferenceResult) :
  let stats := fold_left _update_stats results stats0 in
  total_processed stats = total_processed stats0 + length results
  /\ total_errors stats
     = total_errors stats0 + sum_list_with count_findings results
  /\ (slowest_time stats0 <= slowest_time stats)%Q
  /\ (forall r, r ∈ results ->
        (processing_time r <= slowest_time stats)%Q
        /\ exists fastest,
             fastest_time stats = Some fastest
             /\ (fastest <= processing_time r)%Q).
Proof.
  revert stats0. induction results as [|r results IH]; intros stats0.
  { cbv zeta. simpl. split; [lia|]. split; [lia|].
    split; [apply Qle_refl|]. intros r Hr. by apply elem_of_nil in Hr. }
  cbv zeta. cbn [fold_left].
  destruct (IH (_update_stats stats0 r)) as (Hn & He & Hslow & Hall).
  cbv zeta in *.
  split; [rewrite Hn; simpl; lia|].
  split; [rewrite He, update_total_errors; simpl; lia|].
  assert (Hstep : (slowest_time stats0 <= slowest_time (_update_stats stats0 r))%Q
                  /\ (processing_time r <= slowest_time (_update_stats stats0 r))%Q).
  { unfold _update_stats. cbn [slowest_time].
    split; [apply Q.le_max_l|apply Q.le_max_r]. }
  split; [lra|].
  intros x [->|Hx]%elem_of_cons; [|by apply Hall].
  split; [lra|].
  assert (Hfast : forall stats1 results1,
    forall f1, fastest_time stats1 = Some f1 ->
    exists f, fastest_time (fold_left _update_stats results1 stats1) = Some f
              /\ (f <= f1)%Q).
  { clear. intros stats1 results1. revert stats1.
    induction results1 as [|r1 results1 IH1]; intros stats1 f1 Hf1.
    - exists f1. split; [done|apply Qle_refl].
    - cbn [fold_left].
      destruct (IH1 (_update_stats stats1 r1) (Qmin f1 (processing_time r1)))
        as (f & Hf & Hle).
      { unfold _update_stats. cbn [fastest_time]. by rewrite Hf1. }
      exists f. split; [done|].
      pose proof (Q.le_min_l f1 (processing_time r1)). lra. }
  destruct (Hfast (_update_stats stats0 r) results
              (match fastest_time stats0 with
               | Some f => Qmin f (processing_time r)
               | None => processing_time r
               end) eq_refl) as (f & Hf & Hle).
  exists f. split; [done|].
  destruct (fastest_time stats0) as [f0|]; [|done].
  pose proof (Q.le_min_r f0 (processing_time r)). lra.
Qed.

(** X13.  [_update_stats], applied to results one after the other, keeps
    running statistics: the number of results, the number of their
    findings, a slowest time that is no less than any of their processing
    times and than the slowest time before, and a fastest time that is no
    more than any of them. *)
Theorem update_stats_running (stats0 : Stats) (results : list ReferenceResult) :
  let stats := fold_left _update_stats results stats0 in
  total_processed stats = total_processed stats0 + length results
  /\ total_errors stats
     = total_errors stats0 + sum_list_with count_findings results
  /\ (slowest_time stats0 <= slowest_time stats)%Q
  /\ (forall r, r ∈ results ->
        (processing_time r <= slowest_time stats)%Q
        /\ exists fastest,
             fastest_time stats = Some fastest
             /\ (fastest <= processing_time r)%Q).
Proof. apply update_stats_fold. Qed.

(** *** The statistics of a batch *)

Section Account.

Variable items : list (ReferenceWorkItem SourcePaper).
Variable stats0 : Stats.
Variable W : nat.

Local Abbreviation accounted :=
  (ParallelProcessor.accounted verify_reference items stats0 W).

Hypothesis items_indexed :
  forall j work_item, items !! j = Some work_item -> wi_index work_item = j.

(** The inner loop of the printer leaves the statistics alone, moves
    results from the buffer to the output, and advances both counters. *)
Lemma flush_keeps (fuel : nat) (p : Processor SourcePaper) :
  processing_stats (flush fuel p) = processing_stats p
  /\ max_workers (flush fuel p) = max_workers p
  /\ arrived (flush fuel p) ≡ₚ arrived p
  /\ (completed_count p = next_print_index p ->
      completed_count (flush fuel p) = next_print_index (flush fuel p)).
Proof.
  revert p. induction fuel as [|fuel IH]; intros p; [done|].
  simpl. destruct (result_buffer p !! next_print_index p) as [r|] eqn:Hnext;
    [|done].
  match goal with
  | |- context [flush fuel ?q] => destruct (IH q) as (-> & -> & Harr & Hcount)
  end.
  split; [done|]. split; [done|]. split.
  - rewrite Harr. unfold arrived. simpl.
    rewrite <- (map_to_list_delete _ _ _ Hnext).
    rewrite Nat.add_1_r, seq_S. simpl.
    rewrite (Permutation_app_comm (seq 0 _) [_]). simpl.
    by rewrite Permutation_middle.
  - intros Heq. apply Hcount. simpl. lia.
Qed.

Lemma act_accounted (a : Action) (k : nat) (p p' : Processor SourcePaper)
    (arrival : list ReferenceResult) :
  invariant items W (total_errors stats0) k p ->
  accounted p arrival ->
  act a p = Some p' ->
  exists arrival', accounted p' arrival'.
Proof.
  intros Hinv [Hstats Harr Hres Hcount Hworkers Hmax] Hact.
  destruct a as [w|w|]; cbn [ParallelProcessor.act] in Hact.
  - destruct (workers p !! w) as [[| |]|] eqn:Hw; try done.
    destruct (work_queue p) as [|[work_item|] queue] eqn:Hq; try done;
      injection Hact as <-; exists arrival; split; try done;
      cbn [with_worker workers]; by rewrite length_insert.
  - destruct (workers p !! w) as [[| |]|] eqn:Hw; try done.
    injection Hact as <-. exists arrival. split; try done.
    cbn [with_worker workers]. by rewrite length_insert.
  - destruct (printer p && (next_print_index p <? total_references p)%nat);
      [|done].
    destruct (result_queue p) as [|r rest] eqn:Hrq; [done|].
    injection Hact as <-. exists (arrival ++ [r]).
    destruct Hinv. rewrite Hrq in *.
    destruct (inv_results0 r) as (work_item & Hitem & Hr); [by left|].
    assert (Hfresh : result_buffer p !! index r = None).
    { destruct (result_buffer p !! index r) as [r0|] eqn:Hb; [|done].
      assert (Hdup : NoDup (map wi_index (working (workers p))
                            ++ map index (r :: rest) ++ arrived p)%list).
      { rewrite inv_places0. apply NoDup_seq. }
      apply NoDup_app in Hdup as (_ & _ & Hdup). cbn [map app] in Hdup.
      apply NoDup_cons in Hdup as [Hnot _]. exfalso. apply Hnot.
      apply elem_of_app. right. apply elem_of_app. left.
      apply list_elem_of_fmap. exists (index r, r0). split; [done|].
      by apply elem_of_map_to_list. }
    unfold ParallelProcessor.print_pass. cbv zeta.
    match goal with
    | |- ParallelProcessor.accounted _ _ _ _ (flush ?n ?q) _ =>
        destruct (flush_keeps n q) as (Hs & Hm & Ha & Hc);
        destruct (flush_threads n q) as (_ & _ & Hw)
    end.
    split.
    + rewrite Hs. simpl. by rewrite fold_left_app, Hstats.
    + rewrite Ha. unfold arrived. simpl.
      rewrite (map_to_list_insert _ _ _ Hfresh). simpl.
      rewrite map_app. simpl. rewrite Harr.
      unfold arrived. by rewrite <- Permutation_cons_append.
    + apply Forall_app. split; [done|]. apply Forall_singleton.
      by exists work_item.
    + by apply Hc.
    + by rewrite Hw.
    + by rewrite Hm.
Qed.

Lemma run_accounted (p p' : Processor SourcePaper) :
  (exists k, invariant items W (total_errors stats0) k p /\ settled p) ->
  (exists arrival, accounted p arrival) ->
  rtc step p p' ->
  exists arrival, accounted p' arrival.
Proof.
  intros Hinv Hacc Hrun.
  induction Hrun as [|p p1 p2 Hstep _ IH]; [done|].
  apply IH.
  - by eapply step_invariant.
  - destruct Hinv as (k & Hinv & _), Hacc as (arrival & Hacc), Hstep as [a Hact].
    by eapply act_accounted.
Qed.

End Account.

Lemma launch_accounted (source_paper : SourcePaper)
    (bibliography : list Reference) (p0 : Processor SourcePaper) :
  bibliography <> [] ->
  ParallelProcessor.accounted verify_reference
    (work_items source_paper 0 bibliography) (processing_stats p0)
    (max_workers p0) (launch source_paper bibliography p0) [].
Proof.
  intros Hne. destruct bibliography as [|reference rest]; [done|].
  split; try done. simpl. by rewrite length_replicate.
Qed.

(** The results at the positions of the items are the results of the
    items. *)
Lemma results_at_positions (l k : list (ReferenceWorkItem SourcePaper)) :
  omap (fun i => process <$> (k ++ l) !! i) (seq (length k) (length l))
  = map process l.
Proof.
  revert k. induction l as [|x l IH]; intros k; [done|].
  cbn [length seq omap list_omap map].
  rewrite list_lookup_middle by done. cbn [fmap option_fmap option_map].
  f_equal. specialize (IH (k ++ [x])).
  rewrite length_app, Nat.add_1_r, <- (assoc_L (++)) in IH. exact IH.
Qed.

Lemma results_by_index (items : list (ReferenceWorkItem SourcePaper))
    (arrival : list ReferenceResult) :
  Forall (fun r => exists work_item,
                     items !! index r = Some work_item
                     /\ r = process work_item) arrival ->
  omap (fun i => process <$> items !! i) (map index arrival) = arrival.
Proof.
  induction 1 as [|r arrival (work_item & Hitem & Hr) _ IH]; [done|].
  cbn [map omap list_omap]. rewrite Hitem. cbn [fmap option_fmap option_map].
  by rewrite <- Hr, IH.
Qed.

Lemma none_alive (ws : list (Worker SourcePaper)) :
  alive ws = 0 -> ws = replicate (length ws) Exited.
Proof.
  unfold alive. induction ws as [|w ws IH]; [done|].
  destruct w; simpl; try done. intros H. by rewrite <- IH.
Qed.

(** What a batch that has ended leaves behind. *)
Lemma run_end (source_paper : SourcePaper) (bibliography : list Reference)
    (p0 p : Processor SourcePaper) :
  idle p0 -> 0 < max_workers p0 -> bibliography <> [] ->
  rtc step (launch source_paper bibliography p0) p ->
  nf step p ->
  let items := work_items source_paper 0 bibliography in
  (idle p /\ result_buffer p = ∅
   /\ workers p = replicate (max_workers p0) Exited
   /\ max_workers p = max_workers p0
   /\ next_print_index p = length bibliography
   /\ completed_count p = length bibliography
   /\ total_references p = length bibliography)
  /\ printed p = map process items
  /\ exists arrival,
       arrival ≡ₚ map process items
       /\ processing_stats p
          = fold_left _update_stats arrival (processing_stats p0).
Proof.
  intros Hidle HW Hne Hrun Hnf items.
  destruct (launch_invariant source_paper bibliography p0 Hidle Hne)
    as [Hinv Hset].
  assert (Hindexed : forall j work_item,
    items !! j = Some work_item -> wi_index work_item = j).
  { intros j work_item. apply work_items_index. }
  destruct (run_invariant items (max_workers p0)
              (total_errors (processing_stats p0)) Hindexed _ p
              (ex_intro _ 0 (conj Hinv Hset)) Hrun) as (k & Hk & Hsetk).
  destruct (run_accounted items (processing_stats p0) (max_workers p0)
              Hindexed _ p (ex_intro _ 0 (conj Hinv Hset))
              (ex_intro _ [] (launch_accounted source_paper bibliography p0 Hne))
              Hrun) as (arrival & Hacc).
  destruct (finished_complete items (max_workers p0)
              (total_errors (processing_stats p0)) k p HW Hk Hsetk Hnf)
    as (Hnext & Hwq & Hrq & Hbuf & Hpr & _ & _).
  destruct Hacc as [Hstats Harr Hres Hcount Hworkers Hmax].
  assert (Hlen : length items = length bibliography)
    by apply work_items_length.
  split; [|split; [exact Hpr|]].
  - split; [by split|]. split; [done|].
    split; [|split; [done|]].
    + pose proof (inv_queue _ _ _ _ _ _ _ Hk) as Hq. rewrite Hwq in Hq.
      symmetry in Hq. apply app_eq_nil in Hq as [_ Hq].
      assert (Halive : alive (workers p) = 0)
        by (by destruct (alive (workers p))).
      by rewrite (none_alive _ Halive), Hworkers.
    + split; [lia|]. split; [lia|].
      rewrite (inv_total _ _ _ _ _ _ _ Hk). exact Hlen.
  - exists arrival. split; [|exact Hstats].
    assert (Hall :
      omap (fun i => process <$> items !! i) (seq 0 (length items))
      = map process items) by exact (results_at_positions items []).
    rewrite <- (results_by_index items arrival Hres), Harr.
    unfold arrived. rewrite Hbuf, map_to_list_empty, Hnext.
    cbn [fmap list_fmap app]. by rewrite Hall.
Qed.



(** X16.  An empty bibliography starts no thread: the call ends at once,
    nothing is printed, the callback is not called, and the statistics
    returned are those of the processor as it was, the size of an earlier
    batch among them; on a new processor they are zero, the fastest time
    too. *)
Theorem empty_bibliography_returns_at_once (source_paper : SourcePaper)
    (p0 p : Processor SourcePaper) :
  ParallelProcessor.runs verify_reference result_callback submitted
    source_paper [] p0 p ->
  ParallelProcessor.finished verify_reference result_callback p
  /\ printed p = [] /\ delivered p = []
  /\ _get_stats p = _get_stats p0
  /\ _get_stats (@new SourcePaper (max_workers p0))
     = {| stat_total_references := 0; stat_total_errors := 0;
          stat_avg_processing_time := 0; stat_fastest_time := 0;
          stat_slowest_time := 0 |}.
Proof.
  intros Hrun. pose proof (launch_nothing _ _ _ Hrun) as ->.
  split; [|done].
  intros (p' & Hstep).
  assert (Hrun' : rtc step (launch source_paper [] p0) p')
    by (by apply rtc_once).
  apply launch_nothing in Hrun'. subst p'.
  destruct Hstep as [[w|w|] Hact]; cbn [ParallelProcessor.act] in Hact.
  - change (workers (launch source_paper [] p0))
      with (@nil (Worker SourcePaper)) in Hact.
    by rewrite lookup_nil in Hact.
  - change (workers (launch source_paper [] p0))
      with (@nil (Worker SourcePaper)) in Hact.
    by rewrite lookup_nil in Hact.
  - done.
Qed.

End ProcessorFacts.
(** *** The three properties of a batch *)

Section Batch.

Context {SourcePaper : Type}.
Variable verify_reference :
  ParallelProcessor.ReferenceWorkItem SourcePaper -> ParallelProcessor.Verification.
Variable submitted : nat -> Q.
Variable source_paper : SourcePaper.
Variable bibliography : list Reference.
Variable p0 : ParallelProcessor.Processor SourcePaper.

Import ParallelProcessor.
Local Open Scope list_scope.

(** C1.  A bibliography of size N is verified in parallel on a processor
    with at least one worker, with a result callback.  Whatever the order
    in which the threads act: the run ends; at every moment of it the
    callback has been called on the indices 0, 1, ..., n-1 in this order,
    for some n up to N (strictly increasing, no gap, no repeat); and when
    it has ended the callback has been called exactly N times, on the
    indices 0..N-1 in order. *)
Theorem results_delivered_in_order :
  idle p0 -> 0 < max_workers p0 ->
  sn (step verify_reference true) (launch submitted source_paper bibliography p0)
  /\ forall p,
       runs verify_reference true submitted source_paper bibliography p0 p ->
       (exists n, n <= length bibliography
                  /\ map index (delivered p) = seq 0 n)
       /\ (finished verify_reference true p ->
           length (delivered p) = length bibliography
           /\ map index (delivered p) = seq 0 (length bibliography)).
Proof.
  intros Hidle HW. split; [apply run_terminates|].
  intros p Hrun.
  destruct (run_result verify_reference true submitted source_paper
              bibliography p0 p Hidle HW Hrun) as [(n & Hn & _ & Hdel) Hend].
  cbv zeta in *. split.
  - exists n. split; [done|].
    rewrite Hdel, processed_indices, <- firstn_map, work_items_indices.
    rewrite take_seq. f_equal. lia.
  - intros Hnf. destruct (Hend Hnf) as (_ & Hall & _).
    rewrite Hall, processed_indices, work_items_indices.
    by rewrite !length_map, work_items_length.
Qed.

Local Abbreviation item_at :=
  (ParallelProcessor.item_at submitted source_paper).

(** C3.  A worker that verifies an item puts exactly one result on the
    result queue, and when the verification raised, this result carries
    one finding, the dictionary with [error_type] [processing_failed] and
    the text of the exception, at the index of the item.  The
    batch ends, with N results printed in order; the result at position
    [i] is the result of the citation at position [i]: the single
    [processing_failed] finding when its verification raised, and what the
    checker returned otherwise. *)
Theorem failure_contained_in_worker (result_callback : bool) :
  idle p0 -> 0 < max_workers p0 ->
  (forall p w work_item,
     workers p !! w = Some (Working work_item) ->
     exists p',
       act verify_reference result_callback (Put w) p = Some p'
       /\ result_queue p' = result_queue p ++ [process verify_reference work_item]
       /\ index (process verify_reference work_item) = wi_index work_item
       /\ forall message now,
            verify_reference work_item = Failed message now ->
            errors (process verify_reference work_item)
            = Some [ {[ "error_type" := Str "processing_failed";
                        "error_details" :=
                          Str ("Internal processing error: " ++ message)%string ]} ])
  /\ sn (step verify_reference result_callback)
        (launch submitted source_paper bibliography p0)
  /\ forall p,
       runs verify_reference result_callback submitted source_paper
            bibliography p0 p ->
       finished verify_reference result_callback p ->
       length (printed p) = length bibliography
       /\ (result_callback = true -> delivered p = printed p)
       /\ forall i reference,
            bibliography !! i = Some reference ->
            exists r,
              printed p !! i = Some r
              /\ index r = i /\ ParallelProcessor.reference r = reference
              /\ match verify_reference (item_at i reference) with
                 | Failed message now =>
                     errors r
                     = Some [ {[ "error_type" := Str "processing_failed";
                                 "error_details" :=
                                   Str ("Internal processing error: "
                                        ++ message)%string ]} ]
                     /\ url r = None /\ verified_data r = None
                 | Verified errors' url' verified_data' elapsed =>
                     errors r = errors' /\ url r = url'
                     /\ verified_data r = verified_data'
                 end.
Proof.
  intros Hidle HW. split; [|split; [apply run_terminates|]].
  - intros p w work_item Hw. eexists. cbn [ParallelProcessor.act].
    rewrite Hw. split; [done|]. split; [done|].
    split; [apply process_index|].
    intros message now Hfail. unfold process. by rewrite Hfail.
  - intros p Hrun Hnf.
    destruct (run_result verify_reference result_callback submitted
                source_paper bibliography p0 p Hidle HW Hrun) as [_ Hend].
    destruct (Hend Hnf) as (Hpr & Hdel & _). cbv zeta in *.
    split; [by rewrite Hpr, length_map, work_items_length|].
    split; [intros ->; by rewrite Hpr, Hdel|].
    intros i reference Hi.
    exists (process verify_reference (item_at i reference)).
    split.
    + rewrite Hpr. rewrite list_lookup_fmap.
      by rewrite (work_items_lookup submitted), Hi.
    + unfold process. by destruct (verify_reference (item_at i reference)).
Qed.

(** C10.  When a batch has ended, [total_errors] in the statistics is its
    value before the batch (zero on a new processor) plus the number of
    findings of all results, each result counting all its findings:
    those of kind error and all others, warnings among them. *)
Theorem total_errors_counts_every_finding (result_callback : bool) :
  idle p0 -> 0 < max_workers p0 ->
  forall p,
    runs verify_reference result_callback submitted source_paper
         bibliography p0 p ->
    finished verify_reference result_callback p ->
    length (printed p) = length bibliography
    /\ stat_total_errors (_get_stats p)
       = total_errors (processing_stats p0)
         + sum_list_with count_findings (printed p)
    /\ (total_errors (processing_stats p0) = 0 ->
        stat_total_errors (_get_stats p)
        = sum_list_with
            (fun r => count_kind is_error r + count_kind (negb ∘ is_error) r)
            (printed p)).
Proof.
  intros Hidle HW p Hrun Hnf.
  destruct (run_result verify_reference result_callback submitted
              source_paper bibliography p0 p Hidle HW Hrun) as [_ Hend].
  destruct (Hend Hnf) as (Hpr & _ & Herr). cbv zeta in *.
  split; [by rewrite Hpr, length_map, work_items_length|].
  unfold _get_stats. cbn [stat_total_errors]. rewrite Herr, Hpr.
  split; [done|]. intros ->. simpl.
  generalize (map (process verify_reference)
                  (work_items submitted source_paper 0 bibliography)).
  intros l. induction l as [|r l IH]; [done|].
  cbn [sum_list_with]. rewrite IH. f_equal.
  unfold count_findings, count_kind.
  generalize (default [] (errors r)). intros fs.
  induction fs as [|f fs IHf]; [done|].
  unfold compose in *. simpl. destruct (is_error f); simpl; lia.
Qed.

End Batch.

(** *** The sample batch *)

Lemma sample_batch_runs :
  ParallelProcessor.runs Examples.checker true (fun _ => 0%Q) tt Examples.batch
    (ParallelProcessor.new 2) Examples.ended.
Proof.
  apply (schedule_runs _ _ Examples.out_of_order). by vm_compute.
Qed.

Lemma sample_batch_finished :
  ParallelProcessor.finished Examples.checker true Examples.ended.
Proof.
  apply stuck_finished. intros [w|w|]; [| |by vm_compute].
  - destruct w as [|[|w]]; by vm_compute.
  - destruct w as [|[|w]]; by vm_compute.
Qed.

Lemma sample_processor_idle :
  ParallelProcessor.idle (@ParallelProcessor.new unit 2).
Proof. by split. Qed.

(** The callback saw the indices 0, 1, 2, although the results arrived in
    the order 1, 2, 0. *)
Lemma results_delivered_in_order_sample :
  map ParallelProcessor.index (ParallelProcessor.delivered Examples.ended)
  = [0; 1; 2].
Proof.
  pose proof (results_delivered_in_order Examples.checker (fun _ => 0%Q) tt
                Examples.batch (ParallelProcessor.new 2)
                sample_processor_idle (Nat.lt_0_succ 1)) as [_ Hrun].
  destruct (Hrun Examples.ended sample_batch_runs) as [_ Hend].
  exact (proj2 (Hend sample_batch_finished)).
Defined.

(** The second citation, on which the checker raised, has its
    [processing_failed] result at position 1. *)
Lemma failure_contained_in_worker_sample :
  exists r,
    ParallelProcessor.printed Examples.ended !! 1 = Some r
    /\ ParallelProcessor.index r = 1
    /\ ParallelProcessor.errors r
       = Some [ {[ "error_type" := Str "processing_failed";
                   "error_details" :=
                     Str "Internal processing error: connection reset" ]} ].
Proof.
  pose proof (failure_contained_in_worker Examples.checker (fun _ => 0%Q) tt
                Examples.batch (ParallelProcessor.new 2) true
                sample_processor_idle (Nat.lt_0_succ 1)) as (_ & _ & Hrun).
  destruct (Hrun Examples.ended sample_batch_runs sample_batch_finished)
    as (_ & _ & Hat).
  destruct (Hat 1 Examples.resnet eq_refl) as (r & Hr & Hi & _ & Herr).
  exists r. split; [exact Hr|]. split; [exact Hi|]. exact (proj1 Herr).
Defined.

(** Two year warnings and one [processing_failed] error: [total_errors]
    is 3, although only one finding is of kind error. *)
Lemma total_errors_counts_every_finding_sample :
  ParallelProcessor.stat_total_errors (ParallelProcessor._get_stats Examples.ended)
  = ParallelProcessor.total_errors
      (ParallelProcessor.processing_stats (@ParallelProcessor.new unit 2))
    + sum_list_with ParallelProcessor.count_findings
        (ParallelProcessor.printed Examples.ended)
  /\ sum_list_with ParallelProcessor.count_findings
       (ParallelProcessor.printed Examples.ended) = 3
  /\ sum_list_with (ParallelProcessor.count_kind is_error)
       (ParallelProcessor.printed Examples.ended) = 1.
Proof.
  pose proof (total_errors_counts_every_finding Examples.checker (fun _ => 0%Q)
                tt Examples.batch (ParallelProcessor.new 2) true
                sample_processor_idle (Nat.lt_0_succ 1)
                Examples.ended sample_batch_runs sample_batch_finished)
    as (_ & Htotal & _).
  split; [exact Htotal|]. split; by vm_compute.
Defined.

(** *** The URLs printed for a result *)

(** X17.  The URLs that [_print_reference_result] collects for a result
    and hands to [deduplicate_urls] are the non-empty ones among the URL
    of the citation, the URL of the result and the URL of the verified
    record, each once: the list has no empty string and no string twice. *)
Theorem collected_urls_distinct (result : ParallelProcessor.ReferenceResult) :
  let candidates :=
    [ Some (ref_url (ParallelProcessor.reference result));
      ParallelProcessor.url result;
      ParallelProcessor.verified_data result ≫= paper_url ] in
  NoDup (ParallelProcessor.all_urls result)
  /\ forall u,
       u ∈ ParallelProcessor.all_urls result <-> u <> "" /\ Some u ∈ candidates.
Proof.
  intros candidates. subst candidates. unfold ParallelProcessor.all_urls.
  set (cited := ref_url (ParallelProcessor.reference result)).
  set (found := ParallelProcessor.url result).
  set (verified := ParallelProcessor.verified_data result ≫= paper_url).
  assert (Hverified :
    match ParallelProcessor.verified_data result with
    | Some paper =>
        match paper_url paper with
        | Some (String c v) => verified = Some (String c v)
        | Some "" => verified = Some ""
        | None => verified = None
        end
    | None => verified = None
    end).
  { subst verified. destruct (ParallelProcessor.verified_data result) as [paper|];
      [|done]. simpl. by destruct (paper_url paper) as [[|c v]|]. }
  clearbody cited found verified.
  destruct (ParallelProcessor.verified_data result) as [paper|];
    [destruct (paper_url paper) as [[|c2 v]|]|];
    rewrite Hverified; clear Hverified;
    destruct cited as [|c0 u0], found as [[|c1 u1]|];
    cbn [Text.nonempty]; cbv zeta;
    repeat match goal with
      | |- context [String.eqb ?a ?b] => destruct (String.eqb_spec a b)
      | |- context [@bool_decide ?P ?dec] => destruct (@bool_decide_reflect P dec)
      end;
    cbn [negb andb app];
    (split;
     [ repeat (apply NoDup_cons_2;
               [rewrite ?elem_of_cons, ?elem_of_nil; intros Hin;
                repeat (destruct Hin as [Hin|Hin]); congruence|]);
       apply NoDup_nil_2
     | intros u; rewrite ?elem_of_cons, ?elem_of_nil;
       split;
       [ intros Hin; repeat (destruct Hin as [Hin|Hin]); subst;
         (split; [done|]); auto 6
       | intros [Hu Hin]; repeat (destruct Hin as [Hin|Hin]);
         simplify_eq; auto 6 ] ]).
Qed.

(** *** The sample batch, once more *)



(** After the sample batch, an empty bibliography returns the statistics
    of the sample batch. *)
Lemma empty_bibliography_returns_at_once_sample :
  ParallelProcessor._get_stats
    (ParallelProcessor.launch (fun _ => 0%Q) tt [] Examples.ended)
  = ParallelProcessor._get_stats Examples.ended
  /\ ParallelProcessor.stat_total_references
       (ParallelProcessor._get_stats Examples.ended) = 3.
Proof.
  pose proof (empty_bibliography_returns_at_once Examples.checker true
                (fun _ => 0%Q) tt Examples.ended _ (rtc_refl _ _))
    as (_ & _ & _ & Hstats & _).
  split; [exact Hstats|]. by vm_compute.
Defined.

(** ** The URL helpers *)

Section UrlFacts.

Variable normalize_doi : string -> string.

Local Abbreviation construct_doi_url := (UrlUtils.construct_doi_url normalize_doi).
Local Abbreviation get_best_available_url :=
  (UrlUtils.get_best_available_url normalize_doi).

Lemma constructed_valid (identifier url_type : string) :
  UrlUtils.validate_url_format (construct_doi_url identifier)
  = Text.nonempty identifier
  /\ UrlUtils.validate_url_format (UrlUtils.construct_arxiv_url identifier url_type)
     = Text.nonempty identifier
  /\ UrlUtils.validate_url_format (UrlUtils.construct_semantic_scholar_url identifier)
     = Text.nonempty identifier
  /\ UrlUtils.validate_url_format (UrlUtils.construct_openalex_url identifier)
     = Text.nonempty identifier
  /\ UrlUtils.validate_url_format (UrlUtils.construct_pubmed_url identifier)
     = Text.nonempty identifier.
Proof.
  unfold UrlUtils.construct_doi_url, UrlUtils.construct_arxiv_url,
    UrlUtils.construct_semantic_scholar_url, UrlUtils.construct_openalex_url,
    UrlUtils.construct_pubmed_url.
  destruct identifier as [|c identifier]; [done|].
  cbn [Text.nonempty]. destruct (String.eqb url_type "pdf"); done.
Qed.

(** X18.  Each of the five URL constructors gives a URL that
    [validate_url_format] accepts when its identifier is not empty, and the
    empty string, which [validate_url_format] rejects, when it is empty:
    whatever the identifier and whatever [normalize_doi] makes of it. *)
Theorem constructed_urls_validate (identifier url_type : string) :
  UrlUtils.validate_url_format (construct_doi_url identifier)
  = Text.nonempty identifier
  /\ UrlUtils.validate_url_format (UrlUtils.construct_arxiv_url identifier url_type)
     = Text.nonempty identifier
  /\ UrlUtils.validate_url_format (UrlUtils.construct_semantic_scholar_url identifier)
     = Text.nonempty identifier
  /\ UrlUtils.validate_url_format (UrlUtils.construct_openalex_url identifier)
     = Text.nonempty identifier
  /\ UrlUtils.validate_url_format (UrlUtils.construct_pubmed_url identifier)
     = Text.nonempty identifier.
Proof. apply constructed_valid. Qed.

(** X19.  [get_best_available_url] returns the open-access PDF URL when it
    is given and not empty, and otherwise the URL built from the first
    identifier present and not empty in the order DOI, ArXiv, CorpusId,
    OpenAlex, PubMed.  It returns nothing exactly when there is no such
    PDF URL and no such identifier; a URL it returns is never empty, and
    is the PDF URL as given or a URL that [validate_url_format] accepts. *)
Theorem best_available_url_first_present (external_ids : gmap string string)
    (open_access_pdf : option string) :
  let sources :=
    [ ("DOI", construct_doi_url);
      ("ArXiv", fun arxiv_id => UrlUtils.construct_arxiv_url arxiv_id "abs");
      ("CorpusId", UrlUtils.construct_semantic_scholar_url);
      ("OpenAlex", UrlUtils.construct_openalex_url);
      ("PubMed", UrlUtils.construct_pubmed_url) ] in
  let built :=
    omap (fun source : string * (string -> string) =>
            snd source <$> get_truthy external_ids (fst source)) sources in
  get_best_available_url external_ids open_access_pdf
  = match open_access_pdf with
    | Some (String _ _ as pdf) => Some pdf
    | _ => head built
    end
  /\ (get_best_available_url external_ids open_access_pdf = None <->
      (open_access_pdf = None \/ open_access_pdf = Some "")
      /\ forall source, source ∈ sources ->
           get_truthy external_ids (fst source) = None)
  /\ forall url,
       get_best_available_url external_ids open_access_pdf = Some url ->
       url <> ""
       /\ (open_access_pdf = Some url
           \/ UrlUtils.validate_url_format url = true).
Proof.
  intros sources built.
  assert (Hfirst : get_best_available_url external_ids open_access_pdf
    = match open_access_pdf with
      | Some (String _ _ as pdf) => Some pdf
      | _ => head built
      end).
  { unfold UrlUtils.get_best_available_url. subst built sources.
    cbn [omap list_omap fst snd].
    destruct open_access_pdf as [[|c pdf]|]; try done;
      repeat (destruct (get_truthy external_ids _); simpl; try done). }
  split; [exact Hfirst|]. split.
  - rewrite Hfirst. subst built sources. split.
    + intros Hnone. split.
      * destruct open_access_pdf as [[|c pdf]|]; [by right|done|by left].
      * intros source Hin.
        assert (Hhead : head
          (omap (fun source : string * (string -> string) =>
                   snd source <$> get_truthy external_ids (fst source))
             [ ("DOI", construct_doi_url);
               ("ArXiv", fun arxiv_id => UrlUtils.construct_arxiv_url arxiv_id "abs");
               ("CorpusId", UrlUtils.construct_semantic_scholar_url);
               ("OpenAlex", UrlUtils.construct_openalex_url);
               ("PubMed", UrlUtils.construct_pubmed_url) ]) = None)
          by (by destruct open_access_pdf as [[|c pdf]|]).
        apply head_None in Hhead.
        destruct (get_truthy external_ids (fst source)) as [v|] eqn:Hv; [|done].
        exfalso.
        assert (Hel : snd source v ∈
          omap (fun source : string * (string -> string) =>
                  snd source <$> get_truthy external_ids (fst source))
            [ ("DOI", construct_doi_url);
              ("ArXiv", fun arxiv_id => UrlUtils.construct_arxiv_url arxiv_id "abs");
              ("CorpusId", UrlUtils.construct_semantic_scholar_url);
              ("OpenAlex", UrlUtils.construct_openalex_url);
              ("PubMed", UrlUtils.construct_pubmed_url) ]).
        { apply list_elem_of_omap. exists source. split; [done|].
          by rewrite Hv. }
        rewrite Hhead in Hel. by apply elem_of_nil in Hel.
    + intros [Hpdf Hids].
      assert (get_truthy external_ids "DOI" = None) as Hdoi
        by (apply (Hids ("DOI", construct_doi_url)); repeat constructor).
      assert (get_truthy external_ids "ArXiv" = None) as Harxiv
        by (apply (Hids ("ArXiv", fun arxiv_id =>
                           UrlUtils.construct_arxiv_url arxiv_id "abs"));
            repeat constructor).
      assert (get_truthy external_ids "CorpusId" = None) as Hcorpus
        by (apply (Hids ("CorpusId", UrlUtils.construct_semantic_scholar_url));
            repeat constructor).
      assert (get_truthy external_ids "OpenAlex" = None) as Hopenalex
        by (apply (Hids ("OpenAlex", UrlUtils.construct_openalex_url));
            repeat constructor).
      assert (get_truthy external_ids "PubMed" = None) as Hpubmed
        by (apply (Hids ("PubMed", UrlUtils.construct_pubmed_url));
            repeat constructor).
      cbn [omap list_omap fst snd].
      rewrite Hdoi, Harxiv, Hcorpus, Hopenalex, Hpubmed.
      by destruct Hpdf as [->| ->].
  - intros url. unfold UrlUtils.get_best_available_url.
    assert (Htruthy : forall key v,
      get_truthy external_ids key = Some v -> Text.nonempty v = true).
    { intros key v. unfold get_truthy.
      destruct (external_ids !! key) as [w|]; [|done].
      destruct (Text.nonempty w) eqn:Hw; [|done]. by intros [= <-]. }
    pose proof constructed_valid as Hvalid.
    assert (Hok : forall u : string,
      UrlUtils.validate_url_format u = true -> u <> "").
    { by intros [|c u]. }
    assert (Hbuilt : forall v (u : string),
      Text.nonempty v = true ->
      u = construct_doi_url v \/ u = UrlUtils.construct_arxiv_url v "abs"
      \/ u = UrlUtils.construct_semantic_scholar_url v
      \/ u = UrlUtils.construct_openalex_url v
      \/ u = UrlUtils.construct_pubmed_url v ->
      u <> "" /\ (open_access_pdf = Some u
                  \/ UrlUtils.validate_url_format u = true)).
    { intros v u Hv Hu.
      destruct (Hvalid v "abs") as (H1 & H2 & H3 & H4 & H5).
      rewrite Hv in H1, H2, H3, H4, H5.
      destruct Hu as [->|[->|[->|[->| ->]]]];
        (split; [by apply Hok|by right]). }
    destruct open_access_pdf as [[|c pdf]|];
      try (intros [= <-]; split; [done|by left]);
      repeat match goal with
        | |- context [get_truthy external_ids ?key] =>
            let H := fresh "H" in
            destruct (get_truthy external_ids key) as [?|] eqn:H;
            [ apply Htruthy in H; intros [= <-];
              apply (Hbuilt _ _ H); tauto
            | ]
        end; done.
Qed.

(** X20.  The prefix of an identifier is optional: an OpenAlex work
    identifier written with its [https://openalex.org/] prefix and a PubMed
    identifier written with its [PMID:] prefix, or after a blank, give the
    URL of the bare identifier.  The identifier must not be empty: the
    prefix alone is not an empty identifier. *)
Theorem identifier_prefix_optional (identifier : string) :
  identifier <> "" ->
  UrlUtils.construct_openalex_url ("https://openalex.org/" ++ identifier)
  = UrlUtils.construct_openalex_url identifier
  /\ UrlUtils.construct_pubmed_url ("PMID:" ++ identifier)
     = UrlUtils.construct_pubmed_url identifier
  /\ forall c, Text.isspace c = true ->
       UrlUtils.construct_pubmed_url (String c identifier)
       = UrlUtils.construct_pubmed_url identifier.
Proof.
  intros Hne. unfold UrlUtils.construct_openalex_url, UrlUtils.construct_pubmed_url.
  destruct identifier as [|x identifier]; [done|].
  set (id := String x identifier). cbn [Text.nonempty].
  split; [|split].
  - change (Text.nonempty ("https://openalex.org/" ++ id)) with true. cbv iota.
    by rewrite (replace_prefix "h" "ttps://openalex.org/" "" id).
  - change (Text.nonempty ("PMID:" ++ id)) with true. cbv iota.
    by rewrite (replace_prefix "P" "MID:" "" id).
  - intros c Hc.
    assert (Hpass : Text.replace "PMID:" "" (String c id)
                    = String c (Text.replace "PMID:" "" id)).
    { apply (replace_pass "P" "MID:" "" (String c "") id).
      rewrite contains_char_cons, orb_false_r. apply Ascii.eqb_neq.
      intros <-. done. }
    by rewrite Hpass, strip_space.
Qed.

(** X21.  [construct_arxiv_url] removes a version marker [v1], [v2] or
    [v3] wherever it stands in the identifier, not only at its end: for
    an identifier with one such marker and no other [v], the URL is that
    of the text before the marker followed by the text after it.  So
    [1706.03762v2] gives the URL of [1706.03762], and [1706.03762v10]
    that of [1706.037620]. *)
Theorem arxiv_version_marker_removed (before after url_type : string)
    (version : ascii) :
  Text.contains "v" before = false ->
  Text.contains "v" after = false ->
  version = "1"%char \/ version = "2"%char \/ version = "3"%char ->
  UrlUtils.construct_arxiv_url
    (before ++ String "v" (String version after)) url_type
  = if String.eqb url_type "pdf"
    then "https://arxiv.org/pdf/" ++ (before ++ after) ++ ".pdf"
    else "https://arxiv.org/abs/" ++ (before ++ after).
Proof.
  intros Hb Ha Hversion. unfold UrlUtils.construct_arxiv_url.
  assert (Text.nonempty (before ++ String "v" (String version after)) = true)
    as -> by (by destruct before).
  assert (Hclean : forall d : string,
    Text.replace (String "v" d) "" (before ++ after) = before ++ after).
  { intros d. apply replace_absent. by rewrite contains_char_app, Hb, Ha. }
  assert (Hkeep : forall d : ascii, d <> version ->
    Text.replace (String "v" (String d "")) ""
      (before ++ String "v" (String version after))
    = before ++ String "v" (String version after)).
  { intros d Hd. rewrite replace_pass by done. f_equal.
    unfold Text.replace. cbn [Text.replace_go].
    rewrite !prefix_cons, Ascii.eqb_refl.
    apply Ascii.eqb_neq in Hd as ->. cbn [andb].
    f_equal.
    assert (Hv : Ascii.eqb "v" version = false)
      by (by destruct Hversion as [->|[->| ->]]).
    rewrite Hv. cbn [andb]. f_equal.
    by apply (replace_absent "v" (String d "") "" after). }
  assert (Hdrop :
    Text.replace (String "v" (String version "")) ""
      (before ++ String "v" (String version after))
    = before ++ after).
  { rewrite replace_pass by done. f_equal.
    change (String "v" (String version after))
      with (String "v" (String version "") ++ after).
    rewrite (replace_prefix "v" (String version "") "" after).
    by apply (replace_absent "v" (String version "") "" after). }
  destruct Hversion as [->|[->| ->]].
  - by rewrite Hdrop, !Hclean.
  - rewrite Hkeep by done. by rewrite Hdrop, !Hclean.
  - rewrite !Hkeep by done. by rewrite Hdrop.
Qed.

(** X22.  [clean_url] never fails: when the stripped URL has a [?], the
    split gives the two parts that line 184 unpacks.  What it returns is
    the stripped URL up to its first [?], for DOI URLs and for all others
    alike; it has no [?] in it. *)
Theorem clean_url_drops_query (url : string) :
  let cleaned :=
    Text.take_until (fun c => Ascii.eqb c "?") (Text.strip url) in
  UrlUtils.clean_url url = Some cleaned
  /\ Text.contains "?" cleaned = false
  /\ exists query, Text.strip url = cleaned ++ query.
Proof.
  intros cleaned. split; [|split].
  - unfold UrlUtils.clean_url. subst cleaned.
    destruct url as [|c url]; [done|]. cbn [Text.nonempty]. cbv zeta.
    pose proof (split_once_parts "?" (Text.strip (String c url))) as Hparts.
    cbv zeta in Hparts.
    destruct (Text.contains "?" (Text.strip (String c url))).
    + destruct Hparts as (after & -> & _).
      by destruct (Text.contains "doi.org" _).
    + by destruct Hparts as [_ ->].
  - rewrite contains_char_any. apply take_until_stops.
  - apply take_until_prefix.
Qed.

End UrlFacts.

(** An OpenAlex work, with and without the prefix. *)
Lemma identifier_prefix_optional_sample :
  UrlUtils.construct_openalex_url "https://openalex.org/W2741809807"
  = UrlUtils.construct_openalex_url "W2741809807".
Proof.
  refine (proj1 (identifier_prefix_optional "W2741809807" _)). done.
Defined.

(** The tenth version of a preprint: the marker [v1] goes, the [0] stays. *)
Lemma arxiv_version_marker_removed_sample :
  UrlUtils.construct_arxiv_url "1706.03762v10" "abs"
  = "https://arxiv.org/abs/1706.037620".
Proof.
  refine (arxiv_version_marker_removed "1706.03762" "0" "abs" "1" _ _ _).
  - reflexivity.
  - reflexivity.
  - by left.
Defined.
